(** * Moveworks data-API pipeline (main-script.py): a shallow embedding

  The development follows the five components of the synchronisation
  engine: the record flattener ([flatten_record]), the source client
  ([fetch_data]), the schema mapper ([transform_dataframe_for_schema]),
  the load engine ([load_data_to_snowflake], [upsert_data_to_snowflake])
  and the orchestrator ([run_daily_sync]).

  Python objects live in a heap of dictionaries and lists, so that
  aliasing between a record and its shallow copy is visible; a frame
  is a list of named columns whose dtype is the one pandas infers from
  the cells; the warehouse is a finite map from table names to tables,
  with the replies its documentation describes; exceptions are results
  of a small state-and-error monad. *)

From stdpp Require Import base strings gmap list pretty.
From Stdlib Require Import ZArith Lia SpecFloat.

Open Scope string_scope.
Open Scope nat_scope.
Open Scope list_scope.

Set Warnings "-clear-no-such-hyp".

(** ** Python values and the object heap *)

Module Py.

Definition loc := positive.

#[global] Instance spec_float_eq_dec : EqDecision spec_float.
Proof. solve_decision. Defined.

(** Scalars are stored by value, dictionaries and lists by reference.
    [VNum] is an [int], [VFloat] a [float] that is not NaN (a double),
    [VNaN] is [float('nan')], [VTime] a [datetime]. *)
Inductive val :=
| VNone
| VNaN
| VBool (b : bool)
| VNum (z : Z)
| VStr (s : string)
| VTime (t : Z)
| VRef (l : loc)
| VFloat (f : spec_float).

Arguments VRef l%_positive.

#[global] Instance val_eq_dec : EqDecision val.
Proof. solve_decision. Defined.

(** A [dict] keeps insertion order, as Python's does. *)
Abbreviation dict := (list (string * val)).

Inductive obj :=
| ODict (d : dict)
| OList (l : list val).

Abbreviation heap := (gmap loc obj).

Fixpoint dict_get (d : dict) (k : string) : option val :=
  match d with
  | [] => None
  | (k', v) :: d' => if decide (k' = k) then Some v else dict_get d' k
  end.

(** [d[k] = v]: an existing key keeps its position, a new key goes last. *)
Fixpoint dict_set (d : dict) (k : string) (v : val) : dict :=
  match d with
  | [] => [(k, v)]
  | (k', v') :: d' =>
      if decide (k' = k) then (k, v) :: d' else (k', v') :: dict_set d' k v
  end.

(** [d.pop(k, default)], the dictionary that is left. *)
Definition dict_pop (d : dict) (k : string) : dict :=
  filter (λ kv, kv.1 ≠ k) d.

Definition dict_keys (d : dict) : list string := d.*1.

(** [isinstance(v, dict)] and [isinstance(v, list)], with the contents. *)
Definition as_dict (h : heap) (v : val) : option dict :=
  match v with
  | VRef l => match h !! l with Some (ODict d) => Some d | _ => None end
  | _ => None
  end.

Definition as_list (h : heap) (v : val) : option (list val) :=
  match v with
  | VRef l => match h !! l with Some (OList xs) => Some xs | _ => None end
  | _ => None
  end.

(** Item assignment, [pop] and [get] on the dictionary stored at [l]. *)
Definition setitem (h : heap) (l : loc) (k : string) (v : val) : heap :=
  match h !! l with
  | Some (ODict d) => <[l := ODict (dict_set d k v)]> h
  | _ => h
  end.

Definition popitem (h : heap) (l : loc) (k : string) : heap :=
  match h !! l with
  | Some (ODict d) => <[l := ODict (dict_pop d k)]> h
  | _ => h
  end.

Definition getitem (h : heap) (l : loc) (k : string) : option val :=
  match h !! l with
  | Some (ODict d) => dict_get d k
  | _ => None
  end.

(** [h'] has everything [h] has, unchanged. *)
Definition heap_preserved (h h' : heap) : Prop :=
  ∀ l, l ∈ dom h → h' !! l = h !! l.

(** [float(z)]: the double nearest to the integer, ties to even. *)
Definition float_of_int (z : Z) : spec_float := binary_normalize 53 1024 z 0 false.

(** The exceptions the pipeline meets, and a call that returns or
    raises. *)
Inductive exn :=
| ValueError
| KeyError
| TypeError
| ProgrammingError    (* the warehouse refuses the statement *)
| OperationalError.   (* the call fails of the warehouse's or the network's accord *)

Inductive outcome (A : Type) :=
| Returns (a : A)
| Raises (e : exn).
Arguments Returns {A}.
Arguments Raises {A}.

End Py.

Import Py.

(** ** Record flattener *)

Module Flatten.
Section flatten.

(** Python's [str] on a value, which reads the heap for containers. *)
Variable py_str : heap → val → string.

(** [','.join(map(str, value))] when [value] is a list. *)
Definition detail_value (h : heap) (value : val) : val :=
  match as_list h value with
  | Some xs => VStr (String.concat "," (py_str h <$> xs))
  | None => value
  end.

(** The loop over [detail.items()], writing into the copy [flat]. *)
Definition flatten_detail (flat : loc) (h : heap) (detail : dict) : heap :=
  foldl (λ h kv, setitem h flat ("detail_" +:+ kv.1) (detail_value h kv.2))
        h detail.

(** The inner loop over [ext_id.items()] for the [i]-th identity. *)
Definition flatten_ext_id (flat : loc) (h : heap) (i : nat) (ext_id : val) : heap :=
  match as_dict h ext_id with
  | Some d =>
      foldl (λ h kv,
               setitem h flat ("external_id_" +:+ pretty i +:+ "_" +:+ kv.1) kv.2)
            h d
  | None => h
  end.

Definition flatten_external_ids (flat : loc) (h : heap) (external_ids : list val) : heap :=
  foldl (λ h ix, flatten_ext_id flat h ix.1 ix.2) h (imap pair external_ids).

(** [flatten_record]: [None] stands for the exception Python raises when
    [record] is not a dictionary.  The throw-away [{}] defaults of the two
    [pop] calls are not allocated: nothing can reach them. *)
Definition flatten_record (h : heap) (record : loc) : option (heap * loc) :=
  match h !! record with
  | Some (ODict d) =>
      let flat := fresh (dom h) in
      let h := <[flat := ODict d]> h in
      let h :=
        match getitem h flat "detail" ≫= as_dict h with
        | Some detail => flatten_detail flat (popitem h flat "detail") detail
        | None => h
        end in
      let h :=
        match getitem h flat "external_ids" ≫= as_list h with
        | Some external_ids =>
            flatten_external_ids flat (popitem h flat "external_ids") external_ids
        | None => h
        end in
      Some (h, flat)
  | _ => None
  end.

(** The heap is the same as [h0] except for a dictionary at [f]. *)
Definition writes_only (f : loc) (h0 h : heap) : Prop :=
  (∀ l, l ≠ f → h !! l = h0 !! l) ∧ ∃ d, h !! f = Some (ODict d).

(** What a detail value becomes: a list is joined with commas, the
    elements printed in a heap that still has all of [h]. *)
Definition joined (h : heap) (value out : val) : Prop :=
  match as_list h value with
  | Some xs =>
      ∃ h1, heap_preserved h h1 ∧
            out = VStr (String.concat "," (py_str h1 <$> xs))
  | None => out = value
  end.

(** The record has a list of external identities. *)
Definition has_identity_list (h : heap) (d : dict) : Prop :=
  is_Some (dict_get d "external_ids" ≫= as_list h).

End flatten.

(** A user record with a nested detail, a list of identities and a field
    that is already called [detail_a]; [str_scalar] prints scalars. *)
Definition str_scalar (h : heap) (v : val) : string :=
  match v with
  | VStr s => s
  | VNum z => pretty z
  | VBool b => if b then "True" else "False"
  | VNone => "None"
  | _ => ""
  end.

Definition sample_record : dict :=
  [("id", VStr "u1"); ("detail", VRef 2); ("external_ids", VRef 3);
   ("detail_a", VNum 9)].

Definition sample_heap : heap :=
  list_to_map
    [(1%positive, ODict sample_record);
     (2%positive, ODict [("a", VRef 4); ("b", VNum 7)]);
     (3%positive, OList [VRef 5]);
     (4%positive, OList [VStr "x"; VNum 2]);
     (5%positive, ODict [("system", VStr "okta")])].

End Flatten.

(** ** Source client *)

Module Fetch.

Definition MAX_RETRIES : nat := 5.

Definition BASE_API : string := "https://api.moveworks.ai/export/v1beta2/records".

Definition ENDPOINTS : list string :=
  ["interactions"; "conversations"; "plugin-calls"; "plugin-resources"; "users"].

(** The decoded body of a 200 response: the [value] array ([[]] when the
    key is missing) and the [@odata.nextLink] entry. *)
Record json_body (Rec : Type) := JsonBody {
  value : list Rec;
  next_link : option string;
}.
Arguments JsonBody {Rec}.
Arguments value {Rec}.
Arguments next_link {Rec}.

(** What [requests.get] gives back: a response with its status code and,
    when the body decodes as JSON, the body; or an exception. *)
Inductive reply (Rec : Type) :=
| Response (status_code : Z) (body : option (json_body Rec))
| RequestException.
Arguments Response {Rec}.
Arguments RequestException {Rec}.

(** The local variables of [fetch_data], the seconds slept so far, the
    number of requests sent and the state [flatten_record] works on. *)
Record fetch_state (St Flat : Type) := FetchState {
  url : option string;
  data : list Flat;
  retries : nat;
  page_count : nat;
  slept : nat;
  requests : nat;
  store : St;
}.
Arguments FetchState {St Flat}.
Arguments url {St Flat}.
Arguments data {St Flat}.
Arguments retries {St Flat}.
Arguments page_count {St Flat}.
Arguments slept {St Flat}.
Arguments requests {St Flat}.
Arguments store {St Flat}.

Inductive step_result (A : Type) :=
| Next (s : A)     (* the iteration ran to its end *)
| Break (s : A).   (* [break] *)
Arguments Next {A}.
Arguments Break {A}.

(** Truth value of [url] in [while url]. *)
Definition truthy (u : option string) : bool :=
  match u with
  | Some s => negb (bool_decide (s = ""))
  | None => false
  end.

Definition is_transient (status_code : Z) : bool :=
  bool_decide (status_code ∈ [500; 502; 503; 504]%Z).

Section fetch.

Context {St Rec Flat : Type}.

(** [flatten_record] on the client's state; [None] when it raises. *)
Variable flatten_record : St → Rec → option (St * Flat).

(** The answer of the source to the [n]-th request of the run. *)
Variable source : nat → reply Rec.

Variable endpoint : string.

Definition initial (st : St) (sent : nat) : fetch_state St Flat :=
  FetchState (Some (BASE_API +:+ "/" +:+ endpoint)) [] 0 0 0 sent st.

Definition sleep (seconds : nat) (s : fetch_state St Flat) : fetch_state St Flat :=
  FetchState (url s) (data s) (retries s) (page_count s)
             (slept s + seconds) (requests s) (store s).

(** [for record in page_data: data.append(self.flatten_record(record))];
    the flag is [false] when a record made [flatten_record] raise, the
    records before it having been appended. *)
Fixpoint flatten_page (st : St) (acc : list Flat) (page_data : list Rec)
  : St * list Flat * bool :=
  match page_data with
  | [] => (st, acc, true)
  | record :: rest =>
      match flatten_record st record with
      | Some (st', flattened) => flatten_page st' (acc ++ [flattened]) rest
      | None => (st, acc, false)
      end
  end.

(** One iteration of the [while url] loop, on the answer [r]. *)
Definition fetch_step (r : reply Rec) (s0 : fetch_state St Flat)
  : step_result (fetch_state St Flat) :=
  let s := FetchState (url s0) (data s0) (retries s0) (page_count s0)
                      (slept s0) (S (requests s0)) (store s0) in
  match r with
  | RequestException => Break s
  | Response status_code body =>
      if bool_decide (status_code = 200%Z) then
        match body with
        | None => Break s
        | Some json_resp =>
            match value json_resp with
            | [] => Break s
            | page_data =>
                let '(st, data', ok) := flatten_page (store s) (data s) page_data in
                if ok then
                  Next (FetchState (next_link json_resp) data' 0
                          (S (page_count s))
                          (slept s + if bool_decide (endpoint = "users") then 2 else 0)
                          (requests s) st)
                else
                  Break (FetchState (url s) data' (retries s) (page_count s)
                           (slept s) (requests s) st)
            end
        end
      else if bool_decide (status_code = 429%Z) then
        Next (sleep (if bool_decide (endpoint = "users") then 90 else 60) s)
      else if is_transient status_code then
        if bool_decide (retries s < MAX_RETRIES) then
          let s := sleep (2 ^ retries s) s in
          Next (FetchState (url s) (data s) (S (retries s)) (page_count s)
                  (slept s) (requests s) (store s))
        else Break s
      else Break s
  end.

(** The pause after a rate-limit answer. *)
Definition rate_limit_wait : nat :=
  if bool_decide (endpoint = "users") then 90 else 60.

(** The loop, with a bound on the number of iterations: [None] when the
    loop is still running after [fuel] iterations. *)
Fixpoint fetch_loop (fuel : nat) (s : fetch_state St Flat)
  : option (fetch_state St Flat) :=
  if truthy (url s) then
    match fuel with
    | 0 => None
    | S fuel' =>
        match fetch_step (source (requests s)) s with
        | Next s' => fetch_loop fuel' s'
        | Break s' => Some s'
        end
    end
  else Some s.

(** The state after [n] iterations, when the loop is still in its body's
    reach (no [break] so far). *)
Fixpoint iterate (n : nat) (s : fetch_state St Flat)
  : option (fetch_state St Flat) :=
  match n with
  | 0 => Some s
  | S n' =>
      if truthy (url s) then
        match fetch_step (source (requests s)) s with
        | Next s' => iterate n' s'
        | Break _ => None
        end
      else None
  end.

(** The retry counter as the specification describes it: the number of
    transient errors since the last page that was processed, rate-limit
    answers neither counting nor resetting. *)
Definition streak_step (streak : nat) (r : reply Rec) : nat :=
  match r with
  | Response status_code _ =>
      if bool_decide (status_code = 200%Z) then 0
      else if bool_decide (status_code = 429%Z) then streak
      else if is_transient status_code then S streak
      else streak
  | RequestException => streak
  end.

Definition streak (first n : nat) : nat :=
  foldl streak_step 0 (source <$> seq first n).

End fetch.

(** Sources used as examples: records are strings and flattening is the
    identity. *)
Definition plain_flatten (st : unit) (record : string) : option (unit * string) :=
  Some (st, record).

Definition always_rate_limited (n : nat) : reply string := Response 429 None.

Definition first_page : json_body string :=
  JsonBody ["r1"] (Some (BASE_API +:+ "/conversations?page=2")).

Definition last_page : json_body string := JsonBody ["r2"] None.

(** A page, five transient errors in a row, then the last page. *)
Definition five_errors_then_page (n : nat) : reply string :=
  match n with
  | 0 => Response 200 (Some first_page)
  | 1 | 2 | 3 | 4 | 5 => Response 503 None
  | _ => Response 200 (Some last_page)
  end.

(** A page, then transient errors only. *)
Definition page_then_errors (n : nat) : reply string :=
  match n with
  | 0 => Response 200 (Some first_page)
  | _ => Response 503 None
  end.

End Fetch.

(** ** Text helpers *)

Module Text.

(** [s.replace(old, new)] for a non-empty [old]: occurrences are replaced
    from the left and do not overlap; [skip] counts the characters of an
    occurrence that are still to be dropped. *)
Fixpoint replace_from (old new : string) (skip : nat) (s : string) : string :=
  match s with
  | EmptyString => EmptyString
  | String c s' =>
      match skip with
      | S k => replace_from old new k s'
      | 0 =>
          if String.prefix old s
          then new +:+ replace_from old new (String.length old - 1) s'
          else String c (replace_from old new 0 s')
      end
  end.

Definition str_replace (old new s : string) : string :=
  replace_from old new 0 s.

Definition upper_char (c : Ascii.ascii) : Ascii.ascii :=
  let n := Ascii.nat_of_ascii c in
  if (97 <=? n) && (n <=? 122) then Ascii.ascii_of_nat (n - 32) else c.

(** [s.upper()] on ASCII text. *)
Fixpoint upper (s : string) : string :=
  match s with
  | EmptyString => EmptyString
  | String c s' => String (upper_char c) (upper s')
  end.

(** [s.startswith(p)]. *)
Definition startswith (s p : string) : bool := String.prefix p s.

(** Lists of pairs with string keys, in insertion order. *)
Fixpoint alist_get {A} (l : list (string * A)) (k : string) : option A :=
  match l with
  | [] => None
  | (k', v) :: l' => if decide (k' = k) then Some v else alist_get l' k
  end.

Fixpoint alist_set {A} (l : list (string * A)) (k : string) (v : A)
  : list (string * A) :=
  match l with
  | [] => [(k, v)]
  | (k', v') :: l' =>
      if decide (k' = k) then (k, v) :: l' else (k', v') :: alist_set l' k v
  end.

End Text.

(** ** Table schemas *)

Module Schema.
Import Text.

Inductive sql_type := VARCHAR | VARIANT | BOOLEAN | TIMESTAMP_NTZ.

Record column_def := Column {
  col_name : string;
  col_type : sql_type;
  col_not_null : bool;
  col_default_now : bool;      (* DEFAULT CURRENT_TIMESTAMP() *)
}.

(** A [CREATE OR REPLACE [TEMPORARY] TABLE] statement.  [ddl_target] is the
    text at the place of the table name; in the templates of
    [get_table_schema] it is the placeholder [{table_name}].  The column
    comments are left out: no table name occurs in them. *)
Record create_table := CreateTable {
  ddl_target : string;
  ddl_temporary : bool;
  ddl_columns : list column_def;
  ddl_primary_key : option string;
}.

Definition text (name : string) : column_def := Column name VARCHAR false false.
Definition key (name : string) : column_def := Column name VARCHAR true false.
Definition flag (name : string) : column_def := Column name BOOLEAN false false.
Definition variant (name : string) : column_def := Column name VARIANT false false.
Definition load_timestamp : column_def := Column "LOAD_TIMESTAMP" TIMESTAMP_NTZ false true.

Definition template (cols : list column_def) : create_table :=
  CreateTable "{table_name}" false cols (Some "ID").

Definition get_table_schema (table_name : string) : option create_table :=
  if decide (table_name = "MOVEWORKS_CONVERSATIONS") then
    Some (template
      [text "LAST_UPDATED_AT"; key "ID"; text "USER_ID"; text "CREATED_AT";
       text "ROUTE"; text "PRIMARY_DOMAIN"; load_timestamp])
  else if decide (table_name = "MOVEWORKS_INTERACTIONS") then
    Some (template
      [text "LAST_UPDATED_AT"; text "CONVERSATION_ID"; text "USER_ID"; key "ID";
       text "CREATED_AT"; text "PLATFORM"; text "TYPE"; text "LABEL";
       text "PARENT_INTERACTION_ID"; variant "DETAILS"; text "ACTOR";
       load_timestamp])
  else if decide (table_name = "MOVEWORKS_PLUGIN_CALLS") then
    Some (template
      [text "LAST_UPDATED_AT"; text "CONVERSATION_ID"; text "USER_ID";
       text "INTERACTION_ID"; key "ID"; text "CREATED_AT";
       text "PLUGIN_UPDATE_TIME"; text "PLUGIN_NAME"; text "PLUGIN_STATUS";
       flag "SERVED"; flag "USED"; load_timestamp])
  else if decide (table_name = "MOVEWORKS_PLUGIN_RESOURCES") then
    Some (template
      [key "ID"; text "CONVERSATION_ID"; text "INTERACTION_ID";
       text "PLUGIN_CALL_ID"; text "USER_ID"; text "TYPE"; text "RESOURCE_ID";
       variant "DETAILS"; flag "CITED"; text "LAST_UPDATED_AT";
       text "CREATED_AT"; load_timestamp])
  else if decide (table_name = "MOVEWORKS_USERS") then
    Some (template
      [key "ID"; text "FIRST_NAME"; text "LAST_NAME"; text "EMAIL_ADDR";
       text "USER_PREFERRED_LANGUAGE"; flag "HAS_ACCESS_TO_BOT";
       text "EXTERNAL_IDS"; text "LAST_UPDATED_AT"; text "FIRST_INTERACTION_AT";
       text "LAST_INTERACTION_AT"; load_timestamp])
  else None.

Definition get_primary_key_column (endpoint : string) : string := "ID".

(** [f"MOVEWORKS_{endpoint.replace('-', '_').upper()}"] *)
Definition table_name_of (endpoint : string) : string :=
  "MOVEWORKS_" +:+ upper (str_replace "-" "_" endpoint).

(** The column names of the table of an endpoint, in the order of its
    template; [[]] for an endpoint without a table. *)
Definition schema_columns (endpoint : string) : list string :=
  match get_table_schema (table_name_of endpoint) with
  | Some ddl => col_name <$> ddl_columns ddl
  | None => []
  end.

End Schema.

(** ** Data frames *)

Module Frame.
Import Text.

(** A frame is a row index ([0 .. index-1]) and named columns, each a list
    of cells.  The dtype of a column is not stored: it is the one pandas
    infers from the cells ([dtype_of] below), as it does when [fetch_data]
    builds the frame from the records and when [applymap] rebuilds it. *)
Record DataFrame := Frame {
  index : nat;
  columns : list (string * list val);
}.

(** The dtypes that JSON values give rise to. *)
Inductive dtype := DInt64 | DUInt64 | DBool | DFloat64 | DObject.

#[global] Instance dtype_eq_dec : EqDecision dtype.
Proof. solve_decision. Defined.

(** What the inference has seen of the cells of a column
    ([lib.maybe_convert_objects]): a [None], a NaN, a [bool], a [float], an
    [int], an [int] above the int64 range, a negative [int], and something
    that makes the column an object column, which ends the scan. *)
Record seen := Seen {
  null_ : bool;
  nan_ : bool;
  bool_ : bool;
  float_ : bool;
  int_ : bool;
  uint_ : bool;
  sint_ : bool;
  object_ : bool;
}.

Definition INT64_MIN : Z := - 2 ^ 63.
Definition INT64_MAX : Z := 2 ^ 63 - 1.
Definition UINT64_MAX : Z := 2 ^ 64 - 1.

(** One turn of the scan.  An [int] met after a [None] is not checked
    against the integer ranges: the column is going to be a float column. *)
Definition saw (s : seen) (v : val) : seen :=
  if object_ s then s
  else
    match v with
    | VNone =>
        Seen true (nan_ s) (bool_ s) (float_ s) (int_ s) (uint_ s) (sint_ s) false
    | VNaN =>
        Seen (null_ s) true (bool_ s) (float_ s) (int_ s) (uint_ s) (sint_ s) false
    | VBool _ =>
        Seen (null_ s) (nan_ s) true (float_ s) (int_ s) (uint_ s) (sint_ s) false
    | VFloat _ =>
        Seen (null_ s) (nan_ s) (bool_ s) true (int_ s) (uint_ s) (sint_ s) false
    | VNum z =>
        if null_ s then
          Seen (null_ s) (nan_ s) (bool_ s) (float_ s) true (uint_ s) (sint_ s) false
        else
          let uint := uint_ s || ((INT64_MAX <? z)%Z && (z <=? UINT64_MAX)%Z) in
          let sint := sint_ s || (z <? 0)%Z in
          Seen (null_ s) (nan_ s) (bool_ s) (float_ s) true uint sint
               ((uint && sint) || (UINT64_MAX <? z)%Z || (z <? INT64_MIN)%Z)
    | VStr _ | VTime _ | VRef _ =>
        Seen (null_ s) (nan_ s) (bool_ s) (float_ s) (int_ s) (uint_ s) (sint_ s) true
    end.

Definition scan (cells : list val) : seen :=
  foldl saw (Seen false false false false false false false false) cells.

(** The dtype pandas gives the column. *)
Definition dtype_of (cells : list val) : dtype :=
  let s := scan cells in
  if object_ s then DObject
  else if bool_ s then
    if int_ s || float_ s || nan_ s || null_ s then DObject else DBool
  else if null_ s || nan_ s then
    if float_ s || int_ s || nan_ s then DFloat64 else DObject
  else if float_ s then DFloat64
  else if int_ s then (if uint_ s then DUInt64 else DInt64)
  else DObject.

(** A cell of a float column: an [int] is converted, a [None] is NaN. *)
Definition to_float (v : val) : val :=
  match v with
  | VNum z => VFloat (float_of_int z)
  | VNone => VNaN
  | _ => v
  end.

(** The cells as pandas stores them. *)
Definition convert_column (cells : list val) : list val :=
  match dtype_of cells with
  | DFloat64 => to_float <$> cells
  | _ => cells
  end.

(** The dtype of the rows of [df[cols]] ([find_common_type]): integers
    and floats mix to floats, int64 and uint64 too; a [bool] column mixes
    with nothing. *)
Definition common (a b : dtype) : dtype :=
  if decide (a = b) then a
  else
    match a, b with
    | (DInt64 | DUInt64 | DFloat64), (DInt64 | DUInt64 | DFloat64) => DFloat64
    | _, _ => DObject
    end.

Definition common_dtype (dtypes : list dtype) : dtype :=
  match dtypes with
  | [] => DObject
  | d :: rest => foldl common d rest
  end.

(** The cells of a row of a numeric or boolean dtype are NumPy scalars;
    those of an object row are the Python objects themselves. *)
Definition numpy_scalars (d : dtype) : bool :=
  match d with
  | DObject => false
  | _ => true
  end.

(** [pd.DataFrame()] *)
Definition empty_frame : DataFrame := Frame 0 [].

Definition names (df : DataFrame) : list string := (columns df).*1.

(** The column names after an assignment to the column [col]. *)
Definition add_name (ns : list string) (col : string) : list string :=
  if bool_decide (col ∈ ns) then ns else ns ++ [col].

(** [col in df.columns] *)
Definition has_column (df : DataFrame) (col : string) : bool :=
  bool_decide (col ∈ names df).

Definition column (df : DataFrame) (col : string) : option (list val) :=
  alist_get (columns df) col.

(** [df.empty]: one of the two axes has length zero. *)
Definition is_empty (df : DataFrame) : bool :=
  (index df =? 0) || bool_decide (columns df = []).

(** [df[col] = v] for a scalar [v]. *)
Definition set_scalar (df : DataFrame) (col : string) (v : val) : DataFrame :=
  Frame (index df) (alist_set (columns df) col (replicate (index df) v)).

(** [df[col] = series] for a series indexed [0 .. length-1].  A frame
    whose index is still empty takes the index of the series, and the
    columns it already has are filled with NaN; otherwise the series is
    aligned on the index of the frame. *)
Definition set_series (df : DataFrame) (col : string) (series : list val)
  : DataFrame :=
  if (index df =? 0) && negb (length series =? 0) then
    Frame (length series)
          (alist_set (prod_map id (λ _, replicate (length series) VNaN) <$> columns df)
                     col series)
  else
    Frame (index df) (alist_set (columns df) col (resize (index df) VNaN series)).

(** [df.drop(columns=[col])] *)
Definition drop_column (df : DataFrame) (col : string) : DataFrame :=
  Frame (index df) (filter (λ kv, kv.1 ≠ col) (columns df)).

Definition cell (df : DataFrame) (col : string) (i : nat) : val :=
  default VNaN (column df col ≫= (.!! i)).

(** The [i]-th row of [df[cols]]. *)
Definition row (df : DataFrame) (cols : list string) (i : nat)
  : list (string * val) :=
  (λ col, (col, cell df col i)) <$> cols.

(** The dtype and the [i]-th row of [df[cols]] as [apply(f, axis=1)]
    hands it to [f]: the cells are brought to the common dtype. *)
Definition row_dtype (df : DataFrame) (cols : list string) : dtype :=
  common_dtype ((λ col, dtype_of (default [] (column df col))) <$> cols).

Definition upcast (d : dtype) (v : val) : val :=
  match d, v with
  | DFloat64, VNum z => VFloat (float_of_int z)
  | _, _ => v
  end.

Definition values_row (df : DataFrame) (cols : list string) (i : nat)
  : list (string * val) :=
  (λ col, (col, upcast (row_dtype df cols) (cell df col i))) <$> cols.

(** The rows of the frame, as dictionaries. *)
Definition rows (df : DataFrame) : list dict :=
  (λ i, row df (names df) i) <$> seq 0 (index df).

(** [pd.notna] and [pd.isna] on a cell. *)
Definition notna (v : val) : bool :=
  match v with VNone | VNaN => false | _ => true end.

Definition is_null (v : val) : Prop := v = VNone ∨ v = VNaN.

(** The column is there and holds nulls only. *)
Definition all_null (df : DataFrame) (col : string) : Prop :=
  ∃ cells, column df col = Some cells ∧ Forall is_null cells.

(** [pd.DataFrame(data)] for a list of dictionaries of JSON values: the
    columns are the keys in the order in which they first appear, a
    missing key is NaN, and each column is stored under the dtype inferred
    for it (integers are taken to be below [2 ^ 1024] in size, so that
    they convert). *)
Definition record_keys (data : list dict) : list string :=
  foldl (λ (acc : list string) d,
           foldl (λ (acc : list string) k,
                    if bool_decide (k ∈ acc) then acc else (acc ++ [k])%list)
                 acc (dict_keys d))
        [] data.

Definition of_records (data : list dict) : DataFrame :=
  Frame (length data)
        ((λ k, (k, convert_column ((λ d, default VNaN (dict_get d k)) <$> data)))
           <$> record_keys data).

End Frame.

(** ** Schema mapper *)

Module Mapper.
Import Text Frame.

(** Sequencing of calls that can raise, and a loop over a list that stops
    at the first call that raises. *)
Definition and_then {A B} (r : outcome A) (k : A → outcome B) : outcome B :=
  match r with
  | Returns a => k a
  | Raises e => Raises e
  end.

Fixpoint for_each {A B} (f : A → outcome B) (l : list A) : outcome (list B) :=
  match l with
  | [] => Returns []
  | x :: l' =>
      and_then (f x) (λ y, and_then (for_each f l') (λ ys, Returns (y :: ys)))
  end.

Section transform.

(** [json.dumps] on a dictionary given by its items and on a value, when
    it takes them; [str] on a value and on the list of the values of a row
    of the given dtype; all read the heap for containers. *)
Variable json_dumps_dict : heap → dict → string.
Variable json_dumps : heap → val → string.
Variable py_str : heap → val → string.
Variable py_str_list : heap → dtype → list val → string.

(** [bool(pd.notna(xs))] for a list [xs]: [pd.notna] gives the array of
    the tests on the elements, and taking the truth value of an array that
    has not exactly one element is refused with [ValueError] ([None]). *)
Variable array_truth : heap → list val → option bool.

Variable h : heap.

Definition detail_cols (df : DataFrame) : list string :=
  filter (λ col, startswith col "detail_") (names df).

Definition external_id_cols (df : DataFrame) : list string :=
  filter (λ col, startswith col "external_id_") (names df).

(** [if pd.notna(value)] on a cell. *)
Definition notna_cell (value : val) : outcome bool :=
  match as_list h value with
  | Some xs =>
      match array_truth h xs with
      | Some b => Returns b
      | None => Raises ValueError
      end
  | None => Returns (notna value)
  end.

(** [{col.replace('detail_', ''): row[col] for col in detail_cols
      if pd.notna(row[col])}], from the dictionary [d] on. *)
Fixpoint details_from (d : dict) (r : list (string * val)) : outcome dict :=
  match r with
  | [] => Returns d
  | (col, value) :: r' =>
      and_then (notna_cell value)
        (λ keep, details_from
                   (if keep then dict_set d (str_replace "detail_" "" col) value else d)
                   r')
  end.

Definition details_dict (r : list (string * val)) : outcome dict :=
  details_from [] r.

(** [json.dumps(details_dict) if details_dict else None].  [json.dumps]
    refuses NumPy integers and booleans, which the values are when the row
    has an integer or a boolean dtype, and datetimes, with [TypeError]; it
    takes NumPy floats, which are Python floats. *)
Definition is_datetime (v : val) : bool :=
  match v with VTime _ => true | _ => false end.

Definition json_serializable (d : dtype) (details : dict) : bool :=
  match d with
  | DInt64 | DUInt64 | DBool => false
  | _ => negb (existsb is_datetime details.*2)
  end.

Definition dump_details (d : dtype) (details : dict) : outcome val :=
  match details with
  | [] => Returns VNone
  | _ =>
      if json_serializable d details
      then Returns (VStr (json_dumps_dict h details))
      else Raises TypeError
  end.

(** [create_details_json] on a row of dtype [d]. *)
Definition create_details_json (d : dtype) (r : list (string * val)) : outcome val :=
  and_then (details_dict r) (dump_details d).

(** [x != {}] *)
Definition is_empty_dict (x : val) : bool :=
  match as_dict h x with Some [] => true | _ => false end.

(** The two functions applied to the cells of a [detail] column, which
    [Series.apply] hands over as Python objects. *)
Definition process_original_detail (detail_val : val) : val :=
  if negb (bool_decide (detail_val = VNone)) && negb (is_empty_dict detail_val) then
    match as_dict h detail_val, detail_val with
    | Some d, _ => VStr (json_dumps_dict h d)
    | None, VStr s => VStr s
    | None, _ => VStr (py_str h detail_val)
    end
  else VNone.

Definition dump_original_detail (x : val) : val :=
  if negb (bool_decide (x = VNone)) && negb (is_empty_dict x)
  then VStr (json_dumps h x) else VNone.

(** [[val for val in row.values if pd.notna(val)]] *)
Fixpoint kept_values (values : list val) : outcome (list val) :=
  match values with
  | [] => Returns []
  | value :: rest =>
      and_then (notna_cell value)
        (λ keep, and_then (kept_values rest)
                   (λ vals, Returns (if keep then value :: vals else vals)))
  end.

(** [str(x) if x else None] *)
Definition external_ids_text (d : dtype) (vals : list val) : val :=
  match vals with
  | [] => VNone
  | _ => VStr (py_str_list h d vals)
  end.

(** [df[cols].apply(f, axis=1)] for an [f] that can raise. *)
Definition apply_rows {A} (df : DataFrame) (cols : list string)
  (f : dtype → list (string * val) → outcome A) : outcome (list A) :=
  for_each (λ i, f (row_dtype df cols) (values_row df cols i)) (seq 0 (index df)).

(** The [DETAILS] column of the interactions. *)
Definition with_interaction_details (df df_transformed : DataFrame)
  : outcome DataFrame :=
  match detail_cols df with
  | [] =>
      match column df "detail" with
      | Some cells =>
          Returns (set_series df_transformed "DETAILS" (process_original_detail <$> cells))
      | None => Returns (set_scalar df_transformed "DETAILS" VNone)
      end
  | cols =>
      and_then (apply_rows df cols create_details_json)
        (λ series, Returns (set_series df_transformed "DETAILS" series))
  end.

(** The [DETAILS] column of the plugin resources: the dictionaries of
    all the rows first, then their JSON texts. *)
Definition with_resource_details (df df_transformed : DataFrame)
  : outcome DataFrame :=
  match detail_cols df with
  | [] =>
      match column df "detail" with
      | Some cells =>
          Returns (set_series df_transformed "DETAILS" (dump_original_detail <$> cells))
      | None => Returns (set_scalar df_transformed "DETAILS" VNone)
      end
  | cols =>
      and_then (apply_rows df cols (λ _, details_dict))
        (λ dicts,
           and_then (for_each (dump_details (row_dtype df cols)) dicts)
             (λ series, Returns (set_series df_transformed "DETAILS" series)))
  end.

(** The [EXTERNAL_IDS] column of the users. *)
Definition with_external_ids (df df_transformed : DataFrame) : outcome DataFrame :=
  match external_id_cols df with
  | [] => Returns df_transformed
  | cols =>
      and_then (apply_rows df cols (λ _ r, kept_values r.*2))
        (λ lists,
           Returns (set_series df_transformed "EXTERNAL_IDS"
                      (external_ids_text (row_dtype df cols) <$> lists)))
  end.

(** [column_mapping], from API field to table column, in the order of the
    dictionary literal. *)
Definition column_mapping (endpoint : string) : option (list (string * string)) :=
  if decide (endpoint = "conversations") then
    Some [("last_updated_time", "LAST_UPDATED_AT"); ("id", "ID");
          ("user_id", "USER_ID"); ("created_time", "CREATED_AT");
          ("route", "ROUTE"); ("primary_domain", "PRIMARY_DOMAIN")]
  else if decide (endpoint = "interactions") then
    Some [("last_updated_time", "LAST_UPDATED_AT");
          ("conversation_id", "CONVERSATION_ID"); ("user_id", "USER_ID");
          ("id", "ID"); ("created_time", "CREATED_AT"); ("platform", "PLATFORM");
          ("type", "TYPE"); ("label", "LABEL");
          ("parent_interaction_id", "PARENT_INTERACTION_ID");
          ("DETAILS", "DETAILS"); ("actor", "ACTOR")]
  else if decide (endpoint = "plugin-calls") then
    Some [("last_updated_time", "LAST_UPDATED_AT");
          ("conversation_id", "CONVERSATION_ID"); ("user_id", "USER_ID");
          ("interaction_id", "INTERACTION_ID"); ("id", "ID");
          ("created_time", "CREATED_AT");
          ("plugin_update_time", "PLUGIN_UPDATE_TIME");
          ("plugin_name", "PLUGIN_NAME"); ("plugin_status", "PLUGIN_STATUS");
          ("served", "SERVED"); ("used", "USED")]
  else if decide (endpoint = "plugin-resources") then
    Some [("id", "ID"); ("conversation_id", "CONVERSATION_ID");
          ("interaction_id", "INTERACTION_ID"); ("plugin_call_id", "PLUGIN_CALL_ID");
          ("user_id", "USER_ID"); ("type", "TYPE"); ("resource_id", "RESOURCE_ID");
          ("DETAILS", "DETAILS"); ("cited", "CITED");
          ("last_updated_time", "LAST_UPDATED_AT"); ("created_time", "CREATED_AT")]
  else if decide (endpoint = "users") then
    Some [("id", "ID"); ("first_name", "FIRST_NAME"); ("last_name", "LAST_NAME");
          ("email_addr", "EMAIL_ADDR");
          ("user_preferred_language", "USER_PREFERRED_LANGUAGE");
          ("access_to_bot", "HAS_ACCESS_TO_BOT"); ("EXTERNAL_IDS", "EXTERNAL_IDS");
          ("last_updated_time", "LAST_UPDATED_AT");
          ("first_interaction_time", "FIRST_INTERACTION_AT");
          ("latest_interaction_time", "LAST_INTERACTION_AT")]
  else None.

(** The entity-specific column computed before the mapping. *)
Definition with_special_columns (endpoint : string) (df df_transformed : DataFrame)
  : outcome DataFrame :=
  if decide (endpoint = "interactions") then with_interaction_details df df_transformed
  else if decide (endpoint = "plugin-resources") then with_resource_details df df_transformed
  else if decide (endpoint = "users") then with_external_ids df df_transformed
  else Returns df_transformed.

(** One turn of [for api_col, schema_col in column_mapping.items()]. *)
Definition map_column (df_transformed result_df : DataFrame) (m : string * string)
  : DataFrame :=
  match column df_transformed m.1 with
  | Some cells => set_series result_df m.2 cells
  | None => set_scalar result_df m.2 VNone
  end.

(** [transform_dataframe_for_schema] on a frame that has rows;
    [current_timestamp] is the clock reading of [datetime.now()]. *)
Definition transform_dataframe_for_schema (current_timestamp : Z)
  (df : DataFrame) (endpoint : string) : outcome DataFrame :=
  let df_transformed := set_scalar df "LOAD_TIMESTAMP" (VTime current_timestamp) in
  and_then (with_special_columns endpoint df df_transformed)
    (λ df_transformed,
       match column_mapping endpoint with
       | Some mapping =>
           let result_df := foldl (map_column df_transformed) empty_frame mapping in
           Returns (set_scalar result_df "LOAD_TIMESTAMP" (VTime current_timestamp))
       | None => Returns df_transformed
       end).

(** The API field (or fields) a table column is computed from is absent
    from the frame. *)
Definition source_absent (df : DataFrame) (api_col : string) : Prop :=
  if decide (api_col = "DETAILS") then
    detail_cols df = [] ∧ "detail" ∉ names df
  else if decide (api_col = "EXTERNAL_IDS") then
    external_id_cols df = [] ∧ "EXTERNAL_IDS" ∉ names df
  else api_col ∉ names df.

(** The cells a source column gives to the result are nulls only (or there
    is no such column). *)
Definition null_source (df_transformed : DataFrame) (api_col : string) : Prop :=
  match column df_transformed api_col with
  | Some cells => Forall is_null cells
  | None => True
  end.

(** What the five mappings have in common. *)
Definition mapping_ok (endpoint : string) (mapping : list (string * string)) : Prop :=
  NoDup mapping.*2 ∧
("LOAD_TIMESTAMP" ∉ mapping.*2) ∧
  Forall (λ m : string * string,
            m.1 ≠ "LOAD_TIMESTAMP" ∧
            (m.1 = "DETAILS" → endpoint = "interactions" ∨ endpoint = "plugin-resources") ∧
            (m.1 = "EXTERNAL_IDS" → endpoint = "users")) mapping.

End transform.

(** Stand-ins for the serialisers; the truth value of an array as NumPy
    before 2.2 gives it for a list of scalars (the empty array is false);
    and two user records: the first has no [email_addr], the second no
    [first_name]; [nickname] is in no mapping. *)
Definition sample_dumps_dict (h : heap) (d : dict) : string :=
  "{" +:+ String.concat "," (dict_keys d) +:+ "}".
Definition sample_dumps (h : heap) (v : val) : string := "json".
Definition sample_str (h : heap) (v : val) : string := "str".
Definition sample_str_list (h : heap) (d : dtype) (vs : list val) : string :=
  "[" +:+ pretty (length vs) +:+ "]".
Definition sample_python_str (h : heap) (v : val) : string :=
  match v with
  | VStr s => s
  | VNum z => pretty z
  | VBool b => if b then "True" else "False"
  | VNone => "None"
  | VNaN => "nan"
  | _ => ""
  end.
Definition sample_array_truth (h : heap) (xs : list val) : option bool :=
  match xs with
  | [] => Some false
  | [x] => Some (notna x)
  | _ => None
  end.

Definition sample_users : list dict :=
  [ [("id", VStr "u1"); ("first_name", VStr "Ada"); ("nickname", VStr "a")];
    [("id", VStr "u2"); ("email_addr", VStr "bob@example.org")] ].

End Mapper.

(** ** The warehouse *)

(** The pipeline reaches the warehouse through the cursor of
    [snowflake.connector] and through [write_pandas]; neither is code of the
    program.  This module is a model of the warehouse, not an embedding of
    source: a session with its tables, and the documented behaviour of the
    four statements the pipeline sends (CREATE OR REPLACE TABLE, DESCRIBE
    TABLE, MERGE, DROP TABLE IF EXISTS) and of a bulk load.  A MERGE updates
    the target rows that a source row matches on the key, inserts the source
    rows that match none, and is refused when two source rows match one
    target row.  The statements themselves, as the program builds them, are
    in the module [Load]. *)

Module Warehouse.
Import Text Schema Frame.

(** A table: its columns, whether it is temporary, its primary key and its
    rows, each a dictionary from column names to values. *)
Record table := Table {
  t_columns : list column_def;
  t_temporary : bool;
  t_primary_key : option string;
  t_rows : list dict;
}.

(** The statements the pipeline sends through a cursor. *)
Inductive statement :=
| CreateOrReplaceTable (ddl : create_table)
| DescribeTable (name : string)
| Merge (target source primary_key : string) (all_columns : list string)
| DropTableIfExists (name : string).

(** A call on the connection, as the history records it. *)
Inductive call :=
| Execute (stmt : statement)
| WritePandas (table_name : string) (overwrite : bool) (nrows : nat).

(** What a cursor holds after [execute]. *)
Inductive cursor_result :=
| NoRows
| Described (column_names : list string)
| Merged (rows_inserted rows_updated : nat).

(** The session: the tables, the warehouse clock ([CURRENT_TIMESTAMP()]) and
    the calls made so far, oldest first. *)
Record connection := Conn {
  tables : gmap string table;
  clock : Z;
  history : list call;
}.

(** Computations on the session that return or raise. *)
Definition M (A : Type) : Type := connection → outcome A * connection.

Definition ret {A} (a : A) : M A := λ c, (Returns a, c).

Definition raise {A} (e : exn) : M A := λ c, (Raises e, c).

(** A call that does not touch the session. *)
Definition pure_call {A} (r : outcome A) : M A := λ c, (r, c).

Definition bind {A B} (m : M A) (k : A → M B) : M B :=
  λ c, match m c with
       | (Returns a, c') => k a c'
       | (Raises e, c') => (Raises e, c')
       end.

(** [try: m  except Exception: handler] *)
Definition try_except {A} (m : M A) (handler : exn → M A) : M A :=
  λ c, match m c with
       | (Returns a, c') => (Returns a, c')
       | (Raises e, c') => handler e c'
       end.

(** [try: m  finally: cleanup], for a [cleanup] that does not raise. *)
Definition try_finally {A} (m : M A) (cleanup : M ()) : M A :=
  λ c, match m c with
       | (r, c') => (r, (cleanup c').2)
       end.

Notation "'let*' x ':=' m 'in' k" := (bind m (λ x, k))
  (at level 10, x pattern, m at level 100, k at level 200).

(** Unquoted identifiers: a letter or an underscore, then letters, digits,
    underscores and dollar signs.  They are folded to upper case. *)
Definition is_letter (c : Ascii.ascii) : bool :=
  let n := Ascii.nat_of_ascii c in
  ((65 <=? n) && (n <=? 90)) || ((97 <=? n) && (n <=? 122)) || (n =? 95).

Definition is_identifier_char (c : Ascii.ascii) : bool :=
  let n := Ascii.nat_of_ascii c in
  is_letter c || ((48 <=? n) && (n <=? 57)) || (n =? 36).

Definition valid_identifier (s : string) : bool :=
  match s with
  | EmptyString => false
  | String c s' => is_letter c && forallb is_identifier_char (String.list_ascii_of_string s')
  end.

Definition resolve (name : string) : string := upper name.

(** The names a statement mentions. *)
Definition statement_names (stmt : statement) : list string :=
  match stmt with
  | CreateOrReplaceTable ddl => [ddl_target ddl]
  | DescribeTable name => [name]
  | Merge target source _ _ => [target; source]
  | DropTableIfExists name => [name]
  end.

Definition is_null_value (v : option val) : bool :=
  match v with
  | None | Some VNone | Some VNaN => true
  | _ => false
  end.

(** SQL equality of two key values: a null equals nothing. *)
Definition key_matches (primary_key : string) (target_row source_row : dict) : bool :=
  negb (is_null_value (dict_get target_row primary_key)) &&
  bool_decide (dict_get target_row primary_key = dict_get source_row primary_key).

(** [UPDATE SET col = source.col] for the columns but the key, and a fresh
    load timestamp. *)
Definition merge_update (primary_key : string) (all_columns : list string) (now : Z)
  (target_row source_row : dict) : dict :=
  dict_set
    (foldl (λ r col, if decide (col = primary_key) then r
                     else dict_set r col (default VNone (dict_get source_row col)))
           target_row all_columns)
    "LOAD_TIMESTAMP" (VTime now).

(** [INSERT (all_columns, LOAD_TIMESTAMP) VALUES (source..., now)] into a
    table with the columns [cols]; a column that is not listed is null. *)
Definition merge_insert (cols : list column_def) (all_columns : list string) (now : Z)
  (source_row : dict) : dict :=
  (λ col,
     (col_name col,
      if decide (col_name col = "LOAD_TIMESTAMP") then VTime now
      else if bool_decide (col_name col ∈ all_columns)
           then default VNone (dict_get source_row (col_name col))
           else VNone)) <$> cols.

(** The MERGE of the pipeline.  [None] when a target row is matched by two
    source rows, which the warehouse refuses as nondeterministic. *)
Definition merge_rows (cols : list column_def) (primary_key : string)
  (all_columns : list string) (now : Z) (target source : list dict)
  : option (list dict * nat * nat) :=
  let matching tr := filter (λ sr, key_matches primary_key tr sr = true) source in
  if bool_decide (Forall (λ tr, length (matching tr) ≤ 1) target) then
    let updated :=
      (λ tr, match matching tr with
             | sr :: _ => merge_update primary_key all_columns now tr sr
             | [] => tr
             end) <$> target in
    let unmatched :=
      filter (λ sr, Forall (λ tr, key_matches primary_key tr sr = false) target) source in
    Some ((updated ++ (merge_insert cols all_columns now <$> unmatched))%list,
          length unmatched,
          length (filter (λ tr, matching tr ≠ []) target))
  else None.

(** The rows a bulk load of [df] writes into a table with the columns
    [cols]: a column the frame does not have takes its default.  [None]
    when the frame has a column the table has not, or a null where the
    table wants none. *)
Definition loaded_row (cols : list column_def) (now : Z) (r : dict) : dict :=
  (λ col,
     (col_name col,
      match dict_get r (col_name col) with
      | Some VNaN | Some VNone | None =>
          if col_default_now col then VTime now else VNone
      | Some v => v
      end)) <$> cols.

Definition row_accepted (cols : list column_def) (r : dict) : bool :=
  forallb (λ col, negb (col_not_null col && negb (col_default_now col) &&
                        is_null_value (dict_get r (col_name col)))) cols.

Definition loaded_rows (cols : list column_def) (now : Z) (df : DataFrame)
  : option (list dict) :=
  if bool_decide (names df ⊆ col_name <$> cols) && forallb (row_accepted cols) (rows df)
  then Some (loaded_row cols now <$> rows df)
  else None.

Section session.

(** The calls that fail of the warehouse's or the network's accord, and the
    bulk loads that report [success = False], by their position in the
    history. *)
Variable fails : nat → bool.
Variable unsuccessful : nat → bool.

Definition record_call (k : call) (c : connection) : connection :=
  Conn (tables c) (clock c + 1) (history c ++ [k])%list.

(** [cursor.execute(stmt)] *)
Definition execute (stmt : statement) : M cursor_result :=
  λ c0,
    let c := record_call (Execute stmt) c0 in
    if fails (length (history c0)) then (Raises OperationalError, c)
    else if negb (forallb valid_identifier (statement_names stmt))
    then (Raises ProgrammingError, c)
    else
      match stmt with
      | CreateOrReplaceTable ddl =>
          (Returns NoRows,
           Conn (<[resolve (ddl_target ddl) :=
                     Table (ddl_columns ddl) (ddl_temporary ddl) (ddl_primary_key ddl) []]>
                   (tables c))
                (clock c) (history c))
      | DescribeTable name =>
          match tables c !! resolve name with
          | Some t => (Returns (Described (col_name <$> t_columns t)), c)
          | None => (Raises ProgrammingError, c)
          end
      | Merge target source primary_key all_columns =>
          match tables c !! resolve target, tables c !! resolve source with
          | Some t, Some s =>
              match merge_rows (t_columns t) primary_key all_columns (clock c)
                               (t_rows t) (t_rows s) with
              | Some (rows', inserted, updated) =>
                  (Returns (Merged inserted updated),
                   Conn (<[resolve target :=
                             Table (t_columns t) (t_temporary t) (t_primary_key t) rows']>
                           (tables c))
                        (clock c) (history c))
              | None => (Raises ProgrammingError, c)
              end
          | _, _ => (Raises ProgrammingError, c)
          end
      | DropTableIfExists name =>
          (Returns NoRows, Conn (delete (resolve name) (tables c)) (clock c) (history c))
      end.

(** [write_pandas(conn, df, table_name, auto_create_table=False,
    overwrite=..., quote_identifiers=False)]: the pair [(success, nrows)]. *)
Definition write_pandas (df : DataFrame) (table_name : string) (overwrite : bool)
  : M (bool * nat) :=
  λ c0,
    let c := record_call (WritePandas table_name overwrite (index df)) c0 in
    if fails (length (history c0)) then (Raises OperationalError, c)
    else if unsuccessful (length (history c0)) then (Returns (false, 0), c)
    else if negb (valid_identifier table_name) then (Raises ProgrammingError, c)
    else
      match tables c !! resolve table_name with
      | Some t =>
          match loaded_rows (t_columns t) (clock c) df with
          | Some new_rows =>
              (Returns (true, index df),
               Conn (<[resolve table_name :=
                         Table (t_columns t) (t_temporary t) (t_primary_key t)
                               ((if overwrite then [] else t_rows t) ++ new_rows)%list]>
                       (tables c))
                    (clock c) (history c))
          | None => (Raises ProgrammingError, c)
          end
      | None => (Raises ProgrammingError, c)
      end.

End session.
End Warehouse.

(** ** Load engine *)

Module Load.
Import Text Schema Frame Mapper Warehouse.

(** [schema_sql.format(table_name=table_name)] *)
Definition format_table_name (schema_sql : create_table) (table_name : string)
  : create_table :=
  CreateTable (str_replace "{table_name}" table_name (ddl_target schema_sql))
              (ddl_temporary schema_sql) (ddl_columns schema_sql)
              (ddl_primary_key schema_sql).

(** [schema_sql.replace('PRIMARY KEY (ID)', '')] *)
Definition without_primary_key (schema_sql : create_table) : create_table :=
  CreateTable (ddl_target schema_sql) (ddl_temporary schema_sql) (ddl_columns schema_sql)
              (if decide (ddl_primary_key schema_sql = Some "ID") then None
               else ddl_primary_key schema_sql).

(** [schema_sql.replace(old, new)], on every name in the statement. *)
Definition replace_names (old new : string) (schema_sql : create_table) : create_table :=
  CreateTable (str_replace old new (ddl_target schema_sql))
              (ddl_temporary schema_sql)
              ((λ col, Column (str_replace old new (col_name col)) (col_type col)
                              (col_not_null col) (col_default_now col))
                 <$> ddl_columns schema_sql)
              (str_replace old new <$> ddl_primary_key schema_sql).

(** [.replace('CREATE OR REPLACE TABLE', 'CREATE OR REPLACE TEMPORARY TABLE')] *)
Definition as_temporary (schema_sql : create_table) : create_table :=
  CreateTable (ddl_target schema_sql) true (ddl_columns schema_sql)
              (ddl_primary_key schema_sql).

(** [f"TEMP_{table_name}_{int(time.time())}"] *)
Definition temp_name (table_name : string) (time : Z) : string :=
  "TEMP_" +:+ table_name +:+ "_" +:+ pretty time.

Section load.

Variable json_dumps_dict : heap → dict → string.
Variable json_dumps : heap → val → string.
Variable py_str : heap → val → string.
Variable py_str_list : heap → dtype → list val → string.
Variable array_truth : heap → list val → option bool.
Variable h : heap.

Variable fails : nat → bool.
Variable unsuccessful : nat → bool.

Abbreviation execute := (Warehouse.execute fails).
Abbreviation write_pandas := (Warehouse.write_pandas fails unsuccessful).

Definition create_table_if_not_exists (table_name : string) : M () :=
  match get_table_schema table_name with
  | None => raise ValueError
  | Some schema_sql =>
      let create_table_sql := format_table_name schema_sql table_name in
      let* _ := execute (CreateOrReplaceTable create_table_sql) in
      ret ()
  end.

(** The template is not formatted here, and the second [replace] looks for
    the value of [table_name] in it. *)
Definition create_temp_table (temp_table_name table_name : string) : M () :=
  match get_table_schema table_name with
  | None => raise ValueError
  | Some schema_sql =>
      let temp_schema_sql :=
        replace_names table_name temp_table_name (without_primary_key schema_sql) in
      let temp_schema_sql := as_temporary temp_schema_sql in
      let* _ := execute (CreateOrReplaceTable temp_schema_sql) in
      ret ()
  end.

(** The tuple [(True, total_rows, rows_inserted, rows_updated)]. *)
Definition perform_upsert (table_name temp_table_name endpoint : string)
  : M (bool * nat * nat * nat) :=
  let primary_key := get_primary_key_column endpoint in
  let* columns_result := execute (DescribeTable temp_table_name) in
  let all_columns :=
    match columns_result with
    | Described column_names => filter (λ col, col ≠ "LOAD_TIMESTAMP") column_names
    | _ => []
    end in
  let* merge_result :=
    execute (Merge table_name temp_table_name primary_key all_columns) in
  match merge_result with
  | Merged rows_inserted rows_updated =>
      ret (true, rows_inserted + rows_updated, rows_inserted, rows_updated)
  | _ => ret (true, 0, 0, 0)
  end.

(** [df.drop(columns=[col])], which raises when there is no such column. *)
Definition drop_columns (df : DataFrame) (col : string) : M DataFrame :=
  if has_column df col then ret (drop_column df col) else raise KeyError.

(** The [try] block of [upsert_data_to_snowflake]. *)
Definition upsert_body (temp_table_name table_name : string)
  (df_transformed : DataFrame) (endpoint : string) : M (bool * nat) :=
  let* _ := create_temp_table temp_table_name table_name in
  let* df_for_load := drop_columns df_transformed "LOAD_TIMESTAMP" in
  let* w := write_pandas df_for_load temp_table_name true in
  if negb w.1 then ret (false, 0)
  else
    let* m := perform_upsert table_name temp_table_name endpoint in
    let '(merge_success, total_rows, rows_inserted, rows_updated) := m in
    if merge_success then ret (true, total_rows) else ret (false, 0).

(** The [finally] block: the drop, whose failure is logged and swallowed. *)
Definition drop_staging (temp_table_name : string) : M () :=
  try_except
    (let* _ := execute (DropTableIfExists temp_table_name) in ret ())
    (λ _, ret ()).

(** The [try ... except ... finally] around a body that works on the
    staging table. *)
Definition staging_scope (temp_table_name : string) (body : M (bool * nat))
  : M (bool * nat) :=
  try_finally (try_except body (λ _, ret (false, 0))) (drop_staging temp_table_name).

(** [time] is the reading of [time.time()]. *)
Definition upsert_data_to_snowflake (time : Z) (table_name : string)
  (df_transformed : DataFrame) (endpoint : string) : M (bool * nat) :=
  let temp_table_name := temp_name table_name time in
  staging_scope temp_table_name
    (upsert_body temp_table_name table_name df_transformed endpoint).

(** [use_upsert] is [self.config['pipeline'].get('use_upsert', True)];
    [time] is the reading of the local clock, used for [datetime.now()]
    and [time.time()]. *)
Definition load_data_to_snowflake (use_upsert : bool) (time : Z)
  (table_name : string) (df : DataFrame) (endpoint : string)
  (is_initial_load : bool) : M (bool * nat) :=
  if is_empty df then ret (false, 0)
  else
    let* df_transformed :=
      pure_call (transform_dataframe_for_schema json_dumps_dict json_dumps py_str
                   py_str_list array_truth h time df endpoint) in
    let* _ := create_table_if_not_exists table_name in
    if is_initial_load then
      let* df_for_load := drop_columns df_transformed "LOAD_TIMESTAMP" in
      let* w := write_pandas df_for_load (upper table_name) true in
      ret w
    else if use_upsert then
      upsert_data_to_snowflake time table_name df_transformed endpoint
    else
      let* df_for_load := drop_columns df_transformed "LOAD_TIMESTAMP" in
      let* w := write_pandas df_for_load (upper table_name) false in
      ret w.

End load.

(** A session in which nothing fails of the warehouse's accord. *)
Definition never (n : nat) : bool := false.

Definition empty_session : connection := Conn ∅ 1000 [].

(** The two-row batch of the specification, keys [u1] and [u2], and a
    second batch with the keys [u2] and [u3]. *)
Definition batch_u1_u2 : DataFrame :=
  of_records [ [("id", VStr "u1"); ("first_name", VStr "Ada")];
               [("id", VStr "u2"); ("first_name", VStr "Bob")] ].

Definition batch_u2_u3 : DataFrame :=
  of_records [ [("id", VStr "u2"); ("first_name", VStr "Bob")];
               [("id", VStr "u3"); ("first_name", VStr "Cy")] ].

Definition sample_load (use_upsert : bool) (time : Z) (df : DataFrame)
  (is_initial_load : bool) : M (bool * nat) :=
  load_data_to_snowflake sample_dumps_dict sample_dumps sample_str sample_str_list sample_array_truth ∅
    never never use_upsert time "MOVEWORKS_USERS" df "users" is_initial_load.

(** The session after the initial load of the first batch. *)
Definition loaded_session : connection :=
  (sample_load true 1700000000 batch_u1_u2 true empty_session).2.

(** The keys in a table of the session. *)
Definition keys_of (c : connection) (table_name : string) : option (list (option val)) :=
  (λ t, (λ r, dict_get r "ID") <$> t_rows t) <$> tables c !! table_name.

End Load.

(** ** Sync orchestrator *)

Module Sync.
Import Text Schema Fetch Frame Mapper Warehouse Load.

(** The [pipeline] section of the configuration. *)
Record pipeline_config := PipelineConfig {
  initial_load_completed : bool;
  create_views : bool;
  use_upsert : bool;
}.

(** An entry of [load_summary]. *)
Record summary := Summary {
  table_name : string;
  rows_loaded : nat;
  success : bool;
  sync_mode : string;
}.

(** What a run works on: the object heap, the number of requests sent to
    the source so far, and the warehouse session. *)
Record world := World {
  w_heap : heap;
  w_sent : nat;
  w_conn : connection;
}.

(** [re.sub(r'[\x00-\x08\x0B\x0C\x0E-\x1F]', '', value)] *)
Definition is_illegal_char (c : Ascii.ascii) : bool :=
  let n := Ascii.nat_of_ascii c in
  (n <=? 8) || (n =? 11) || (n =? 12) || ((14 <=? n) && (n <=? 31)).

Fixpoint strip_illegal (s : string) : string :=
  match s with
  | EmptyString => EmptyString
  | String c s' =>
      if is_illegal_char c then strip_illegal s' else String c (strip_illegal s')
  end.

Definition remove_illegal_chars (value : val) : val :=
  match value with
  | VStr s => VStr (strip_illegal s)
  | _ => value
  end.

(** [df.applymap(remove_illegal_chars)] *)
Definition clean_illegal_chars (df : DataFrame) : DataFrame :=
  Frame (index df)
        ((λ kv : string * list val, (kv.1, remove_illegal_chars <$> kv.2)) <$> columns df).

(** The dictionary at a location of the heap. *)
Definition dict_at (h : heap) (l : loc) : dict :=
  match h !! l with
  | Some (ODict d) => d
  | _ => []
  end.

Section sync.

Variable json_dumps_dict : heap → dict → string.
Variable json_dumps : heap → val → string.
Variable py_str : heap → val → string.
Variable py_str_list : heap → dtype → list val → string.
Variable array_truth : heap → list val → option bool.

(** The source: its answer to the [n]-th request; the records of a page
    are dictionaries of the heap. *)
Variable source : nat → reply loc.

(** The warehouse: which calls fail, which bulk loads are unsuccessful. *)
Variable fails : nat → bool.
Variable unsuccessful : nat → bool.

(** The local clock when the load of an endpoint starts. *)
Variable time : string → Z.

(** The creation of the analytics views, whose result and exceptions the
    run only logs. *)
Variable create_analytics_views : M ().

(** [fetch_data]: the loop, then the frame of the records collected.
    [None] when the loop is still running after [fuel] iterations. *)
Definition fetch_data (fuel : nat) (endpoint : string) (w : world)
  : option (world * DataFrame) :=
  match fetch_loop (Flatten.flatten_record py_str) source endpoint fuel
          (initial endpoint (w_heap w) (w_sent w)) with
  | Some s =>
      let df :=
        match data s with
        | [] => empty_frame
        | data => clean_illegal_chars (of_records (dict_at (store s) <$> data))
        end in
      Some (World (store s) (requests s) (w_conn w), df)
  | None => None
  end.

Definition mode_name (config : pipeline_config) : string :=
  if use_upsert config then "UPSERT" else "APPEND".

(** The body of [for endpoint in ENDPOINTS], with its [try ... except]:
    the world afterwards and the entry written into [load_summary]. *)
Definition sync_endpoint (config : pipeline_config) (fuel : nat) (endpoint : string)
  (w : world) : option (world * summary) :=
  match fetch_data fuel endpoint w with
  | Some (w1, df) =>
      let table_name := table_name_of endpoint in
      if negb (is_empty df) then
        match load_data_to_snowflake json_dumps_dict json_dumps py_str py_str_list array_truth
                (w_heap w1) fails unsuccessful (use_upsert config) (time endpoint)
                table_name df endpoint false (w_conn w1) with
        | (Returns (success, nrows), c) =>
            Some (World (w_heap w1) (w_sent w1) c,
                  Summary table_name (if success then nrows else 0) success
                          (mode_name config))
        | (Raises _, c) =>
            Some (World (w_heap w1) (w_sent w1) c,
                  Summary table_name 0 false (mode_name config))
        end
      else Some (w1, Summary table_name 0 true (mode_name config))
  | None => None
  end.

(** The local variables of the loop. *)
Record progress := Progress {
  load_summary : list (string * summary);
  total_rows : nat;
  successful_loads : nat;
}.

Definition record_entry (endpoint : string) (entry : summary) (p : progress) : progress :=
  Progress (alist_set (load_summary p) endpoint entry)
           (if success entry then total_rows p + rows_loaded entry else total_rows p)
           (if success entry then S (successful_loads p) else successful_loads p).

Fixpoint sync_endpoints (config : pipeline_config) (fuel : nat)
  (endpoints : list string) (w : world) (p : progress) : option (world * progress) :=
  match endpoints with
  | [] => Some (w, p)
  | endpoint :: rest =>
      match sync_endpoint config fuel endpoint w with
      | Some (w', entry) =>
          sync_endpoints config fuel rest w' (record_entry endpoint entry p)
      | None => None
      end
  end.

(** [run_daily_sync]: the value returned and the summary logged.
    [connect_to_snowflake] gives the session, or [None] when it raises.
    The outer [except] answers [False]; [conn.close()] swallows its own
    errors. *)
Definition run_daily_sync (config : option pipeline_config)
  (connect_to_snowflake : option connection) (fuel : nat) (h : heap)
  : option (bool * list (string * summary)) :=
  match config with
  | None => Some (false, [])
  | Some config =>
      if negb (initial_load_completed config) then Some (false, [])
      else
        match connect_to_snowflake with
        | None => Some (false, [])
        | Some conn =>
            match sync_endpoints config fuel ENDPOINTS (World h 0 conn)
                    (Progress [] 0 0) with
            | Some (w, p) =>
                let conn :=
                  if create_views config
                  then (create_analytics_views (w_conn w)).2
                  else w_conn w in
                Some (bool_decide (successful_loads p = length ENDPOINTS),
                      load_summary p)
            | None => None
            end
        end
  end.

(** Every endpoint has an entry that says it succeeded. *)
Definition all_succeeded (load_summary : list (string * summary)) : Prop :=
  ∀ endpoint, endpoint ∈ ENDPOINTS →
    ∃ entry, alist_get load_summary endpoint = Some entry ∧ success entry = true.

Definition succeeded (kv : string * summary) : Prop := success kv.2 = true.

(** [successful_loads] counts the entries that say success. *)
Definition counted (p : progress) : Prop :=
  successful_loads p = length (filter succeeded (load_summary p)).

End sync.

(** Two sources.  The first has nothing for any endpoint.  The second has
    nothing for the first four endpoints and one user record, the dictionary
    at location 1 of [users_heap], for the fifth. *)
Definition no_data (n : nat) : reply loc := Response 200 (Some (JsonBody [] None)).

Definition one_user (n : nat) : reply loc :=
  match n with
  | 4 => Response 200 (Some (JsonBody [1%positive] None))
  | _ => Response 200 (Some (JsonBody [] None))
  end.

Definition users_heap : heap :=
  {[ 1%positive := ODict [("id", VStr "u1"); ("first_name", VStr "Ada")] ]}.

Definition sample_config : pipeline_config := PipelineConfig true false true.

Definition sample_run (source : nat → reply loc) : option (bool * list (string * summary)) :=
  run_daily_sync sample_dumps_dict sample_dumps sample_str sample_str_list sample_array_truth source
    never never (λ _, 1700086400%Z) (ret ()) (Some sample_config)
    (Some loaded_session) 4 users_heap.

End Sync.

(** ** More of the source client *)

Module FetchMore.
Import Fetch.

Section more.

Context {St Rec Flat : Type}.
Variable flatten_record : St → Rec → option (St * Flat).
Variable endpoint : string.

(** The answers on which the loop breaks at once, whatever its state: an
    exception, a 200 whose body does not decode or has no record, and every
    status that is neither 200, nor 429, nor one of the four transient ones. *)
Definition aborts (r : reply Rec) : bool :=
  match r with
  | RequestException => true
  | Response status_code body =>
      if bool_decide (status_code = 200%Z) then
        match body with
        | None => true
        | Some json_resp => match value json_resp with [] => true | _ => false end
        end
      else if bool_decide (status_code = 429%Z) then false
      else negb (is_transient status_code)
  end.

(** The request counter moved on, nothing else. *)
Definition after_request (s : fetch_state St Flat) : fetch_state St Flat :=
  FetchState (url s) (data s) (retries s) (page_count s) (slept s)
             (S (requests s)) (store s).

(** The pause after a page that was processed. *)
Definition page_pause : nat := if bool_decide (endpoint = "users") then 2 else 0.

(** The records of several pages flattened one page after the other; the
    flag is [false] when a record made [flatten_record] raise. *)
Fixpoint flatten_pages (st : St) (acc : list Flat) (pages : list (list Rec))
  : St * list Flat * bool :=
  match pages with
  | [] => (st, acc, true)
  | page :: rest =>
      let '(st', acc', ok) := flatten_page flatten_record st acc page in
      if ok then flatten_pages st' acc' rest else (st', acc', false)
  end.

End more.
End FetchMore.

(** ** More of the record flattener *)

Module FlattenMore.

(** The [detail] entry of the record does not refer to an object the heap
    does not have. *)
Definition detail_closed (h : heap) (d : dict) : Prop :=
  ∀ l, dict_get d "detail" = Some (VRef l) → l ∈ dom h.

(** The record has no nested field: its [detail] is not a dictionary and
    its [external_ids] is not a list. *)
Definition no_nested_field (h : heap) (d : dict) : Prop :=
  dict_get d "detail" ≫= as_dict h = None ∧
  dict_get d "external_ids" ≫= as_list h = None.

End FlattenMore.

(** ** More of the load engine *)

Module LoadMore.
Import Text Schema Frame Warehouse.

(** The calls that write rows: a bulk load or a MERGE. *)
Definition writes_rows (k : call) : bool :=
  match k with
  | WritePandas _ _ _ => true
  | Execute (Merge _ _ _ _) => true
  | _ => false
  end.

(** The row has a key. *)
Definition has_id (r : dict) : bool := negb (is_null_value (dict_get r "ID")).

(** The key of a row, and the columns a MERGE of the pipeline lists for a
    staging table: all but [LOAD_TIMESTAMP]. *)
Definition row_key (r : dict) : option val := dict_get r "ID".

Definition merge_columns (staging : table) : list string :=
  filter (λ col, col ≠ "LOAD_TIMESTAMP") (col_name <$> t_columns staging).

(** The session after the initial load of the users [u1] and [u2], with
    a staging table that holds [u2], renamed, and [u3]. *)
Definition users_columns : list column_def :=
  match get_table_schema "MOVEWORKS_USERS" with
  | Some ddl => ddl_columns ddl
  | None => []
  end.

Definition staged_session : connection :=
  Conn (<["TEMP_USERS" :=
            Table users_columns true None
              [loaded_row users_columns 0 [("ID", VStr "u2"); ("FIRST_NAME", VStr "Rob")];
               loaded_row users_columns 0 [("ID", VStr "u3"); ("FIRST_NAME", VStr "Cy")]]]>
          (tables Load.loaded_session))
       (clock Load.loaded_session) (history Load.loaded_session).

Definition table_at (c : connection) (name : string) : table :=
  default (Table [] false None []) (tables c !! name).

End LoadMore.

(** ** More of the schema mapper *)

Module MapperMore.
Import Frame Mapper Sync.

(** The two sample users as the mapper hands them to the load. *)
Definition mapped_users : DataFrame :=
  match transform_dataframe_for_schema sample_dumps_dict sample_dumps sample_str
          sample_str_list sample_array_truth ∅ 42
          (clean_illegal_chars (of_records sample_users)) "users" with
  | Returns result => result
  | Raises _ => empty_frame
  end.

(** Every column of the frame has one cell a row. *)
Definition well_formed (df : DataFrame) : Prop :=
  Forall (λ kv : string * list val, length kv.2 = index df) (columns df).

End MapperMore.


(** ** More of the sync orchestrator *)

Module SyncMore.
Import Fetch Mapper Warehouse Load Sync.

(** A cell that, if it is a string, has none of the characters that
    [clean_illegal_chars] takes out. *)
Definition legal (v : val) : Prop :=
  ∀ s, v = VStr s →
       Forall (λ c, is_illegal_char c = false) (String.list_ascii_of_string s).

(** The sample run with [use_upsert] off. *)
Definition sample_append_run (source : nat → reply loc)
  : option (bool * list (string * summary)) :=
  run_daily_sync sample_dumps_dict sample_dumps sample_str sample_str_list
    sample_array_truth source never never (λ _, 1700086400%Z) (ret ())
    (Some (PipelineConfig true false false)) (Some loaded_session) 4 users_heap.

End SyncMore.


(** ** Initial load *)

Module Initial.
Import Text Schema Fetch Frame Mapper Warehouse Load Sync.

Definition lower_char (c : Ascii.ascii) : Ascii.ascii :=
  let n := Ascii.nat_of_ascii c in
  if (65 <=? n) && (n <=? 90) then Ascii.ascii_of_nat (n + 32) else c.

(** [s.lower()] on ASCII text. *)
Fixpoint lower (s : string) : string :=
  match s with
  | EmptyString => EmptyString
  | String c s' => String (lower_char c) (lower s')
  end.

(** [confirm.lower() in ['y', 'yes']] *)
Definition confirmed (confirm : string) : bool :=
  bool_decide (lower confirm ∈ ["y"; "yes"]).

(** An entry of the [load_summary] of the initial load, which has no
    [sync_mode]. *)
Record entry := Entry {
  table_name : string;
  rows_loaded : nat;
  success : bool;
}.

(** The local variables of the loop. *)
Record progress := Progress {
  load_summary : list (string * entry);
  total_rows : nat;
  successful_loads : nat;
}.

(** What a call of [run_initial_load] leaves: the value returned, the
    summary, the configuration in memory, what [save_config] has written
    ([None] when it was not called or raised), and the world when a session
    was opened. *)
Record run := Run {
  returned : bool;
  summary : list (string * entry);
  config_in_memory : option pipeline_config;
  config_written : option pipeline_config;
  world_after : option world;
}.

(** [self.config['pipeline']['initial_load_completed'] = True]; the date
    written beside it is not kept in [pipeline_config]. *)
Definition mark_completed (config : pipeline_config) : pipeline_config :=
  PipelineConfig true (create_views config) (use_upsert config).

Section initial.

Variable json_dumps_dict : heap → dict → string.
Variable json_dumps : heap → val → string.
Variable py_str : heap → val → string.
Variable py_str_list : heap → dtype → list val → string.
Variable array_truth : heap → list val → option bool.
Variable source : nat → reply loc.
Variable fails : nat → bool.
Variable unsuccessful : nat → bool.
Variable time : string → Z.
Variable create_analytics_views : M ().

(** The body of [for endpoint in ENDPOINTS] of the initial load. *)
Definition load_endpoint (config : pipeline_config) (fuel : nat) (endpoint : string)
  (w : world) : option (world * entry) :=
  match fetch_data py_str source fuel endpoint w with
  | Some (w1, df) =>
      let table_name := table_name_of endpoint in
      if negb (is_empty df) then
        match load_data_to_snowflake json_dumps_dict json_dumps py_str py_str_list array_truth
                (w_heap w1) fails unsuccessful (use_upsert config) (time endpoint)
                table_name df endpoint true (w_conn w1) with
        | (Returns (success, nrows), c) =>
            Some (World (w_heap w1) (w_sent w1) c,
                  Entry table_name (if success then nrows else 0) success)
        | (Raises _, c) =>
            Some (World (w_heap w1) (w_sent w1) c, Entry table_name 0 false)
        end
      else Some (w1, Entry table_name 0 true)
  | None => None
  end.

Definition record_entry (endpoint : string) (e : entry) (p : progress) : progress :=
  Progress (alist_set (load_summary p) endpoint e)
           (if success e then total_rows p + rows_loaded e else total_rows p)
           (if success e then S (successful_loads p) else successful_loads p).

Fixpoint load_endpoints (config : pipeline_config) (fuel : nat)
  (endpoints : list string) (w : world) (p : progress) : option (world * progress) :=
  match endpoints with
  | [] => Some (w, p)
  | endpoint :: rest =>
      match load_endpoint config fuel endpoint w with
      | Some (w', e) => load_endpoints config fuel rest w' (record_entry endpoint e p)
      | None => None
      end
  end.

(** [run_initial_load].  [confirm] is the answer typed when the initial
    load was completed before, [None] when [input] raises; [dates_given]
    says that [get_user_date_inputs_for_initial_load] returns;
    [connect_to_snowflake] gives the session, or [None] when it raises;
    [save_succeeds] says that [save_config] does not raise.  The result is
    [None] when a fetch is still running after [fuel] iterations. *)
Definition run_initial_load (config : option pipeline_config)
  (confirm : option string) (dates_given : bool)
  (connect_to_snowflake : option connection) (save_succeeds : bool)
  (fuel : nat) (h : heap) : option run :=
  match config with
  | None => Some (Run false [] None None None)
  | Some config =>
      let refused := Some (Run false [] (Some config) None None) in
      if initial_load_completed config
         && negb (match confirm with Some answer => confirmed answer | None => false end)
      then refused
      else if negb dates_given then refused
      else
        match connect_to_snowflake with
        | None => refused
        | Some conn =>
            match load_endpoints config fuel ENDPOINTS (World h 0 conn)
                    (Progress [] 0 0) with
            | Some (w, p) =>
                let conn :=
                  if create_views config
                  then (create_analytics_views (w_conn w)).2
                  else w_conn w in
                let w := World (w_heap w) (w_sent w) conn in
                if bool_decide (successful_loads p = length ENDPOINTS) then
                  if save_succeeds then
                    Some (Run true (load_summary p) (Some (mark_completed config))
                              (Some (mark_completed config)) (Some w))
                  else
                    Some (Run false (load_summary p) (Some (mark_completed config))
                              None (Some w))
                else
                  Some (Run false (load_summary p) (Some config) None (Some w))
            | None => None
            end
        end
  end.

End initial.

(** A source that has one user record, the dictionary at location 1 of
    [users_heap], and nothing for the other endpoints, in the initial load,
    which has sent four requests when it comes to the users. *)
Definition sample_initial (config : pipeline_config) (confirm : option string)
  : option run :=
  run_initial_load sample_dumps_dict sample_dumps sample_str sample_str_list sample_array_truth one_user
    never never (λ _, 1700000000%Z) (ret ()) (Some config) confirm true
    (Some empty_session) true 4 users_heap.

End Initial.


(** * Properties *)

(** ** Dictionaries and the heap *)

Module PyFacts.

Lemma dict_get_set d k v k' :
  dict_get (dict_set d k v) k' = if decide (k = k') then Some v else dict_get d k'.
Proof.
  induction d as [|[k0 v0] d IH]; simpl.
  - repeat case_decide; congruence.
  - destruct (decide (k0 = k)) as [->|Hne]; simpl.
    + repeat case_decide; congruence.
    + rewrite IH. repeat case_decide; congruence.
Qed.

Lemma dict_get_set_eq d k v : dict_get (dict_set d k v) k = Some v.
Proof. rewrite dict_get_set. by case_decide. Qed.

Lemma dict_get_set_ne d k v k' :
  k ≠ k' → dict_get (dict_set d k v) k' = dict_get d k'.
Proof. intros. rewrite dict_get_set. by case_decide. Qed.

Lemma dict_get_pop d k k' :
  dict_get (dict_pop d k) k' = if decide (k = k') then None else dict_get d k'.
Proof.
  unfold dict_pop. induction d as [|[k0 v0] d IH].
  - simpl. by case_decide.
  - rewrite filter_cons. cbn [fst].
    destruct (decide (k0 ≠ k)) as [Hne|Heq]; cbn [dict_get].
    + rewrite IH. repeat case_decide; congruence.
    + apply dec_stable in Heq. subst k0. rewrite IH.
      repeat case_decide; congruence.
Qed.

Lemma dict_get_pop_eq d k : dict_get (dict_pop d k) k = None.
Proof. rewrite dict_get_pop. by case_decide. Qed.

Lemma dict_get_pop_ne d k k' :
  k ≠ k' → dict_get (dict_pop d k) k' = dict_get d k'.
Proof. intros. rewrite dict_get_pop. by case_decide. Qed.

Lemma setitem_lookup h f d k v :
  h !! f = Some (ODict d) →
  setitem h f k v !! f = Some (ODict (dict_set d k v)).
Proof. intros Hf. unfold setitem. rewrite Hf. apply lookup_insert_eq. Qed.

Lemma setitem_lookup_ne h f k v l :
  l ≠ f → setitem h f k v !! l = h !! l.
Proof.
  intros Hne. unfold setitem.
  destruct (h !! f) as [[d|xs]|]; try done. by rewrite lookup_insert_ne.
Qed.

Lemma popitem_lookup h f d k :
  h !! f = Some (ODict d) →
  popitem h f k !! f = Some (ODict (dict_pop d k)).
Proof. intros Hf. unfold popitem. rewrite Hf. apply lookup_insert_eq. Qed.

Lemma popitem_lookup_ne h f k l :
  l ≠ f → popitem h f k !! l = h !! l.
Proof.
  intros Hne. unfold popitem.
  destruct (h !! f) as [[d|xs]|]; try done. by rewrite lookup_insert_ne.
Qed.

(** A heap that differs from [h] only by a dictionary at a location
    [h] does not have sees the same lists and dictionaries as [h]. *)
Lemma as_list_preserved h h' v xs :
  heap_preserved h h' → as_list h v = Some xs → as_list h' v = Some xs.
Proof.
  intros Hp. destruct v; simpl; try done.
  destruct (h !! l) as [o|] eqn:Hl; [|done].
  rewrite (Hp l), Hl; [done|]. apply elem_of_dom. by rewrite Hl.
Qed.

Lemma as_dict_preserved h h' v d :
  heap_preserved h h' → as_dict h v = Some d → as_dict h' v = Some d.
Proof.
  intros Hp. destruct v; simpl; try done.
  destruct (h !! l) as [o|] eqn:Hl; [|done].
  rewrite (Hp l), Hl; [done|]. apply elem_of_dom. by rewrite Hl.
Qed.

Lemma heap_preserved_refl h : heap_preserved h h.
Proof. by intros l _. Qed.

Lemma heap_preserved_trans h1 h2 h3 :
  heap_preserved h1 h2 → heap_preserved h2 h3 → heap_preserved h1 h3.
Proof.
  intros H12 H23 l Hl. rewrite H23, H12; [done..|].
  apply elem_of_dom. rewrite H12 by done. by apply elem_of_dom.
Qed.

End PyFacts.

(** ** Record flattener *)

Module FlattenFacts.
Import PyFacts Flatten.

Section facts.

Variable py_str : heap → val → string.

Lemma writes_only_preserved f h0 h :
  f ∉ dom h0 → writes_only f h0 h → heap_preserved h0 h.
Proof.
  intros Hf [Hne _] l Hl. apply Hne. intros ->. done.
Qed.

(** A loop of item assignments into [f] leaves the rest of the heap and
    the keys it does not assign alone. *)
Lemma foldl_setitem {X} (key : X → string) (value : heap → X → val) f xs :
  ∀ h d,
    h !! f = Some (ODict d) →
    let h' := foldl (λ h x, setitem h f (key x) (value h x)) h xs in
    (∀ l, l ≠ f → h' !! l = h !! l) ∧
    ∃ d', h' !! f = Some (ODict d') ∧
          ∀ k, (∀ x, x ∈ xs → key x ≠ k) → dict_get d' k = dict_get d k.
Proof.
  induction xs as [|x xs IH]; intros h d Hf; simpl.
  - split; [done|]. by exists d.
  - destruct (IH (setitem h f (key x) (value h x)) _
                (setitem_lookup _ _ _ (key x) (value h x) Hf))
      as [Hne (d' & Hd' & Hk)].
    split.
    + intros l Hl. rewrite Hne by done. by apply setitem_lookup_ne.
    + exists d'. split; [done|]. intros k Hx.
      rewrite Hk by (intros y Hy; apply Hx; by right).
      apply dict_get_set_ne, Hx. by left.
Qed.

Lemma flatten_ext_id_spec f h d i ext_id :
  h !! f = Some (ODict d) →
  let h' := flatten_ext_id f h i ext_id in
  (∀ l, l ≠ f → h' !! l = h !! l) ∧
  ∃ d', h' !! f = Some (ODict d') ∧
        ∀ k, (∀ s, k ≠ "external_id_" +:+ s) → dict_get d' k = dict_get d k.
Proof.
  intros Hf. unfold flatten_ext_id.
  destruct (as_dict h ext_id) as [e|]; simpl.
  - destruct (foldl_setitem
                (λ kv : string * val, "external_id_" +:+ pretty i +:+ "_" +:+ kv.1)
                (λ _ kv, kv.2) f e h d Hf) as [Hne (d' & Hd' & Hk)].
    split; [done|]. exists d'. split; [done|].
    intros k Hpre. apply Hk. intros x _ Heq. by eapply Hpre.
  - split; [done|]. by exists d.
Qed.

Lemma flatten_external_ids_spec f ids :
  ∀ h d,
    h !! f = Some (ODict d) →
    let h' := foldl (λ h ix, flatten_ext_id f h ix.1 ix.2) h ids in
    (∀ l, l ≠ f → h' !! l = h !! l) ∧
    ∃ d', h' !! f = Some (ODict d') ∧
          ∀ k, (∀ s, k ≠ "external_id_" +:+ s) → dict_get d' k = dict_get d k.
Proof.
  induction ids as [|[i e] ids IH]; intros h d Hf; simpl.
  - split; [done|]. by exists d.
  - destruct (flatten_ext_id_spec f h d i e Hf) as [Hne1 (d1 & Hd1 & Hk1)].
    destruct (IH _ _ Hd1) as [Hne2 (d2 & Hd2 & Hk2)].
    split.
    + intros l Hl. by rewrite Hne2, Hne1.
    + exists d2. split; [done|]. intros k Hpre.
      by rewrite Hk2, Hk1.
Qed.

Lemma as_list_writes_only f h h1 v :
  f ∉ dom h → writes_only f h h1 → as_list h1 v = as_list h v.
Proof.
  intros Hf [Hne [d Hd]]. destruct v; simpl; try done.
  destruct (decide (l = f)) as [->|Hl].
  - rewrite Hd. apply not_elem_of_dom in Hf. by rewrite Hf.
  - by rewrite Hne.
Qed.

Lemma detail_value_joined f h h1 v :
  f ∉ dom h → writes_only f h h1 → joined py_str h v (detail_value py_str h1 v).
Proof.
  intros Hf Hw. unfold joined, detail_value.
  rewrite (as_list_writes_only f h h1 v Hf Hw).
  destruct (as_list h v) as [xs|]; [|done].
  exists h1. split; [|done]. by eapply writes_only_preserved.
Qed.

Lemma writes_only_setitem f h0 h k v :
  writes_only f h0 h → writes_only f h0 (setitem h f k v).
Proof.
  intros [Hne [d Hd]]. split.
  - intros l Hl. rewrite setitem_lookup_ne by done. by apply Hne.
  - eexists. by apply setitem_lookup.
Qed.

Lemma writes_only_popitem f h0 h k :
  writes_only f h0 h → writes_only f h0 (popitem h f k).
Proof.
  intros [Hne [d Hd]]. split.
  - intros l Hl. rewrite popitem_lookup_ne by done. by apply Hne.
  - eexists. by apply popitem_lookup.
Qed.

Lemma writes_only_alloc h d :
  writes_only (fresh (dom h)) h (<[fresh (dom h) := ODict d]> h).
Proof.
  split.
  - intros l Hl. by rewrite lookup_insert_ne.
  - exists d. apply lookup_insert_eq.
Qed.

Lemma writes_only_trans f h0 h1 h2 :
  writes_only f h0 h1 → writes_only f h1 h2 → writes_only f h0 h2.
Proof.
  intros [Hne1 _] [Hne2 Hd]. split; [|done].
  intros l Hl. by rewrite Hne2, Hne1.
Qed.

Lemma writes_only_flatten_detail f h0 detail :
  ∀ h, writes_only f h0 h → writes_only f h0 (flatten_detail py_str f h detail).
Proof.
  unfold flatten_detail.
  induction detail as [|kv detail IH]; intros h Hw; simpl; [done|].
  by apply IH, writes_only_setitem.
Qed.

Lemma writes_only_flatten_external_ids f h0 h ids :
  writes_only f h0 h → writes_only f h0 (flatten_external_ids f h ids).
Proof.
  intros Hw. destruct (Hw) as [_ [d Hd]].
  destruct (flatten_external_ids_spec f (imap pair ids) h d Hd)
    as [Hne (d' & Hd' & _)].
  eapply writes_only_trans; [done|]. split; [done|]. by exists d'.
Qed.

(** The flattener returns on every dictionary, with the copy at a location
    the heap did not have, and writes nowhere else. *)
Lemma flatten_record_writes h record d :
  h !! record = Some (ODict d) →
  ∃ h', flatten_record py_str h record = Some (h', fresh (dom h)) ∧
        writes_only (fresh (dom h)) h h'.
Proof.
  intros Hr. unfold flatten_record. rewrite Hr.
  set (f := fresh (dom h)). set (h1 := <[f := ODict d]> h).
  assert (writes_only f h h1) as Hw1 by apply writes_only_alloc.
  eexists. split; [done|].
  match goal with |- writes_only f h (match ?c with _ => _ end) =>
    destruct c as [ids|] end.
  - apply writes_only_flatten_external_ids, writes_only_popitem.
    destruct (_ ≫= _) as [detail|]; [|done].
    by apply writes_only_flatten_detail, writes_only_popitem.
  - destruct (_ ≫= _) as [detail|]; [|done].
    by apply writes_only_flatten_detail, writes_only_popitem.
Qed.

(** C10: [flatten_record] returns a dictionary at a location the heap did
    not have before the call, and every object the heap had, the argument
    record with its [detail] and [external_ids] entries and the objects
    they refer to included, is the same afterwards. *)
Theorem flatten_record_fresh_copy h record d :
  h !! record = Some (ODict d) →
  ∃ h' flat d',
    flatten_record py_str h record = Some (h', flat) ∧
    (flat ∉ dom h) ∧ flat ≠ record ∧
    h' !! flat = Some (ODict d') ∧
    h' !! record = Some (ODict d) ∧
    heap_preserved h h'.
Proof.
  intros Hr. destruct (flatten_record_writes h record d Hr) as (h' & Hfl & Hw).
  pose proof (is_fresh (dom h)) as Hfresh.
  assert (heap_preserved h h') as Hp by (eapply writes_only_preserved; done).
  destruct (Hw) as [_ [d' Hd']].
  exists h', (fresh (dom h)), d'. repeat split; try done.
  - intros Heq. apply Hfresh. rewrite Heq. apply elem_of_dom. by rewrite Hr.
  - rewrite Hp; [done|]. apply elem_of_dom. by rewrite Hr.
Qed.

Lemma detail_key_not_detail a : "detail_" +:+ a ≠ "detail".
Proof. by simpl. Qed.

Lemma detail_key_not_external_ids a : "detail_" +:+ a ≠ "external_ids".
Proof. by simpl. Qed.

Lemma detail_key_not_external_id a s : "detail_" +:+ a ≠ "external_id_" +:+ s.
Proof. by simpl. Qed.

Lemma detail_key_inj a b : a ≠ b → "detail_" +:+ a ≠ "detail_" +:+ b.
Proof. intros Hab Heq. apply Hab. by simplify_eq/=. Qed.

(** C7, as amended: for a record whose [detail] is a dictionary with the two
    keys [a] and [b], the flattened record has no [detail] key, holds the two
    detail values under [detail_a] and [detail_b] (a list joined with
    commas), and passes every other field through unchanged, except that a
    list-valued [external_ids] is flattened by its own rule (the field goes
    and [external_id_...] fields are written) and that a field already named
    [detail_a] or [detail_b] is overwritten. *)
Theorem flatten_record_detail_two_keys h record d ld a b va vb :
  h !! record = Some (ODict d) →
  dict_get d "detail" = Some (VRef ld) →
  h !! ld = Some (ODict [(a, va); (b, vb)]) →
  a ≠ b →
  ∃ h' flat d' oa ob,
    flatten_record py_str h record = Some (h', flat) ∧
    h' !! flat = Some (ODict d') ∧
    dict_get d' "detail" = None ∧
    dict_get d' ("detail_" +:+ a) = Some oa ∧ joined py_str h va oa ∧
    dict_get d' ("detail_" +:+ b) = Some ob ∧ joined py_str h vb ob ∧
    ∀ k, k ≠ "detail" → k ≠ "detail_" +:+ a → k ≠ "detail_" +:+ b →
         (has_identity_list h d →
            k ≠ "external_ids" ∧ ∀ s, k ≠ "external_id_" +:+ s) →
         dict_get d' k = dict_get d k.
Proof.
  intros Hr Hdetail Hld Hab.
  pose proof (is_fresh (dom h)) as Hfresh.
  unfold flatten_record. rewrite Hr.
  set (f := fresh (dom h)) in *. set (h1 := <[f := ODict d]> h).
  assert (h1 !! f = Some (ODict d)) as Hf1 by apply lookup_insert_eq.
  assert (writes_only f h h1) as Hw1 by apply writes_only_alloc.
  assert (ld ≠ f) as Hldf.
  { intros ->. apply Hfresh, elem_of_dom. by rewrite Hld. }
  assert (getitem h1 f "detail" ≫= as_dict h1 = Some [(a, va); (b, vb)]) as ->.
  { unfold getitem. rewrite Hf1, Hdetail. simpl.
    destruct Hw1 as [Hne _]. by rewrite Hne, Hld. }
  set (h2 := popitem h1 f "detail").
  assert (h2 !! f = Some (ODict (dict_pop d "detail"))) as Hf2
    by by apply popitem_lookup.
  assert (writes_only f h h2) as Hw2 by by apply writes_only_popitem.
  unfold flatten_detail. cbn [foldl fst snd].
  set (oa := detail_value py_str h2 va).
  set (h3 := setitem h2 f ("detail_" +:+ a) oa).
  assert (writes_only f h h3) as Hw3 by by apply writes_only_setitem.
  set (ob := detail_value py_str h3 vb).
  set (h4 := setitem h3 f ("detail_" +:+ b) ob).
  set (d3 := dict_set (dict_set (dict_pop d "detail") ("detail_" +:+ a) oa)
                      ("detail_" +:+ b) ob).
  assert (h4 !! f = Some (ODict d3)) as Hf4
    by by do 2 apply setitem_lookup.
  assert (writes_only f h h4) as Hw4 by by apply writes_only_setitem.
  assert (dict_get d3 "detail" = None) as Hd3detail.
  { unfold d3. rewrite !dict_get_set_ne by apply detail_key_not_detail.
    apply dict_get_pop_eq. }
  assert (dict_get d3 ("detail_" +:+ a) = Some oa) as Hd3a.
  { unfold d3. rewrite dict_get_set_ne by (apply not_eq_sym; by apply detail_key_inj).
    apply dict_get_set_eq. }
  assert (dict_get d3 ("detail_" +:+ b) = Some ob) as Hd3b
    by apply dict_get_set_eq.
  assert (∀ k, k ≠ "detail" → k ≠ "detail_" +:+ a → k ≠ "detail_" +:+ b →
               dict_get d3 k = dict_get d k) as Hd3k.
  { intros k ? ? ?. unfold d3.
    by rewrite !dict_get_set_ne, dict_get_pop_ne. }
  assert (getitem h4 f "external_ids" ≫= as_list h4
          = dict_get d "external_ids" ≫= as_list h) as ->.
  { unfold getitem. rewrite Hf4, Hd3k;
      [|done|apply not_eq_sym, detail_key_not_external_ids..].
    destruct (dict_get d "external_ids") as [v|]; [|done]. simpl.
    by apply (as_list_writes_only f). }
  assert (joined py_str h va oa) as Hja by by apply (detail_value_joined f).
  assert (joined py_str h vb ob) as Hjb by by apply (detail_value_joined f).
  destruct (dict_get d "external_ids" ≫= as_list h) as [ids|] eqn:Hids.
  - assert (popitem h4 f "external_ids" !! f
            = Some (ODict (dict_pop d3 "external_ids"))) as Hf5
      by by apply popitem_lookup.
    destruct (flatten_external_ids_spec f (imap pair ids) _ _ Hf5)
      as [_ (d' & Hd' & Hk)].
    eexists _, f, d', oa, ob. split; [done|]. split; [exact Hd'|].
    repeat split; try done.
    + rewrite Hk by done. by rewrite dict_get_pop_ne.
    + rewrite Hk by (intros s; apply detail_key_not_external_id).
      by rewrite dict_get_pop_ne
        by (apply not_eq_sym, detail_key_not_external_ids).
    + rewrite Hk by (intros s; apply detail_key_not_external_id).
      by rewrite dict_get_pop_ne
        by (apply not_eq_sym, detail_key_not_external_ids).
    + intros k Hk1 Hk2 Hk3 Hext.
      destruct Hext as [Hk4 Hk5]; [unfold has_identity_list; by rewrite Hids|].
      rewrite Hk by done. rewrite dict_get_pop_ne by done. by apply Hd3k.
  - eexists _, f, d3, oa, ob. repeat split; try done.
    intros k ? ? ? _. by apply Hd3k.
Qed.

End facts.

Lemma flatten_record_fresh_copy_witness :
  ∃ h' flat d',
    flatten_record str_scalar sample_heap 1%positive = Some (h', flat) ∧
    (flat ∉ dom sample_heap) ∧ flat ≠ 1%positive ∧
    h' !! flat = Some (ODict d') ∧
    h' !! 1%positive = Some (ODict sample_record) ∧
    heap_preserved sample_heap h'.
Proof.
  apply (flatten_record_fresh_copy str_scalar sample_heap 1%positive sample_record).
  reflexivity.
Defined.

Lemma flatten_record_detail_two_keys_witness :
  ∃ h' flat d' oa ob,
    flatten_record str_scalar sample_heap 1%positive = Some (h', flat) ∧
    h' !! flat = Some (ODict d') ∧
    dict_get d' "detail" = None ∧
    dict_get d' "detail_a" = Some oa ∧
    joined str_scalar sample_heap (VRef 4) oa ∧
    dict_get d' "detail_b" = Some ob ∧
    joined str_scalar sample_heap (VNum 7) ob ∧
    ∀ k, k ≠ "detail" → k ≠ "detail_a" → k ≠ "detail_b" →
         (has_identity_list sample_heap sample_record →
            k ≠ "external_ids" ∧ ∀ s, k ≠ "external_id_" +:+ s) →
         dict_get d' k = dict_get sample_record k.
Proof.
  apply (flatten_record_detail_two_keys str_scalar sample_heap 1%positive
           sample_record 2%positive "a" "b" (VRef 4) (VNum 7)).
  - reflexivity.
  - reflexivity.
  - reflexivity.
  - discriminate.
Defined.

(** C7 as stated fails on [sample_record], whose [detail] has exactly the
    keys [a] and [b]: the field [external_ids] is not passed through (the
    flattened record has no such key), and the field [detail_a], which held
    9, comes back holding the joined list. *)
Lemma flatten_record_other_fields_changed :
  sample_heap !! 1%positive = Some (ODict sample_record) ∧
  as_dict sample_heap (VRef 2) = Some [("a", VRef 4); ("b", VNum 7)] ∧
  dict_get sample_record "external_ids" = Some (VRef 3) ∧
  dict_get sample_record "detail_a" = Some (VNum 9) ∧
  ∃ h' flat,
    flatten_record str_scalar sample_heap 1%positive = Some (h', flat) ∧
    getitem h' flat "external_ids" = None ∧
    getitem h' flat "detail_a" = Some (VStr "x,2").
Proof.
  repeat split; try reflexivity.
  eexists _, _. split; [reflexivity|]. split; vm_compute; reflexivity.
Qed.

End FlattenFacts.

(** ** Source client *)

Module FetchFacts.
Import Fetch.

Section facts.

Context {St Rec Flat : Type}.
Variable flatten_record : St → Rec → option (St * Flat).
Variable source : nat → reply Rec.
Variable endpoint : string.

Abbreviation step := (fetch_step flatten_record endpoint).
Abbreviation loop := (fetch_loop flatten_record source endpoint).
Abbreviation iter := (iterate flatten_record source endpoint).

Lemma is_transient_cases code :
  is_transient code = true → code ≠ 200%Z ∧ code ≠ 429%Z.
Proof.
  unfold is_transient. intros H%bool_decide_eq_true.
  set_unfold. lia.
Qed.

Lemma step_rate_limited body (s : fetch_state St Flat) :
  step (Response 429 body) s =
  Next (FetchState (url s) (data s) (retries s) (page_count s)
          (slept s + rate_limit_wait endpoint) (S (requests s)) (store s)).
Proof. reflexivity. Qed.

Lemma step_transient code body (s : fetch_state St Flat) :
  is_transient code = true →
  step (Response code body) s =
  if bool_decide (retries s < MAX_RETRIES) then
    Next (FetchState (url s) (data s) (S (retries s)) (page_count s)
            (slept s + 2 ^ retries s) (S (requests s)) (store s))
  else
    Break (FetchState (url s) (data s) (retries s) (page_count s)
             (slept s) (S (requests s)) (store s)).
Proof.
  intros Ht. destruct (is_transient_cases code Ht) as [H200 H429].
  unfold fetch_step. rewrite !bool_decide_eq_false_2 by done.
  rewrite Ht. by simpl.
Qed.

(** An iteration that does not [break] moves the retry counter as
    [streak_step] says, and a processed page sets it to zero. *)
Lemma step_next_retries r (s s' : fetch_state St Flat) :
  step r s = Next s' →
  retries s' = streak_step (retries s) r ∧
  requests s' = S (requests s) ∧
  (retries s ≤ MAX_RETRIES → retries s' ≤ MAX_RETRIES).
Proof.
  unfold fetch_step, streak_step, sleep. destruct r as [code body|]; [|done].
  case_bool_decide.
  - destruct body as [json_resp|]; [|done].
    destruct (value json_resp) as [|record rest]; [done|].
    destruct (flatten_page _ _ _ _) as [[st data'] ok].
    destruct ok; [|done]. intros [= <-]. simpl. repeat split; lia.
  - case_bool_decide.
    + intros [= <-]. by simpl.
    + destruct (is_transient code); [|done].
      case_bool_decide; [|done]. intros [= <-]. simpl in *.
      unfold MAX_RETRIES in *. repeat split; lia.
Qed.

Lemma iterate_loop n : ∀ (s s' : fetch_state St Flat) fuel,
  iter n s = Some s' → loop (n + fuel) s = loop fuel s'.
Proof.
  induction n as [|n IH]; intros s s' fuel; simpl.
  - by intros [= ->].
  - destruct (truthy (url s)); [|done].
    destruct (step _ s) as [s1|s1]; [|done]. apply IH.
Qed.

Lemma iterate_retries n : ∀ (s s' : fetch_state St Flat),
  iter n s = Some s' →
  retries s' = foldl streak_step (retries s) (source <$> seq (requests s) n) ∧
  requests s' = requests s + n ∧
  (retries s ≤ MAX_RETRIES → retries s' ≤ MAX_RETRIES).
Proof.
  induction n as [|n IH]; intros s s'; simpl.
  - intros [= ->]. repeat split; lia.
  - destruct (truthy (url s)); [|done].
    destruct (step _ s) as [s1|s1] eqn:Hstep; [|done].
    apply step_next_retries in Hstep as (Hr & Hq & Hle).
    intros (-> & -> & Hle')%IH. rewrite Hr, Hq.
    split; [done|]. split; [lia|].
    intros Hs. rewrite <- Hr, <- Hq. auto.
Qed.

(** Any number of rate-limit answers in a row is absorbed: the loop is
    still running, on the same page, with the same data and counter. *)
Lemma iterate_rate_limited n : ∀ (s : fetch_state St Flat),
  truthy (url s) = true →
  (∀ i, i < n → ∃ body, source (requests s + i) = Response 429 body) →
  iter n s =
  Some (FetchState (url s) (data s) (retries s) (page_count s)
          (slept s + n * rate_limit_wait endpoint) (requests s + n) (store s)).
Proof.
  induction n as [|n IH]; intros s Hurl Hsrc.
  - simpl. destruct s. simpl. do 2 f_equal; lia.
  - cbn [iterate]. rewrite Hurl.
    destruct (Hsrc 0) as [body Hb]; [lia|].
    rewrite Nat.add_0_r in Hb. rewrite Hb, step_rate_limited.
    rewrite IH; simpl; [do 2 f_equal; lia|done|].
    intros i Hi. destruct (Hsrc (S i)) as [b Hb']; [lia|].
    exists b. rewrite <- Hb'. f_equal. lia.
Qed.

Lemma loop_rate_limited fuel : ∀ (s : fetch_state St Flat),
  (∀ i, ∃ body, source i = Response 429 body) →
  truthy (url s) = true → loop fuel s = None.
Proof.
  induction fuel as [|fuel IH]; intros s Hsrc Hurl; simpl; rewrite Hurl; [done|].
  destruct (Hsrc (requests s)) as [body ->]. rewrite step_rate_limited.
  by apply IH.
Qed.

(** C3, as amended: retries of rate-limited answers are not bounded by any
    attempt count.  However many 429 answers arrive in a row, each makes
    the client pause and ask for the same page again, with the collected
    data and the retry counter unchanged, and on a source that answers 429
    to every request no number of iterations ends the loop. *)
Theorem rate_limit_retries_unbounded (s : fetch_state St Flat) :
  truthy (url s) = true →
  (∀ n, (∀ i, i < n → ∃ body, source (requests s + i) = Response 429 body) →
        iter n s =
        Some (FetchState (url s) (data s) (retries s) (page_count s)
                (slept s + n * rate_limit_wait endpoint) (requests s + n) (store s))) ∧
  ((∀ i, ∃ body, source i = Response 429 body) → ∀ fuel, loop fuel s = None).
Proof.
  intros Hurl. split.
  - intros n Hn. by apply iterate_rate_limited.
  - intros Hsrc fuel. by apply loop_rate_limited.
Qed.

Lemma iterate_snoc n : ∀ (s s1 s2 : fetch_state St Flat),
  iter n s = Some s1 →
  truthy (url s1) = true →
  step (source (requests s1)) s1 = Next s2 →
  iter (S n) s = Some s2.
Proof.
  induction n as [|n IH]; intros s s1 s2.
  - simpl. intros [= <-] -> ->. done.
  - intros Hit Hurl Hstep. cbn [iterate] in Hit |- *.
    destruct (truthy (url s)); [|done].
    destruct (step (source (requests s)) s) as [s'|s']; [|done].
    by eapply IH.
Qed.

(** C4, as amended: from a state whose retry counter is zero, five
    transient errors in a row are all retried (the loop is still running, on
    the same page, with the counter at [MAX_RETRIES]); it is the sixth in a
    row that ends the fetch, and the data returned is the data collected
    before the errors. *)
Theorem six_transient_errors_abort (s : fetch_state St Flat) :
  truthy (url s) = true →
  retries s = 0 →
  (∀ i, i < 6 → ∃ code body,
       source (requests s + i) = Response code body ∧ is_transient code = true) →
  (∃ s5, iter 5 s = Some s5 ∧ url s5 = url s ∧ data s5 = data s ∧
         retries s5 = MAX_RETRIES) ∧
  ∀ fuel, ∃ s', loop (6 + fuel) s = Some s' ∧ data s' = data s ∧
                requests s' = requests s + 6.
Proof.
  intros Hurl Hret Hsrc.
  assert (∀ k, k ≤ 5 →
               ∃ sk, iter k s = Some sk ∧ url sk = url s ∧ data sk = data s ∧
                     retries sk = k ∧ requests sk = requests s + k) as Hk.
  { induction k as [|k IH]; intros Hle.
    - exists s. repeat split; try done; lia.
    - destruct IH as (sk & Hit & Hu & Hd & Hr & Hq); [lia|].
      destruct (Hsrc k) as (code & body & Hs & Ht); [lia|].
      eexists. split.
      + eapply iterate_snoc; [done|by rewrite Hu|].
        rewrite Hq, Hs, step_transient by done.
        rewrite bool_decide_eq_true_2; [done|]. unfold MAX_RETRIES. lia.
      + simpl. repeat split; try done; lia. }
  destruct (Hk 5) as (s5 & Hit & Hu & Hd & Hr & Hq); [lia|].
  split; [by exists s5|].
  intros fuel. replace (6 + fuel) with (5 + S fuel) by lia.
  rewrite (iterate_loop 5 s s5 (S fuel) Hit).
  destruct (Hsrc 5) as (code & body & Hs & Ht); [lia|].
  cbn [fetch_loop]. rewrite Hu, Hurl, Hq, Hs, step_transient by done.
  rewrite bool_decide_eq_false_2 by (unfold MAX_RETRIES; lia).
  eexists. split; [done|]. simpl. split; [done|lia].
Qed.

(** C6: a rate-limit answer leaves the retry counter (and the page, the
    data and the page count) as they were and the loop running; a page that
    is processed sets the counter to zero; hence, as long as the loop runs,
    the counter is the number of transient errors since the last processed
    page, never above [MAX_RETRIES], whatever came before that page. *)
Theorem retry_counter_follows_streak :
  (∀ body (s : fetch_state St Flat),
     ∃ s', step (Response 429 body) s = Next s' ∧ retries s' = retries s ∧
           url s' = url s ∧ data s' = data s ∧ page_count s' = page_count s) ∧
  (∀ json_resp (s : fetch_state St Flat),
     value json_resp ≠ [] →
     (flatten_page flatten_record (store s) (data s) (value json_resp)).2 = true →
     ∃ s', step (Response 200 (Some json_resp)) s = Next s' ∧ retries s' = 0 ∧
           url s' = next_link json_resp ∧ page_count s' = S (page_count s)) ∧
  (∀ r (s s' : fetch_state St Flat),
     step r s = Next s' → retries s' = streak_step (retries s) r) ∧
  (∀ st sent n (s : fetch_state St Flat),
     iter n (initial endpoint st sent) = Some s →
     retries s = streak source sent n ∧ retries s ≤ MAX_RETRIES).
Proof.
  split; [|split; [|split]].
  - intros body s. rewrite step_rate_limited. by eexists.
  - intros json_resp s Hpage Hok. unfold fetch_step.
    rewrite bool_decide_eq_true_2 by done.
    destruct (value json_resp) as [|record rest] eqn:Hv; [done|].
    cbn [store data] in *.
    destruct (flatten_page _ _ _ _) as [[st data'] ok]. simpl in Hok. subst ok.
    by eexists.
  - intros r s s' Hstep. by apply step_next_retries in Hstep as [? _].
  - intros st sent n s Hit.
    apply iterate_retries in Hit as (Hr & _ & Hle). split; [done|].
    apply Hle. simpl. unfold MAX_RETRIES. lia.
Qed.

End facts.

Lemma rate_limit_retries_unbounded_witness :
  (∀ n, (∀ i, i < n → ∃ body, always_rate_limited (0 + i) = Response 429 body) →
        iterate plain_flatten always_rate_limited "users" n (initial "users" () 0) =
        Some (FetchState (Some (BASE_API +:+ "/users")) [] 0 0
                (0 + n * rate_limit_wait "users") (0 + n) ())) ∧
  ((∀ i, ∃ body, always_rate_limited i = Response 429 body) →
   ∀ fuel, fetch_loop plain_flatten always_rate_limited "users" fuel
             (initial "users" () 0) = None).
Proof.
  apply (rate_limit_retries_unbounded plain_flatten always_rate_limited "users"
           (initial "users" () 0)).
  reflexivity.
Defined.

(** C3 as stated fails: on the source that answers 429 to every request, no
    bound on the number of iterations lets the fetch of the users end. *)
Lemma fetch_rate_limited_forever :
  ¬ ∃ fuel s,
      fetch_loop plain_flatten always_rate_limited "users" fuel
        (initial "users" () 0) = Some s.
Proof.
  intros (fuel & s & Hloop).
  rewrite (loop_rate_limited plain_flatten always_rate_limited "users") in Hloop;
    [done| |done].
  intros i. by exists None.
Qed.

Lemma six_transient_errors_abort_witness :
  let s := FetchState (Some (BASE_API +:+ "/conversations?page=2")) ["r1"] 0 1 0 1 () in
  (∃ s5, iterate plain_flatten page_then_errors "conversations" 5 s = Some s5 ∧
         url s5 = url s ∧ data s5 = data s ∧ retries s5 = MAX_RETRIES) ∧
  ∀ fuel, ∃ s', fetch_loop plain_flatten page_then_errors "conversations" (6 + fuel) s
                = Some s' ∧ data s' = data s ∧ requests s' = requests s + 6.
Proof.
  apply (six_transient_errors_abort plain_flatten page_then_errors "conversations").
  - reflexivity.
  - reflexivity.
  - intros i Hi. exists 503%Z, None. split; reflexivity.
Defined.

(** C4 as stated fails: after a first page, five transient errors in a row
    do not end the fetch; the loop asks again and the page that comes then
    is part of the data. *)
Lemma five_transient_errors_do_not_abort :
  data <$> iterate plain_flatten five_errors_then_page "conversations" 6
             (initial "conversations" () 0) = Some ["r1"] ∧
  retries <$> iterate plain_flatten five_errors_then_page "conversations" 6
                (initial "conversations" () 0) = Some 5 ∧
  data <$> fetch_loop plain_flatten five_errors_then_page "conversations" 7
             (initial "conversations" () 0) = Some ["r1"; "r2"].
Proof. repeat split; vm_compute; reflexivity. Qed.

End FetchFacts.

(** ** Data frames and the schema mapper *)

Module MapperFacts.
Import Text Schema Fetch Frame Mapper.

Lemma alist_get_set {A} (l : list (string * A)) k v k' :
  alist_get (alist_set l k v) k' = if decide (k = k') then Some v else alist_get l k'.
Proof.
  induction l as [|[k0 v0] l IH]; simpl.
  - repeat case_decide; congruence.
  - destruct (decide (k0 = k)) as [->|Hne]; simpl.
    + repeat case_decide; congruence.
    + rewrite IH. repeat case_decide; congruence.
Qed.

Lemma alist_set_names {A} (l : list (string * A)) k v :
  (alist_set l k v).*1 = add_name l.*1 k.
Proof.
  unfold add_name. induction l as [|[k0 v0] l IH]; csimpl; [done|].
  destruct (decide (k0 = k)) as [->|Hne]; csimpl.
  - rewrite bool_decide_eq_true_2; [done|]. by left.
  - rewrite IH.
    rewrite (bool_decide_ext (k ∈ k0 :: l.*1) (k ∈ l.*1))
      by (rewrite elem_of_cons; naive_solver).
    by case_bool_decide.
Qed.

Lemma alist_get_None {A} (l : list (string * A)) k :
  alist_get l k = None ↔ k ∉ l.*1.
Proof.
  induction l as [|[k0 v0] l IH]; csimpl.
  - split; [intros _; apply not_elem_of_nil|done].
  - rewrite not_elem_of_cons. case_decide; naive_solver.
Qed.

Lemma alist_get_fmap {A B} (f : A → B) (l : list (string * A)) k :
  alist_get (prod_map id f <$> l) k = f <$> alist_get l k.
Proof.
  induction l as [|[k0 v0] l IH]; simpl; [done|]. by case_decide.
Qed.

Lemma names_set_scalar df col v : names (set_scalar df col v) = add_name (names df) col.
Proof. apply alist_set_names. Qed.

Lemma names_set_series df col series :
  names (set_series df col series) = add_name (names df) col.
Proof.
  unfold set_series, names. destruct (_ && _); simpl.
  - rewrite alist_set_names. f_equal.
    rewrite <- list_fmap_compose. by apply list_fmap_ext; intros ? [].
  - apply alist_set_names.
Qed.

Lemma column_set_scalar df col v col' :
  column (set_scalar df col v) col' =
  if decide (col = col') then Some (replicate (index df) v) else column df col'.
Proof. apply alist_get_set. Qed.

Lemma column_None df col : column df col = None ↔ col ∉ names df.
Proof. apply alist_get_None. Qed.

Lemma all_null_set_scalar df col : all_null (set_scalar df col VNone) col.
Proof.
  eexists. rewrite column_set_scalar, decide_True by done. split; [done|].
  apply Forall_replicate. by left.
Qed.

Lemma all_null_set_series df col series :
  Forall is_null series → all_null (set_series df col series) col.
Proof.
  intros Hs. unfold all_null, column, set_series. destruct (_ && _); simpl.
  - eexists. rewrite alist_get_set, decide_True by done. done.
  - eexists. rewrite alist_get_set, decide_True by done. split; [done|].
    apply Forall_resize; [by right|done].
Qed.

Lemma all_null_set_scalar_ne df col v col' :
  col ≠ col' → all_null df col' → all_null (set_scalar df col v) col'.
Proof.
  intros Hne (cells & Hc & Hn). exists cells.
  by rewrite column_set_scalar, decide_False.
Qed.

Lemma all_null_set_series_ne df col series col' :
  col ≠ col' → all_null df col' → all_null (set_series df col series) col'.
Proof.
  intros Hne (cells & Hc & Hn). unfold all_null, column, set_series in *.
  destruct (_ && _); simpl; rewrite alist_get_set, decide_False by done.
  - rewrite alist_get_fmap, Hc. eexists. split; [done|].
    apply Forall_replicate. by right.
  - by exists cells.
Qed.

Section facts.

Variable json_dumps_dict : heap → dict → string.
Variable json_dumps : heap → val → string.
Variable py_str : heap → val → string.
Variable py_str_list : heap → dtype → list val → string.
Variable array_truth : heap → list val → option bool.
Variable h : heap.

Abbreviation special := (with_special_columns json_dumps_dict json_dumps py_str py_str_list array_truth h).
Abbreviation transform :=
  (transform_dataframe_for_schema json_dumps_dict json_dumps py_str py_str_list array_truth h).

Lemma names_map_column dft r m :
  names (map_column dft r m) = add_name (names r) m.2.
Proof.
  unfold map_column. destruct (column dft m.1).
  - apply names_set_series.
  - apply names_set_scalar.
Qed.

Lemma names_foldl_map_column dft mapping : ∀ r,
  names (foldl (map_column dft) r mapping) = foldl add_name (names r) mapping.*2.
Proof.
  induction mapping as [|m mapping IH]; intros r; csimpl; [done|].
  by rewrite IH, names_map_column.
Qed.

Lemma all_null_map_column_ne dft r m col :
  m.2 ≠ col → all_null r col → all_null (map_column dft r m) col.
Proof.
  intros Hne Hn. unfold map_column. destruct (column dft m.1).
  - by apply all_null_set_series_ne.
  - by apply all_null_set_scalar_ne.
Qed.

Lemma all_null_foldl_map_column dft mapping col : ∀ r,
  col ∉ mapping.*2 → all_null r col →
  all_null (foldl (map_column dft) r mapping) col.
Proof.
  induction mapping as [|m mapping IH]; intros r Hcol Hn; csimpl in *; [done|].
  apply not_elem_of_cons in Hcol as [Hm Hcol].
  apply IH; [done|]. by apply all_null_map_column_ne.
Qed.

Lemma all_null_map_column dft r api col :
  null_source dft api → all_null (map_column dft r (api, col)) col.
Proof.
  unfold null_source, map_column. simpl. destruct (column dft api).
  - apply all_null_set_series.
  - intros _. apply all_null_set_scalar.
Qed.

(** A column whose source holds nulls only comes out of the mapping loop
    holding nulls only. *)
Lemma all_null_mapping dft mapping api col : ∀ r,
  NoDup mapping.*2 → (api, col) ∈ mapping → null_source dft api →
  all_null (foldl (map_column dft) r mapping) col.
Proof.
  induction mapping as [|m mapping IH]; intros r Hnd Hin Hsrc; csimpl in *.
  - by apply elem_of_nil in Hin.
  - apply NoDup_cons in Hnd as [Hm Hnd].
    apply elem_of_cons in Hin as [<-|Hin].
    + apply all_null_foldl_map_column; [done|]. by apply all_null_map_column.
    + by apply IH.
Qed.

Lemma column_mapping_ok endpoint mapping :
  column_mapping endpoint = Some mapping → mapping_ok endpoint mapping.
Proof.
  unfold column_mapping, mapping_ok.
  repeat case_decide; intros [= <-]; subst;
    by apply (bool_decide_unpack _); vm_compute.
Qed.

Lemma elem_of_add_name ns col c : c ∈ add_name ns col ↔ c ∈ ns ∨ c = col.
Proof.
  unfold add_name. case_bool_decide.
  - naive_solver.
  - rewrite elem_of_app, list_elem_of_singleton. naive_solver.
Qed.

Lemma names_special endpoint df dft d c :
  special endpoint df dft = Returns d →
  c ∈ names d →
  c ∈ names dft ∨ c = "DETAILS" ∨ c = "EXTERNAL_IDS".
Proof.
  unfold with_special_columns, with_interaction_details, with_resource_details,
    with_external_ids, and_then.
  repeat case_decide; repeat case_match; intros [= <-];
    rewrite ?names_set_series, ?names_set_scalar, ?elem_of_add_name; naive_solver.
Qed.

(** A source that is absent gives nulls only. *)
Lemma source_absent_null endpoint mapping df api col v d :
  column_mapping endpoint = Some mapping →
  (api, col) ∈ mapping →
  source_absent df api →
  special endpoint df (set_scalar df "LOAD_TIMESTAMP" v) = Returns d →
  null_source d api.
Proof.
  intros Hmap Hin Habs Hd.
  destruct (column_mapping_ok _ _ Hmap) as (_ & _ & Hall).
  rewrite Forall_forall in Hall. destruct (Hall _ Hin) as (Hlt & Hdet & Hext).
  simpl in *. unfold source_absent in Habs. unfold null_source.
  destruct (decide (api = "DETAILS")) as [->|Hne].
  - destruct Habs as [Hcols Hdetail].
    apply column_None in Hdetail.
    unfold with_special_columns, with_interaction_details, with_resource_details in Hd.
    destruct Hdet as [->| ->]; [done|..]; simpl in Hd; rewrite Hcols, Hdetail in Hd;
      injection Hd as <-;
      rewrite column_set_scalar, decide_True by done;
      apply Forall_replicate; by left.
  - destruct (column d api) as [cells|] eqn:Hc; [|done]. exfalso.
    assert (api ∈ names d) as Hn.
    { destruct (decide (api ∈ names d)) as [|Hn]; [done|].
      apply column_None in Hn. congruence. }
    destruct (decide (api = "EXTERNAL_IDS")) as [->|He].
    + destruct Habs as [Hcols Hno]. rewrite (Hext eq_refl) in Hd.
      unfold with_special_columns, with_external_ids in Hd. simpl in Hd.
      rewrite Hcols in Hd. injection Hd as <-.
      rewrite names_set_scalar, elem_of_add_name in Hn. naive_solver.
    + eapply names_special in Hn; [|done].
      rewrite names_set_scalar, elem_of_add_name in Hn. naive_solver.
Qed.

End facts.

(** The example of the specification: no user record has [last_name], and
    the first has no [email_addr]; both columns are there, holding nulls. *)
Example users_missing_fields_are_null :
  ∃ result,
    transform_dataframe_for_schema sample_dumps_dict sample_dumps sample_str
      sample_str_list sample_array_truth ∅ 42 (of_records sample_users) "users"
    = Returns result ∧
    column result "LAST_NAME" = Some [VNone; VNone] ∧
    column result "EMAIL_ADDR" = Some [VNaN; VStr "bob@example.org"] ∧
    column result "nickname" = None.
Proof. eexists. repeat split. Qed.

End MapperFacts.

(** ** Load engine *)

Module LoadFacts.
Import Text Schema Fetch Frame Mapper Warehouse Load.

Section facts.

Variable json_dumps_dict : heap → dict → string.
Variable json_dumps : heap → val → string.
Variable py_str : heap → val → string.
Variable py_str_list : heap → dtype → list val → string.
Variable array_truth : heap → list val → option bool.
Variable h : heap.
Variable fails : nat → bool.
Variable unsuccessful : nat → bool.

Abbreviation exec := (Warehouse.execute fails).
Abbreviation upsert := (upsert_data_to_snowflake fails unsuccessful).
Abbreviation load :=
  (load_data_to_snowflake json_dumps_dict json_dumps py_str py_str_list array_truth h
     fails unsuccessful).

(** The five templates, and the name each statement is sent with. *)
Lemma get_table_schema_cases table_name schema_sql :
  get_table_schema table_name = Some schema_sql →
  table_name ∈ table_name_of <$> ENDPOINTS.
Proof.
  unfold get_table_schema. repeat case_decide; intros [= <-]; subst;
    by apply (bool_decide_unpack _); vm_compute.
Qed.

Lemma table_name_of_schema endpoint :
  endpoint ∈ ENDPOINTS →
  ∃ schema_sql, get_table_schema (table_name_of endpoint) = Some schema_sql ∧
                ddl_temporary schema_sql = false ∧
                ddl_primary_key schema_sql = Some "ID" ∧
                ddl_target (format_table_name schema_sql (table_name_of endpoint))
                = table_name_of endpoint ∧
                valid_identifier (table_name_of endpoint) = true ∧
                resolve (table_name_of endpoint) = table_name_of endpoint.
Proof.
  unfold ENDPOINTS. set_unfold.
  intros [->|[->|[->|[->|[->|[]]]]]]; by eexists.
Qed.

(** The staging statement keeps the placeholder of the template as its
    table name, whatever the name of the staging table. *)
Lemma staging_ddl_target table_name temp_table_name schema_sql :
  get_table_schema table_name = Some schema_sql →
  ddl_target (as_temporary
                (replace_names table_name temp_table_name
                   (without_primary_key schema_sql))) = "{table_name}".
Proof.
  unfold get_table_schema. repeat case_decide; intros [= <-]; by subst.
Qed.

Lemma execute_history stmt c :
  history (exec stmt c).2 = history c ++ [Execute stmt].
Proof.
  unfold Warehouse.execute.
  destruct (fails _); [done|]. destruct (negb _); [done|].
  destruct stmt; simpl; repeat case_match; done.
Qed.

Lemma execute_refused stmt c :
  forallb valid_identifier (statement_names stmt) = false →
  ∃ e, exec stmt c = (Raises e, record_call (Execute stmt) c).
Proof.
  intros Hv. unfold Warehouse.execute. rewrite Hv. simpl.
  destruct (fails _); by eexists.
Qed.

(** The staging table is never created: the statement is refused (or there
    is no template), and the tables stay as they are. *)
Lemma create_temp_table_raises temp_table_name table_name c :
  ∃ e c', create_temp_table fails temp_table_name table_name c = (Raises e, c') ∧
          tables c' = tables c.
Proof.
  unfold create_temp_table.
  destruct (get_table_schema table_name) as [schema_sql|] eqn:Hs.
  - edestruct (execute_refused
                 (CreateOrReplaceTable
                    (as_temporary (replace_names table_name temp_table_name
                                     (without_primary_key schema_sql)))) c)
      as [e He].
    { cbn [statement_names forallb]. by rewrite (staging_ddl_target _ _ _ Hs). }
    unfold bind. rewrite He. by eexists _, _.
  - by eexists _, _.
Qed.

Lemma drop_staging_spec temp_table_name c :
  (drop_staging fails temp_table_name c).1 = Returns () ∧
  history (drop_staging fails temp_table_name c).2
  = history c ++ [Execute (DropTableIfExists temp_table_name)] ∧
  (tables (drop_staging fails temp_table_name c).2 = tables c ∨
   tables (drop_staging fails temp_table_name c).2
   = delete (resolve temp_table_name) (tables c)) ∧
  ((exec (DropTableIfExists temp_table_name) c).1 = Returns NoRows →
   tables (drop_staging fails temp_table_name c).2
   = delete (resolve temp_table_name) (tables c)).
Proof.
  unfold drop_staging, try_except, bind, Warehouse.execute; simpl.
  destruct (fails _); simpl; [by split_and!; auto|].
  destruct (negb _); simpl; by split_and!; auto.
Qed.

Lemma staging_scope_spec temp_table_name (body : M (bool * nat)) c :
  (staging_scope fails temp_table_name body c).1 =
    Returns (match (body c).1 with Returns r => r | Raises _ => (false, 0) end) ∧
  (staging_scope fails temp_table_name body c).2
  = (drop_staging fails temp_table_name (body c).2).2.
Proof.
  unfold staging_scope, try_finally, try_except, ret.
  destruct (body c) as [[r|e] cb]; done.
Qed.

(** C8: whatever the body of the [try] block does (a merge that goes
    through, a merge that fails, a bulk load that fails), the call returns,
    the last call sent to the warehouse is the drop of the staging table, and
    when that statement goes through the staging table is not there any
    more.  For [upsert_data_to_snowflake] itself, a staging table that was
    not there before the call is not there after it. *)
Theorem staging_table_dropped_on_every_path :
  (∀ temp_table_name (body : M (bool * nat)) c,
     let cb := (body c).2 in
     let c' := (staging_scope fails temp_table_name body c).2 in
     (∃ result, (staging_scope fails temp_table_name body c).1 = Returns result) ∧
     history c' = history cb ++ [Execute (DropTableIfExists temp_table_name)] ∧
     ((exec (DropTableIfExists temp_table_name) cb).1 = Returns NoRows →
      tables c' !! resolve temp_table_name = None)) ∧
  (∀ time table_name df endpoint c,
     let temp_table_name := temp_name table_name time in
     let c' := (upsert time table_name df endpoint c).2 in
     upsert time table_name df endpoint c =
       staging_scope fails temp_table_name
         (upsert_body fails unsuccessful temp_table_name table_name df endpoint) c ∧
     (tables c !! resolve temp_table_name = None →
      tables c' !! resolve temp_table_name = None)).
Proof.
  split.
  - intros temp body c. cbv zeta.
    destruct (staging_scope_spec temp body c) as [Hr Hc].
    destruct (drop_staging_spec temp (body c).2) as (_ & Hh & _ & Hd).
    rewrite Hc. split; [by eexists|]. split; [done|].
    intros Hok. rewrite (Hd Hok). apply lookup_delete_eq.
  - intros time table_name df endpoint c. cbv zeta. split; [done|].
    intros Hnone. unfold upsert_data_to_snowflake.
    set (temp := temp_name table_name time) in *.
    destruct (staging_scope_spec temp
                (upsert_body fails unsuccessful temp table_name df endpoint) c)
      as [_ ->].
    destruct (create_temp_table_raises temp table_name c) as (e & cb & Hc & Ht).
    assert ((upsert_body fails unsuccessful temp table_name df endpoint c).2 = cb)
      as ->.
    { unfold upsert_body, bind. by rewrite Hc. }
    destruct (drop_staging_spec temp cb) as (_ & _ & [Heq|Heq] & _);
      rewrite Heq, ?Ht; [done|]. apply lookup_delete_eq.
Qed.

(** The first statement of a load replaces the permanent table by an
    empty one. *)
Lemma create_table_if_not_exists_ok endpoint c :
  endpoint ∈ ENDPOINTS →
  fails (length (history c)) = false →
  ∃ cols,
    create_table_if_not_exists fails (table_name_of endpoint) c =
    (Returns (),
     Conn (<[table_name_of endpoint := Table cols false (Some "ID") []]> (tables c))
          (clock c + 1)
          (history c ++ [Execute (CreateOrReplaceTable
                                    (CreateTable (table_name_of endpoint) false cols
                                                 (Some "ID")))])).
Proof.
  intros He Hf.
  destruct (table_name_of_schema endpoint He)
    as (schema_sql & Hs & Htmp & Hpk & Htarget & Hvalid & Hres).
  exists (ddl_columns schema_sql).
  unfold create_table_if_not_exists. rewrite Hs.
  unfold bind, Warehouse.execute. rewrite Hf.
  cbn [statement_names forallb]. rewrite Htarget, Hvalid. cbn [andb negb].
  rewrite Hres. unfold ret, record_call. cbn [tables clock history].
  destruct schema_sql as [target temporary cols primary_key].
  unfold format_table_name in *. cbn [ddl_target ddl_temporary ddl_columns
    ddl_primary_key] in *. by rewrite Htarget, Htmp, Hpk.
Qed.

Lemma staging_name_not_permanent table_name time endpoint :
  resolve (temp_name table_name time) ≠ table_name_of endpoint.
Proof. by simpl. Qed.

(** C2, on the code: an Upsert load of a non-empty batch whose first
    statement goes through returns [(False, 0)] and leaves the permanent
    table of the endpoint with no rows at all, whatever it held before:
    [create_table_if_not_exists] has replaced it, and the staging statement
    has been refused.  The one way out is a batch on which the schema mapper,
    which runs before any statement is sent, raises: the load then raises the
    same exception and the session is as it was. *)
Theorem upsert_load_recreates_table time df endpoint c :
  endpoint ∈ ENDPOINTS →
  is_empty df = false →
  fails (length (history c)) = false →
  match transform_dataframe_for_schema json_dumps_dict json_dumps py_str
          py_str_list array_truth h time df endpoint with
  | Returns _ =>
      (load true time (table_name_of endpoint) df endpoint false c).1
      = Returns (false, 0) ∧
      t_rows <$> tables (load true time (table_name_of endpoint) df endpoint false c).2
                 !! table_name_of endpoint = Some []
  | Raises e =>
      load true time (table_name_of endpoint) df endpoint false c = (Raises e, c)
  end.
Proof.
  intros He Hdf Hf.
  destruct (transform_dataframe_for_schema _ _ _ _ _ _ _ _ _) as [dft|e] eqn:Hmap;
    last first.
  { unfold load_data_to_snowflake. rewrite Hdf. unfold bind, pure_call.
    by rewrite Hmap. }
  destruct (create_table_if_not_exists_ok endpoint c He Hf) as (cols & Hcreate).
  set (c1 := Conn _ _ _) in Hcreate.
  set (temp := temp_name (table_name_of endpoint) time).
  assert (load true time (table_name_of endpoint) df endpoint false c
          = staging_scope fails temp
              (upsert_body fails unsuccessful temp (table_name_of endpoint) dft endpoint)
              c1) as ->.
  { unfold load_data_to_snowflake. rewrite Hdf. unfold bind, pure_call.
    by rewrite Hmap, Hcreate. }
  destruct (staging_scope_spec temp
              (upsert_body fails unsuccessful temp (table_name_of endpoint) dft endpoint)
              c1) as [Hr Hc].
  destruct (create_temp_table_raises temp (table_name_of endpoint) c1)
    as (e & cb & Htemp & Ht).
  assert (upsert_body fails unsuccessful temp (table_name_of endpoint) dft endpoint c1
          = (Raises e, cb)) as Hbody.
  { unfold upsert_body, bind. by rewrite Htemp. }
  rewrite Hbody in Hr, Hc. simpl in Hr, Hc. rewrite Hr, Hc. split; [done|].
  destruct (drop_staging_spec temp cb) as (_ & _ & [Heq|Heq] & _); rewrite Heq, Ht.
  - unfold c1. simpl. by rewrite lookup_insert_eq.
  - rewrite lookup_delete_ne by apply staging_name_not_permanent.
    unfold c1. simpl. by rewrite lookup_insert_eq.
Qed.

End facts.

Lemma upsert_load_recreates_table_witness :
  keys_of loaded_session "MOVEWORKS_USERS" = Some [Some (VStr "u1"); Some (VStr "u2")] ∧
  (sample_load true 1700086400 batch_u2_u3 false loaded_session).1
  = Returns (false, 0) ∧
  t_rows <$> tables (sample_load true 1700086400 batch_u2_u3 false loaded_session).2
             !! "MOVEWORKS_USERS" = Some [].
Proof.
  split; [reflexivity|].
  assert ("users" ∈ ENDPOINTS) as He by (apply (bool_decide_unpack _); vm_compute; exact I).
  pose proof (upsert_load_recreates_table sample_dumps_dict sample_dumps sample_str
                sample_str_list sample_array_truth ∅ never never 1700086400
                batch_u2_u3 "users" loaded_session He eq_refl eq_refl) as Hload.
  destruct (transform_dataframe_for_schema _ _ _ _ _ _ _ _ _) as [dft|e] eqn:Hmap
    in Hload.
  - exact Hload.
  - vm_compute in Hmap. discriminate Hmap.
Defined.

(** C1, on the code: the batch with the keys [u1] and [u2] is loaded twice
    in Upsert mode into the table the initial load has filled with the same
    two rows.  Each run returns [(False, 0)], and the table has no rows
    after the first run and none after the second. *)
Theorem upsert_twice_loses_the_rows :
  let first := sample_load true 1700086400 batch_u1_u2 false loaded_session in
  let second := sample_load true 1700172800 batch_u1_u2 false first.2 in
  keys_of loaded_session "MOVEWORKS_USERS" = Some [Some (VStr "u1"); Some (VStr "u2")] ∧
  first.1 = Returns (false, 0) ∧
  keys_of first.2 "MOVEWORKS_USERS" = Some [] ∧
  second.1 = Returns (false, 0) ∧
  keys_of second.2 "MOVEWORKS_USERS" = Some [].
Proof. repeat split; vm_compute; reflexivity. Qed.

End LoadFacts.

(** ** Sync orchestrator *)

Module SyncFacts.
Import Text Schema Fetch Frame Mapper Warehouse Load Sync SyncMore MapperFacts.

Lemma alist_set_fresh {A} (l : list (string * A)) k v :
  k ∉ l.*1 → alist_set l k v = l ++ [(k, v)].
Proof.
  induction l as [|[k0 v0] l IH]; csimpl; [done|].
  rewrite not_elem_of_cons. intros [Hne Hk].
  rewrite decide_False by done. by rewrite IH.
Qed.

Lemma alist_get_elem_of {A} (l : list (string * A)) k v :
  NoDup l.*1 → (k, v) ∈ l → alist_get l k = Some v.
Proof.
  induction l as [|[k0 v0] l IH]; csimpl; intros Hnd Hin.
  - by apply elem_of_nil in Hin.
  - apply NoDup_cons in Hnd as [Hk0 Hnd].
    apply elem_of_cons in Hin as [[= -> ->]|Hin].
    + by rewrite decide_True.
    + rewrite decide_False; [by apply IH|].
      intros ->. apply Hk0. apply list_elem_of_fmap. by exists (k, v).
Qed.

Lemma alist_get_Some_elem_of {A} (l : list (string * A)) k v :
  alist_get l k = Some v → (k, v) ∈ l.
Proof.
  induction l as [|[k0 v0] l IH]; csimpl; [done|].
  case_decide; [intros [= ->]; subst; by left|]. intros. right. by apply IH.
Qed.

Lemma length_filter_all {A} (P : A → Prop) `{∀ x, Decision (P x)} (l : list A) :
  length (filter P l) = length l ↔ Forall P l.
Proof.
  induction l as [|x l IH].
  - split; [by constructor|done].
  - rewrite filter_cons. destruct (decide (P x)) as [HP|HP]; csimpl.
    + rewrite Forall_cons. split.
      * intros [= Hl]. split; [done|]. by apply IH.
      * intros [_ Hl]. f_equal. by apply IH.
    + split.
      * intros Hl. pose proof (length_filter P l). lia.
      * intros [? _]%Forall_cons. done.
Qed.

Section facts.

Variable json_dumps_dict : heap → dict → string.
Variable json_dumps : heap → val → string.
Variable py_str : heap → val → string.
Variable py_str_list : heap → dtype → list val → string.
Variable array_truth : heap → list val → option bool.
Variable source : nat → reply loc.
Variable fails : nat → bool.
Variable unsuccessful : nat → bool.
Variable time : string → Z.
Variable create_analytics_views : M ().

Abbreviation fetch := (fetch_data py_str source).
Abbreviation sync_one :=
  (sync_endpoint json_dumps_dict json_dumps py_str py_str_list array_truth source fails
     unsuccessful time).
Abbreviation sync_all :=
  (sync_endpoints json_dumps_dict json_dumps py_str py_str_list array_truth source fails
     unsuccessful time).
Abbreviation run :=
  (run_daily_sync json_dumps_dict json_dumps py_str py_str_list array_truth source fails
     unsuccessful time create_analytics_views).

Lemma record_entry_counted endpoint entry p :
  endpoint ∉ (load_summary p).*1 → counted p →
  counted (record_entry endpoint entry p) ∧
  (load_summary (record_entry endpoint entry p)).*1 = (load_summary p).*1 ++ [endpoint].
Proof.
  intros Hfresh Hc. unfold counted, record_entry in *. simpl.
  rewrite alist_set_fresh by done. rewrite filter_app, length_app, fmap_app.
  split; [|done]. rewrite filter_cons, filter_nil.
  destruct (decide (succeeded (endpoint, entry))) as [Hs|Hs];
    unfold succeeded in Hs; simpl in Hs.
  - rewrite Hs. simpl. lia.
  - apply not_true_is_false in Hs. rewrite Hs. simpl. lia.
Qed.

Lemma sync_endpoints_counted config fuel endpoints : ∀ w p w' p',
  sync_all config fuel endpoints w p = Some (w', p') →
  NoDup ((load_summary p).*1 ++ endpoints) →
  counted p →
  counted p' ∧ (load_summary p').*1 = (load_summary p).*1 ++ endpoints.
Proof.
  induction endpoints as [|endpoint rest IH]; intros w p w' p'; simpl.
  - intros [= <- <-] _ Hc. by rewrite app_nil_r.
  - destruct (sync_one config fuel endpoint w) as [[w1 entry]|]; [|done].
    intros Hrest Hnd Hc.
    assert (endpoint ∉ (load_summary p).*1) as Hfresh.
    { apply NoDup_app in Hnd as (_ & Hdisj & _). intros Hin.
      apply (Hdisj _ Hin). by left. }
    destruct (record_entry_counted endpoint entry p Hfresh Hc) as [Hc1 Hk1].
    apply IH in Hrest as [Hc' Hk']; [| |done].
    + split; [done|]. by rewrite Hk', Hk1, <- app_assoc.
    + by rewrite Hk1, <- app_assoc.
Qed.

Lemma all_succeeded_Forall (l : list (string * summary)) :
  l.*1 = ENDPOINTS → (all_succeeded l ↔ Forall succeeded l).
Proof.
  intros Hkeys.
  assert (NoDup l.*1) as Hnd.
  { rewrite Hkeys. by apply (bool_decide_unpack _); vm_compute. }
  unfold all_succeeded. rewrite Forall_forall. split.
  - intros Hall [k v] Hin.
    destruct (Hall k) as (entry & Hget & Hs).
    { rewrite <- Hkeys. apply list_elem_of_fmap. by exists (k, v). }
    rewrite (alist_get_elem_of l k v Hnd Hin) in Hget. by injection Hget as ->.
  - intros Hall endpoint Hin. rewrite <- Hkeys in Hin.
    apply list_elem_of_fmap in Hin as ([k v] & -> & Hin).
    exists v. split; [by apply alist_get_elem_of|]. by apply (Hall (k, v)).
Qed.

(** What the entry of an endpoint says, read from the fetch and from
    what the load returned or raised. *)
Lemma sync_endpoint_entry config fuel endpoint w w' entry :
  sync_one config fuel endpoint w = Some (w', entry) →
  ∃ w1 df,
    fetch fuel endpoint w = Some (w1, df) ∧
    table_name entry = table_name_of endpoint ∧
    sync_mode entry = mode_name config ∧
    if is_empty df then w' = w1 ∧ success entry = true ∧ rows_loaded entry = 0
    else
      let r := load_data_to_snowflake json_dumps_dict json_dumps py_str py_str_list
                 array_truth (w_heap w1) fails unsuccessful (use_upsert config)
                 (time endpoint) (table_name_of endpoint) df endpoint false
                 (w_conn w1) in
      w' = World (w_heap w1) (w_sent w1) r.2 ∧
      match r.1 with
      | Returns (ok, nrows) =>
          success entry = ok ∧ rows_loaded entry = (if ok then nrows else 0)
      | Raises _ => success entry = false ∧ rows_loaded entry = 0
      end.
Proof.
  unfold sync_endpoint.
  destruct (fetch fuel endpoint w) as [[w1 df]|]; [|done].
  intros Hentry. exists w1, df. split; [done|].
  destruct (is_empty df); cbn [negb] in *.
  - by injection Hentry as <- <-.
  - cbv zeta.
    destruct (load_data_to_snowflake _ _ _ _ _ _ _ _ _ _ _ _ _ _ _)
      as [[[ok nrows]|e] c]; by injection Hentry as <- <-.
Qed.

(** The worlds the loop goes through: each endpoint is processed on the
    world the one before it has left, whatever the entries so far say, and
    its entry is in the summary at the end. *)
Lemma sync_endpoints_trace config fuel endpoints : ∀ w p w' p',
  NoDup endpoints →
  sync_all config fuel endpoints w p = Some (w', p') →
  ∃ worlds,
    length worlds = S (length endpoints) ∧
    worlds !! 0 = Some w ∧
    (∀ i endpoint wi,
       endpoints !! i = Some endpoint → worlds !! i = Some wi →
       ∃ wi' entry,
         sync_one config fuel endpoint wi = Some (wi', entry) ∧
         worlds !! S i = Some wi' ∧
         alist_get (load_summary p') endpoint = Some entry) ∧
    (∀ k, k ∉ endpoints →
          alist_get (load_summary p') k = alist_get (load_summary p) k).
Proof.
  induction endpoints as [|endpoint rest IH]; intros w p w' p' Hnd; simpl.
  - intros [= <- <-]. exists [w]. split_and!; done.
  - apply NoDup_cons in Hnd as [Hfresh Hnd].
    destruct (sync_one config fuel endpoint w) as [[w1 entry]|] eqn:Hone; [|done].
    intros Hrest.
    destruct (IH _ _ _ _ Hnd Hrest) as (worlds & Hlen & Hfirst & Hstep & Hkeep).
    exists (w :: worlds). split_and!.
    + simpl. by rewrite Hlen.
    + done.
    + intros [|i] e wi; simpl.
      * intros [= <-] [= <-]. exists w1, entry. split_and!; [done..|].
        rewrite (Hkeep _ Hfresh). unfold record_entry. cbn [load_summary].
        by rewrite alist_get_set, decide_True.
      * intros He Hwi. by apply Hstep.
    + intros k [Hk Hrestk]%not_elem_of_cons. rewrite (Hkeep _ Hrestk).
      unfold record_entry. cbn [load_summary].
      by rewrite alist_get_set, decide_False.
Qed.

(** C9: a run that returns is fully successful exactly when every endpoint
    has succeeded, that is when the fetch of each gave no record or its load
    returned [(True, n)]; the entry of an endpoint is written from what the
    fetch and the load did: a success with zero rows when the fetch gives no
    record (and then nothing is sent to the warehouse), the flag and the row
    count the load returned, a failure with zero rows when the load raised;
    and whatever the entry of an endpoint says, the loop goes on: a run that
    passes its preconditions and returns has fetched, and loaded when there
    was a record, each of the five endpoints in the order of [ENDPOINTS], each
    on the world the one before it has left, and has an entry for each; and
    the run returns whenever every fetch does. *)
Theorem sync_outcome_and_isolation :
  (∀ config connect fuel h outcome load_summary,
     run config connect fuel h = Some (outcome, load_summary) →
     (outcome = true ↔ all_succeeded load_summary)) ∧
  (∀ config fuel endpoint w w1 df,
     fetch fuel endpoint w = Some (w1, df) →
     index df = 0 →
     sync_one config fuel endpoint w
     = Some (w1, Summary (table_name_of endpoint) 0 true (mode_name config))) ∧
  (∀ config fuel endpoint rest w p w1 entry,
     sync_one config fuel endpoint w = Some (w1, entry) →
     sync_all config fuel (endpoint :: rest) w p
     = sync_all config fuel rest w1 (record_entry endpoint entry p)) ∧
  (∀ config conn fuel h outcome load_summary,
     initial_load_completed config = true →
     run (Some config) (Some conn) fuel h = Some (outcome, load_summary) →
     load_summary.*1 = ENDPOINTS) ∧
  (∀ config connect fuel h,
     (∀ endpoint w, is_Some (fetch fuel endpoint w)) →
     is_Some (run config connect fuel h)) ∧
  (∀ config fuel endpoint w w' entry,
     sync_one config fuel endpoint w = Some (w', entry) →
     ∃ w1 df,
       fetch fuel endpoint w = Some (w1, df) ∧
       table_name entry = table_name_of endpoint ∧
       sync_mode entry = mode_name config ∧
       if is_empty df then w' = w1 ∧ success entry = true ∧ rows_loaded entry = 0
       else
         let r := load_data_to_snowflake json_dumps_dict json_dumps py_str
                    py_str_list array_truth (w_heap w1) fails unsuccessful
                    (use_upsert config) (time endpoint) (table_name_of endpoint)
                    df endpoint false (w_conn w1) in
         w' = World (w_heap w1) (w_sent w1) r.2 ∧
         match r.1 with
         | Returns (ok, nrows) =>
             success entry = ok ∧ rows_loaded entry = (if ok then nrows else 0)
         | Raises _ => success entry = false ∧ rows_loaded entry = 0
         end) ∧
  (∀ config conn fuel h outcome load_summary,
     initial_load_completed config = true →
     run (Some config) (Some conn) fuel h = Some (outcome, load_summary) →
     ∃ worlds,
       length worlds = S (length ENDPOINTS) ∧
       worlds !! 0 = Some (World h 0 conn) ∧
       (∀ i endpoint w,
          ENDPOINTS !! i = Some endpoint → worlds !! i = Some w →
          ∃ w' entry,
            sync_one config fuel endpoint w = Some (w', entry) ∧
            worlds !! S i = Some w' ∧
            alist_get load_summary endpoint = Some entry) ∧
       (outcome = true ↔
        ∀ i endpoint w,
          ENDPOINTS !! i = Some endpoint → worlds !! i = Some w →
          ∃ w1 df,
            fetch fuel endpoint w = Some (w1, df) ∧
            (is_empty df = true ∨
             ∃ nrows,
               (load_data_to_snowflake json_dumps_dict json_dumps py_str
                  py_str_list array_truth (w_heap w1) fails unsuccessful
                  (use_upsert config) (time endpoint) (table_name_of endpoint)
                  df endpoint false (w_conn w1)).1 = Returns (true, nrows)))).
Proof.
  assert (∀ config conn fuel h w p,
            sync_all config fuel ENDPOINTS (World h 0 conn) (Progress [] 0 0)
            = Some (w, p) →
            counted p ∧ (load_summary p).*1 = ENDPOINTS) as Hloop.
  { intros config conn fuel h w p Hsync.
    apply sync_endpoints_counted in Hsync as [Hc Hk]; [done| |done].
    by apply (bool_decide_unpack _); vm_compute. }
  assert (ENDPOINTS ≠ []) as Hne by done.
  assert (NoDup ENDPOINTS) as Hnd by by apply (bool_decide_unpack _); vm_compute.
  assert (∀ config connect fuel h outcome summary,
            run config connect fuel h = Some (outcome, summary) →
            (outcome = true ↔ all_succeeded summary)) as Hall.
  { intros config connect fuel h outcome summary. unfold run_daily_sync.
    assert (¬ all_succeeded []) as Hnone.
    { intros Hall. destruct (Hall "users") as (? & ? & _); [|done].
      by apply (bool_decide_unpack _); vm_compute. }
    destruct config as [config|]; [|by intros [= <- <-]].
    destruct (initial_load_completed config); cbn [negb]; [|by intros [= <- <-]].
    destruct connect as [conn|]; [|by intros [= <- <-]].
    destruct (sync_all config fuel ENDPOINTS (World h 0 conn) (Progress [] 0 0))
      as [[w p]|] eqn:Hsync; [|done].
    intros [= <- <-]. destruct (Hloop _ _ _ _ _ _ Hsync) as [Hc Hk].
    rewrite (all_succeeded_Forall _ Hk), <- length_filter_all.
    rewrite bool_decide_eq_true. unfold counted in Hc. rewrite Hc.
    assert (length (load_summary p) = 5) as ->; [|done].
    by rewrite <- (length_fmap fst), Hk. }
  split_and!.
  - exact Hall.
  - intros config fuel endpoint w w1 df Hfetch Hzero.
    unfold sync_endpoint, is_empty. by rewrite Hfetch, Hzero.
  - intros config fuel endpoint rest w p w1 entry Hone. simpl. by rewrite Hone.
  - intros config conn fuel h outcome summary Hinit. unfold run_daily_sync.
    rewrite Hinit. cbn [negb].
    destruct (sync_all config fuel ENDPOINTS (World h 0 conn) (Progress [] 0 0))
      as [[w p]|] eqn:Hsync; [|done].
    intros [= <- <-]. by destruct (Hloop _ _ _ _ _ _ Hsync).
  - intros config connect fuel h Hfetch. unfold run_daily_sync.
    destruct config as [config|]; [|done].
    destruct (negb _); [done|]. destruct connect as [conn|]; [|done].
    assert (∀ endpoints w p, is_Some (sync_all config fuel endpoints w p)) as Htotal.
    { induction endpoints as [|endpoint rest IH]; intros w p; simpl; [done|].
      unfold sync_endpoint.
      destruct (Hfetch endpoint w) as [[w1 df] ->].
      destruct (negb _); [|by apply IH].
      destruct (load_data_to_snowflake _ _ _ _ _ _ _ _ _ _ _ _ _ _ _)
        as [[[success nrows]|e] c]; by apply IH. }
    by destruct (Htotal ENDPOINTS (World h 0 conn) (Progress [] 0 0)) as [[w p] ->].
  - apply sync_endpoint_entry.
  - intros config conn fuel h outcome summary Hinit Hrun.
    pose proof (Hall _ _ _ _ _ _ Hrun) as Hout.
    unfold run_daily_sync in Hrun. rewrite Hinit in Hrun. cbn [negb] in Hrun.
    destruct (sync_all config fuel ENDPOINTS (World h 0 conn) (Progress [] 0 0))
      as [[w p]|] eqn:Hsync; [|done].
    injection Hrun as <- <-.
    destruct (sync_endpoints_trace _ _ _ _ _ _ _ Hnd Hsync)
      as (worlds & Hlen & Hfirst & Hstep & _).
    exists worlds. split_and!; [done..|].
    rewrite Hout. unfold all_succeeded. split.
    + intros Hsucc i endpoint wi Hi Hwi.
      destruct (Hstep i endpoint wi Hi Hwi) as (wi' & entry & Hone & _ & Hentry).
      destruct (Hsucc endpoint) as (entry' & Hentry' & Hok).
      { by eapply list_elem_of_lookup_2. }
      rewrite Hentry in Hentry'. injection Hentry' as <-.
      destruct (sync_endpoint_entry _ _ _ _ _ _ Hone)
        as (w1 & df & Hfetch & _ & _ & Hsays).
      exists w1, df. split; [done|].
      destruct (is_empty df); [by left|]. right. cbv zeta in Hsays.
      destruct Hsays as [_ Hsays].
      destruct (load_data_to_snowflake _ _ _ _ _ _ _ _ _ _ _ _ _ _ _).1
        as [[ok nrows]|e]; destruct Hsays as [Hs _]; [|congruence].
      exists nrows. congruence.
    + intros Hsucc endpoint Hin.
      apply list_elem_of_lookup_1 in Hin as [i Hi].
      destruct (lookup_lt_is_Some_2 worlds i) as [wi Hwi].
      { apply lookup_lt_Some in Hi. lia. }
      destruct (Hstep i endpoint wi Hi Hwi) as (wi' & entry & Hone & _ & Hentry).
      exists entry. split; [done|].
      destruct (Hsucc i endpoint wi Hi Hwi) as (w1 & df & Hfetch & Hok).
      destruct (sync_endpoint_entry _ _ _ _ _ _ Hone)
        as (w1' & df' & Hfetch' & _ & _ & Hsays).
      rewrite Hfetch in Hfetch'. injection Hfetch' as <- <-.
      destruct (is_empty df); [by destruct Hsays as (_ & ? & _)|].
      destruct Hok as [?|[nrows Hret]]; [done|]. cbv zeta in Hsays.
      destruct Hsays as [_ Hsays]. rewrite Hret in Hsays. by destruct Hsays.
Qed.

End facts.

(** A run in which no endpoint has data is fully successful, with five
    entries of zero rows. *)
Example run_without_data :
  sample_run no_data =
  Some (true,
        (λ endpoint, (endpoint, Summary (table_name_of endpoint) 0 true "UPSERT"))
          <$> ENDPOINTS).
Proof. vm_compute. reflexivity. Qed.

(** A run in which only the users have data: the four endpoints before
    are entered as successes, the load of the users fails, and the run is not
    fully successful. *)
Example run_with_one_user :
  sample_run one_user =
  Some (false,
        [("interactions", Summary "MOVEWORKS_INTERACTIONS" 0 true "UPSERT");
         ("conversations", Summary "MOVEWORKS_CONVERSATIONS" 0 true "UPSERT");
         ("plugin-calls", Summary "MOVEWORKS_PLUGIN_CALLS" 0 true "UPSERT");
         ("plugin-resources", Summary "MOVEWORKS_PLUGIN_RESOURCES" 0 true "UPSERT");
         ("users", Summary "MOVEWORKS_USERS" 0 false "UPSERT")]).
Proof. vm_compute. reflexivity. Qed.

(** The same source with [use_upsert] off: the load of the users returns
    [(True, 1)], the entry says so, and the run is fully successful. *)
Example run_with_one_user_appended :
  sample_append_run one_user =
  Some (true,
        [("interactions", Summary "MOVEWORKS_INTERACTIONS" 0 true "APPEND");
         ("conversations", Summary "MOVEWORKS_CONVERSATIONS" 0 true "APPEND");
         ("plugin-calls", Summary "MOVEWORKS_PLUGIN_CALLS" 0 true "APPEND");
         ("plugin-resources", Summary "MOVEWORKS_PLUGIN_RESOURCES" 0 true "APPEND");
         ("users", Summary "MOVEWORKS_USERS" 1 true "APPEND")]).
Proof. vm_compute. reflexivity. Qed.

End SyncFacts.

(** ** More on the source client *)

Module FetchExtras.
Import Fetch FetchMore FetchFacts.

Section facts.

Context {St Rec Flat : Type}.
Variable flatten_record : St → Rec → option (St * Flat).
Variable source : nat → reply Rec.
Variable endpoint : string.

Abbreviation step := (fetch_step flatten_record endpoint).
Abbreviation loop := (fetch_loop flatten_record source endpoint).
Abbreviation iter := (iterate flatten_record source endpoint).

Lemma step_aborts r (s : fetch_state St Flat) :
  aborts r = true → step r s = Break (after_request s).
Proof.
  unfold aborts, fetch_step, after_request. destruct r as [code body|]; [|done].
  case_bool_decide.
  - destruct body as [json_resp|]; [|done].
    by destruct (value json_resp).
  - case_bool_decide; [done|]. by destruct (is_transient code).
Qed.

(** X1: A permanent error ends the fetch on the spot: on an exception, a
    body that does not decode, a page without records or a status outside
    200, 429, 500, 502, 503 and 504, the loop breaks after that one request
    and the data, the page count and the state of the flattener are as they
    were. *)
Theorem permanent_error_ends_fetch (s : fetch_state St Flat) fuel :
  truthy (url s) = true →
  aborts (source (requests s)) = true →
  loop (S fuel) s = Some (after_request s).
Proof.
  intros Hurl Hab. cbn [fetch_loop]. by rewrite Hurl, step_aborts.
Qed.

Lemma flatten_page_prefix page : ∀ st (acc : list Flat) st' acc' ok,
  flatten_page flatten_record st acc page = (st', acc', ok) → acc `prefix_of` acc'.
Proof.
  induction page as [|record rest IH]; intros st acc st' acc' ok; simpl.
  - by intros [= _ <- _].
  - destruct (flatten_record st record) as [[st1 flattened]|].
    + intros Hrest%IH. etrans; [|done]. by apply prefix_app_r.
    + by intros [= _ <- _].
Qed.

Lemma step_grows r (s s' : fetch_state St Flat) :
  (step r s = Next s' ∨ step r s = Break s') →
  data s `prefix_of` data s' ∧ requests s' = S (requests s) ∧
  page_count s ≤ page_count s' ∧ slept s ≤ slept s'.
Proof.
  unfold fetch_step, sleep. destruct r as [code body|].
  - case_bool_decide.
    + destruct body as [json_resp|]; [|by intros [[=]|[= <-]]].
      destruct (value json_resp) as [|record rest] eqn:Hv;
        [by intros [[=]|[= <-]]|].
      rewrite <- Hv. cbn [store data].
      destruct (flatten_page flatten_record (store s) (data s) (value json_resp))
        as [[st data'] ok] eqn:Hp.
      apply flatten_page_prefix in Hp.
      destruct ok; intros [[= <-]|[= <-]]; simpl; repeat split; try done; lia.
    + case_bool_decide.
      * intros [[= <-]|[=]]; simpl; repeat split; try done; lia.
      * destruct (is_transient code); [|by intros [[=]|[= <-]]].
        case_bool_decide; intros [[= <-]|[= <-]]; simpl; repeat split;
          try done; lia.
  - by intros [[=]|[= <-]].
Qed.

(** X2: The fetch never drops what it has collected: when the loop ends, the
    data it returns starts with the data it had at any earlier point, and
    the counters of requests, pages and seconds slept have not gone back. *)
Theorem collected_data_is_kept fuel : ∀ (s s' : fetch_state St Flat),
  loop fuel s = Some s' →
  data s `prefix_of` data s' ∧ requests s ≤ requests s' ∧
  page_count s ≤ page_count s' ∧ slept s ≤ slept s'.
Proof.
  induction fuel as [|fuel IH]; intros s s'; cbn [fetch_loop];
    destruct (truthy (url s)); try done; try by intros [= <-].
  destruct (step (source (requests s)) s) as [s1|s1] eqn:Hstep.
  - intros (Hd & Hr & Hp & Hs)%IH.
    destruct (step_grows _ s s1 (or_introl Hstep)) as (Hd1 & Hr1 & Hp1 & Hs1).
    split; [by etrans|]. lia.
  - intros [= <-].
    destruct (step_grows _ s s1 (or_intror Hstep)) as (Hd1 & Hr1 & Hp1 & Hs1).
    split; [done|]. lia.
Qed.

(** X3: Exponential backoff: from a retry counter of zero, [k] transient
    errors in a row ([k] at most [MAX_RETRIES]) leave the loop running after
    pauses of 1, 2, 4, ... seconds, [2 ^ k - 1] seconds in all. *)
Theorem backoff_doubles k : ∀ (s : fetch_state St Flat),
  k ≤ MAX_RETRIES →
  truthy (url s) = true →
  retries s = 0 →
  (∀ i, i < k → ∃ code body,
       source (requests s + i) = Response code body ∧ is_transient code = true) →
  iter k s =
  Some (FetchState (url s) (data s) k (page_count s) (slept s + (2 ^ k - 1))
          (requests s + k) (store s)).
Proof.
  induction k as [|k IH]; intros s Hk Hurl Hret Hsrc.
  - simpl. destruct s; simpl in *. subst. do 2 f_equal; lia.
  - eapply iterate_snoc.
    + apply IH; [lia|done|done|]. intros i Hi. apply Hsrc. lia.
    + done.
    + cbn [requests]. destruct (Hsrc k) as (code & body & -> & Ht); [lia|].
      rewrite step_transient by done. cbn [retries].
      rewrite bool_decide_eq_true_2 by (unfold MAX_RETRIES in *; lia).
      cbn [url data page_count slept requests store].
      do 2 f_equal; [|lia].
      assert (2 ^ k > 0) by (apply Nat.neq_0_lt_0, Nat.pow_nonzero; lia).
      rewrite Nat.pow_succ_r'. lia.
Qed.

Lemma step_page json_resp (s : fetch_state St Flat) st data' :
  value json_resp ≠ [] →
  flatten_page flatten_record (store s) (data s) (value json_resp) = (st, data', true) →
  step (Response 200 (Some json_resp)) s =
  Next (FetchState (next_link json_resp) data' 0 (S (page_count s))
          (slept s + page_pause endpoint) (S (requests s)) st).
Proof.
  intros Hne Hp. unfold fetch_step. rewrite bool_decide_eq_true_2 by done.
  destruct (value json_resp) as [|record rest] eqn:Hv; [done|].
  cbn [store data]. by rewrite Hp.
Qed.

(** X4: Pagination: when the source answers with pages that all have records
    and all flatten, each but the last carrying a next link and the last
    carrying none (or an empty one), the fetch ends after one request a page,
    and its data is the data it had followed by the records of all the pages,
    flattened in order. *)
Theorem pagination_collects_all_pages bodies : ∀ (s : fetch_state St Flat) last st data' fuel,
  truthy (url s) = true →
  Forall (λ b, value b ≠ [] ∧ truthy (next_link b) = true) bodies →
  value last ≠ [] →
  truthy (next_link last) = false →
  (∀ i b, (bodies ++ [last]) !! i = Some b →
          source (requests s + i) = Response 200 (Some b)) →
  flatten_pages flatten_record (store s) (data s) (value <$> bodies ++ [last])
  = (st, data', true) →
  loop (S (length bodies) + fuel) s =
  Some (FetchState (next_link last) data' 0 (page_count s + S (length bodies))
          (slept s + S (length bodies) * page_pause endpoint)
          (requests s + S (length bodies)) st).
Proof.
  induction bodies as [|b bodies IH]; intros s last st data' fuel Hurl Hall Hlast
    Hlink Hsrc Hflat.
  - simpl in Hflat.
    destruct (flatten_page _ _ _ _) as [[st1 data1] ok] eqn:Hp.
    destruct ok; [|done]. injection Hflat as <- <-.
    change (S (length (@nil (json_body Rec))) + fuel) with (S fuel).
    cbn [fetch_loop]. rewrite Hurl.
    specialize (Hsrc 0 last eq_refl). rewrite Nat.add_0_r in Hsrc.
    rewrite Hsrc, (step_page _ _ _ _ Hlast Hp).
    destruct fuel; cbn [fetch_loop url length]; rewrite Hlink;
      do 2 f_equal; lia.
  - apply Forall_cons in Hall as [[Hb Hbl] Hall].
    cbn [fmap list_fmap app flatten_pages] in Hflat.
    change (list_fmap _ _ value (bodies ++ [last])) with (value <$> bodies ++ [last])
      in Hflat.
    destruct (flatten_page _ _ _ _) as [[st1 data1] ok] eqn:Hp.
    destruct ok; [|done].
    change (S (length (b :: bodies)) + fuel) with (S (S (length bodies) + fuel)).
    cbn [fetch_loop]. rewrite Hurl.
    pose proof (Hsrc 0 b eq_refl) as H0. rewrite Nat.add_0_r in H0.
    rewrite H0, (step_page _ _ _ _ Hb Hp).
    rewrite (IH _ last st data' fuel);
      cbn [url data store requests page_count slept length];
      [do 2 f_equal; lia|done..| |done].
    intros i b' Hi. rewrite <- (Hsrc (S i) b' Hi). f_equal. lia.
Qed.

End facts.

Lemma permanent_error_ends_fetch_witness :
  fetch_loop plain_flatten (λ _, Response 404 None) "users" 1 (initial "users" () 0)
  = Some (after_request (initial "users" () 0)).
Proof.
  apply (permanent_error_ends_fetch plain_flatten (λ _, Response 404 None) "users"
           (initial "users" () 0) 0); reflexivity.
Defined.

Lemma collected_data_is_kept_witness :
  let s := FetchState (Some (BASE_API +:+ "/conversations?page=2")) ["r1"] 0 1 0 1 () in
  ∃ s', fetch_loop plain_flatten page_then_errors "conversations" 6 s = Some s' ∧
        data s `prefix_of` data s' ∧ requests s ≤ requests s' ∧
        page_count s ≤ page_count s' ∧ slept s ≤ slept s'.
Proof.
  exists (FetchState (Some (BASE_API +:+ "/conversations?page=2")) ["r1"] 5 1 31 7 ()).
  split; [vm_compute; reflexivity|].
  apply (collected_data_is_kept plain_flatten page_then_errors "conversations" 6).
  vm_compute. reflexivity.
Defined.

Lemma backoff_doubles_witness :
  let s := FetchState (Some (BASE_API +:+ "/conversations?page=2")) ["r1"] 0 1 0 1 () in
  iterate plain_flatten page_then_errors "conversations" 5 s =
  Some (FetchState (url s) (data s) 5 (page_count s) (slept s + (2 ^ 5 - 1))
          (requests s + 5) (store s)).
Proof.
  apply (backoff_doubles plain_flatten page_then_errors "conversations" 5).
  - unfold MAX_RETRIES. lia.
  - reflexivity.
  - reflexivity.
  - intros i Hi. exists 503%Z, None. split; reflexivity.
Defined.

Lemma pagination_collects_all_pages_witness :
  fetch_loop plain_flatten
    (λ n, match n with
          | 0 => Response 200 (Some first_page)
          | _ => Response 200 (Some last_page)
          end)
    "users" (2 + 0) (initial "users" () 0) =
  Some (FetchState None ["r1"; "r2"] 0 (0 + 2) (0 + 2 * page_pause "users") (0 + 2) ()).
Proof.
  apply (pagination_collects_all_pages plain_flatten _ "users" [first_page]
           (initial "users" () 0) last_page () ["r1"; "r2"] 0).
  - reflexivity.
  - repeat constructor; done.
  - done.
  - reflexivity.
  - intros [|[|i]] b; simpl; intros [= <-]; reflexivity.
  - reflexivity.
Defined.

End FetchExtras.

(** ** More on the record flattener *)

Module FlattenExtras.
Import PyFacts Flatten FlattenMore FlattenFacts.

Section facts.

Variable py_str : heap → val → string.

Lemma as_dict_closed f h h1 v :
  f ∉ dom h → writes_only f h h1 → (∀ l, v = VRef l → l ∈ dom h) →
  as_dict h1 v = as_dict h v.
Proof.
  intros Hf [Hne _] Hcl. destruct v; simpl; try done.
  rewrite Hne; [done|]. intros ->. by apply Hf, Hcl.
Qed.

(** The two tests of [flatten_record], read on the heap before the call. *)
Lemma detail_test f h h1 d1 d :
  f ∉ dom h → writes_only f h h1 → h1 !! f = Some (ODict d1) →
  dict_get d1 "detail" = dict_get d "detail" → detail_closed h d →
  getitem h1 f "detail" ≫= as_dict h1 = dict_get d "detail" ≫= as_dict h.
Proof.
  intros Hf Hw H1 Hd Hcl. unfold getitem. rewrite H1, Hd.
  destruct (dict_get d "detail") as [v|] eqn:Hv; [|done]. simpl.
  apply (as_dict_closed f); [done..|]. intros l ->. by apply Hcl.
Qed.

Lemma external_ids_test f h h1 d1 d :
  f ∉ dom h → writes_only f h h1 → h1 !! f = Some (ODict d1) →
  dict_get d1 "external_ids" = dict_get d "external_ids" →
  getitem h1 f "external_ids" ≫= as_list h1 = dict_get d "external_ids" ≫= as_list h.
Proof.
  intros Hf Hw H1 Hd. unfold getitem. rewrite H1, Hd.
  destruct (dict_get d "external_ids") as [v|]; [|done]. simpl.
  by apply (as_list_writes_only f).
Qed.

Lemma flatten_no_nested_field h record d :
  h !! record = Some (ODict d) →
  detail_closed h d →
  no_nested_field h d →
  flatten_record py_str h record
  = Some (<[fresh (dom h) := ODict d]> h, fresh (dom h)).
Proof.
  intros Hr Hcl [Hdet Hext]. unfold flatten_record. rewrite Hr.
  pose proof (is_fresh (dom h)) as Hfresh.
  set (f := fresh (dom h)) in *. set (h1 := <[f := ODict d]> h).
  assert (writes_only f h h1) as Hw by apply writes_only_alloc.
  assert (h1 !! f = Some (ODict d)) as H1 by apply lookup_insert_eq.
  rewrite (detail_test f h h1 d d), Hdet by done.
  by rewrite (external_ids_test f h h1 d d), Hext.
Qed.

(** X5: A record without nested fields passes through unchanged: the
    flattener returns a new dictionary with exactly the fields of the
    record, and the rest of the heap is as it was. *)
Theorem flat_record_is_copied h record d :
  h !! record = Some (ODict d) →
  detail_closed h d →
  no_nested_field h d →
  flatten_record py_str h record
  = Some (<[fresh (dom h) := ODict d]> h, fresh (dom h)).
Proof. apply flatten_no_nested_field. Qed.

(** What [flatten_record] returns has no nested field left. *)
Lemma flatten_record_result h record d h' f :
  h !! record = Some (ODict d) →
  detail_closed h d →
  flatten_record py_str h record = Some (h', f) →
  ∃ d', h' !! f = Some (ODict d') ∧ detail_closed h' d' ∧ no_nested_field h' d'.
Proof.
  intros Hr Hcl. unfold flatten_record. rewrite Hr.
  pose proof (is_fresh (dom h)) as Hfresh.
  set (f0 := fresh (dom h)) in *. set (h1 := <[f0 := ODict d]> h).
  assert (writes_only f0 h h1) as Hw1 by apply writes_only_alloc.
  assert (h1 !! f0 = Some (ODict d)) as H1 by apply lookup_insert_eq.
  rewrite (detail_test f0 h h1 d d) by done.
  (* the detail phase *)
  assert (∃ h3 d3,
            match dict_get d "detail" ≫= as_dict h with
            | Some detail => flatten_detail py_str f0 (popitem h1 f0 "detail") detail
            | None => h1
            end = h3 ∧
            writes_only f0 h h3 ∧ h3 !! f0 = Some (ODict d3) ∧
            dict_get d3 "detail" ≫= as_dict h = None ∧
            (∀ l, dict_get d3 "detail" = Some (VRef l) → l ∈ dom h) ∧
            dict_get d3 "external_ids" = dict_get d "external_ids")
    as (h3 & d3 & -> & Hw3 & H3 & Hdet3 & Hcl3 & Hext3).
  { destruct (dict_get d "detail" ≫= as_dict h) as [detail|] eqn:Hdet.
    - assert (popitem h1 f0 "detail" !! f0 = Some (ODict (dict_pop d "detail")))
        as H2 by by apply popitem_lookup.
      destruct (foldl_setitem (λ kv : string * val, "detail_" +:+ kv.1)
                  (λ h kv, detail_value py_str h kv.2) f0 detail _ _ H2)
        as [Hne (d3 & H3 & Hk)].
      eexists _, d3. split; [done|].
      assert (dict_get d3 "detail" = None) as Hnone.
      { rewrite Hk by (intros x _; apply detail_key_not_detail).
        apply dict_get_pop_eq. }
      split_and!.
      + by apply writes_only_flatten_detail, writes_only_popitem.
      + exact H3.
      + by rewrite Hnone.
      + by rewrite Hnone.
      + rewrite Hk by (intros x _; apply detail_key_not_external_ids).
        by apply dict_get_pop_ne.
    - by eexists h1, d. }
  rewrite (external_ids_test f0 h h3 d3 d) by done.
  (* the identities phase *)
  assert (∃ h5 d5,
            match dict_get d "external_ids" ≫= as_list h with
            | Some ids => flatten_external_ids f0 (popitem h3 f0 "external_ids") ids
            | None => h3
            end = h5 ∧
            writes_only f0 h h5 ∧ h5 !! f0 = Some (ODict d5) ∧
            dict_get d5 "detail" = dict_get d3 "detail" ∧
            dict_get d5 "external_ids" ≫= as_list h = None)
    as (h5 & d5 & -> & Hw5 & H5 & Hdet5 & Hext5).
  { destruct (dict_get d "external_ids" ≫= as_list h) as [ids|] eqn:Hext.
    - assert (popitem h3 f0 "external_ids" !! f0
              = Some (ODict (dict_pop d3 "external_ids"))) as H4
        by by apply popitem_lookup.
      destruct (flatten_external_ids_spec f0 (imap pair ids) _ _ H4)
        as [Hne (d5 & H5 & Hk)].
      eexists _, d5. split; [done|]. split_and!.
      + by apply writes_only_flatten_external_ids, writes_only_popitem.
      + exact H5.
      + rewrite Hk by done. by apply dict_get_pop_ne.
      + rewrite Hk by done. by rewrite dict_get_pop_eq.
    - eexists h3, d3. split_and!; try done. by rewrite Hext3. }
  intros [= <- <-]. exists d5.
  assert (∀ l, dict_get d5 "detail" = Some (VRef l) → l ∈ dom h) as Hcl5.
  { intros l Hl. apply Hcl3. by rewrite <- Hdet5. }
  split; [done|]. split; [|split].
  - intros l Hl. apply elem_of_dom. destruct Hw5 as [Hne _].
    rewrite Hne; [by apply elem_of_dom, Hcl5|].
    intros ->. by apply Hfresh, Hcl5.
  - destruct (dict_get d5 "detail") as [v|] eqn:Hv; [|done]. simpl.
    rewrite (as_dict_closed f0 h h5 v); [|done..|].
    + by rewrite <- Hdet5 in Hdet3.
    + intros l ->. by apply Hcl5.
  - destruct (dict_get d5 "external_ids") as [v|] eqn:Hv; [|done]. simpl.
    by rewrite (as_list_writes_only f0 h h5).
Qed.

(** X6: Flattening is idempotent on every record: what [flatten_record]
    returns has no nested field left, so flattening it again gives a
    dictionary with the same fields. *)
Theorem flatten_record_idempotent h record d :
  h !! record = Some (ODict d) →
  detail_closed h d →
  ∃ h1 f1 d1 h2 f2,
    flatten_record py_str h record = Some (h1, f1) ∧
    h1 !! f1 = Some (ODict d1) ∧
    no_nested_field h1 d1 ∧
    flatten_record py_str h1 f1 = Some (h2, f2) ∧
    h2 !! f2 = Some (ODict d1).
Proof.
  intros Hr Hcl.
  destruct (flatten_record_writes py_str h record d Hr) as (h1 & Hf & _).
  destruct (flatten_record_result h record d h1 _ Hr Hcl Hf)
    as (d1 & H1 & Hcl1 & Hflat1).
  eexists h1, _, d1, _, _. split; [done|]. split; [done|]. split; [done|].
  split; [by apply flatten_no_nested_field|]. apply lookup_insert_eq.
Qed.

End facts.

Lemma flat_record_is_copied_witness :
  flatten_record str_scalar sample_heap 5%positive
  = Some (<[fresh (dom sample_heap) := ODict [("system", VStr "okta")]]> sample_heap,
          fresh (dom sample_heap)).
Proof.
  apply (flat_record_is_copied str_scalar sample_heap 5%positive).
  - reflexivity.
  - intros l. discriminate.
  - split; reflexivity.
Defined.

Lemma flatten_record_idempotent_witness :
  ∃ h1 f1 d1 h2 f2,
    flatten_record str_scalar sample_heap 1%positive = Some (h1, f1) ∧
    h1 !! f1 = Some (ODict d1) ∧
    no_nested_field h1 d1 ∧
    flatten_record str_scalar h1 f1 = Some (h2, f2) ∧
    h2 !! f2 = Some (ODict d1).
Proof.
  apply (flatten_record_idempotent str_scalar sample_heap 1%positive sample_record).
  - reflexivity.
  - intros l [= <-]. apply elem_of_dom. by eexists.
Defined.

End FlattenExtras.

(** ** Cleaning of illegal characters *)

Module CleanExtras.
Import Text Frame Sync MapperFacts.

Lemma strip_illegal_filter s :
  String.list_ascii_of_string (strip_illegal s)
  = filter (λ c, is_illegal_char c = false) (String.list_ascii_of_string s).
Proof.
  induction s as [|c s IH]; [done|].
  cbn [strip_illegal String.list_ascii_of_string]. rewrite filter_cons.
  destruct (is_illegal_char c) eqn:Hc.
  - by rewrite decide_False.
  - rewrite decide_True by done. cbn [String.list_ascii_of_string]. by rewrite IH.
Qed.

Lemma strip_illegal_idemp s : strip_illegal (strip_illegal s) = strip_illegal s.
Proof.
  induction s as [|c s IH]; [done|]. cbn [strip_illegal].
  destruct (is_illegal_char c) eqn:Hc; [done|].
  cbn [strip_illegal]. by rewrite Hc, IH.
Qed.

Lemma remove_illegal_chars_idemp v :
  remove_illegal_chars (remove_illegal_chars v) = remove_illegal_chars v.
Proof. destruct v; simpl; try done. by rewrite strip_illegal_idemp. Qed.

Lemma alist_get_fmap_values {A B} (f : A → B) (l : list (string * A)) k :
  alist_get ((λ kv : string * A, (kv.1, f kv.2)) <$> l) k = f <$> alist_get l k.
Proof.
  induction l as [|[k0 v0] l IH]; csimpl; [done|]. by case_decide.
Qed.

(** X7: [clean_illegal_chars] keeps the shape of the frame (the rows and the
    column names), rewrites every cell by [remove_illegal_chars], which
    leaves a value that is not a string alone and takes out of a string
    exactly the characters 0-8, 11, 12 and 14-31, the others staying in
    order; cleaning twice is cleaning once. *)
Theorem clean_illegal_chars_strips :
  (∀ df, index (clean_illegal_chars df) = index df ∧
         names (clean_illegal_chars df) = names df) ∧
  (∀ df col, column (clean_illegal_chars df) col
             = (λ cells : list val, remove_illegal_chars <$> cells) <$> column df col) ∧
  (∀ v, (∀ s, v ≠ VStr s) → remove_illegal_chars v = v) ∧
  (∀ s, String.list_ascii_of_string (strip_illegal s)
        = filter (λ c, is_illegal_char c = false) (String.list_ascii_of_string s)) ∧
  (∀ df, clean_illegal_chars (clean_illegal_chars df) = clean_illegal_chars df).
Proof.
  split_and!.
  - intros df. split; [done|]. unfold names, clean_illegal_chars. simpl.
    rewrite <- list_fmap_compose. by apply list_fmap_ext.
  - intros df col. apply alist_get_fmap_values.
  - intros v Hv. destruct v; try done. by destruct (Hv s).
  - apply strip_illegal_filter.
  - intros df. unfold clean_illegal_chars. simpl. f_equal.
    rewrite <- list_fmap_compose. apply list_fmap_ext. intros i [k cells] _. simpl.
    f_equal. rewrite <- list_fmap_compose. apply list_fmap_ext.
    intros j v _. apply remove_illegal_chars_idemp.
Qed.

End CleanExtras.

(** ** More on the load engine *)

Module LoadExtras.
Import Text Schema Fetch Frame Mapper Warehouse Load LoadMore MapperFacts LoadFacts.

Section facts.

Variable json_dumps_dict : heap → dict → string.
Variable json_dumps : heap → val → string.
Variable py_str : heap → val → string.
Variable py_str_list : heap → dtype → list val → string.
Variable array_truth : heap → list val → option bool.
Variable h : heap.
Variable fails : nat → bool.
Variable unsuccessful : nat → bool.

Abbreviation upsert := (upsert_data_to_snowflake fails unsuccessful).
Abbreviation load :=
  (load_data_to_snowflake json_dumps_dict json_dumps py_str py_str_list array_truth h
     fails unsuccessful).
Abbreviation transform :=
  (transform_dataframe_for_schema json_dumps_dict json_dumps py_str py_str_list array_truth h).

Lemma create_temp_table_calls temp_table_name table_name c :
  ∃ e c' calls,
    create_temp_table fails temp_table_name table_name c = (Raises e, c') ∧
    tables c' = tables c ∧
    history c' = history c ++ calls ∧
    Forall (λ k, writes_rows k = false) calls.
Proof.
  unfold create_temp_table.
  destruct (get_table_schema table_name) as [schema_sql|] eqn:Hs.
  - edestruct (execute_refused fails
                 (CreateOrReplaceTable
                    (as_temporary (replace_names table_name temp_table_name
                                     (without_primary_key schema_sql)))) c)
      as [e He].
    { cbn [statement_names forallb]. by rewrite (staging_ddl_target _ _ _ Hs). }
    unfold bind. rewrite He. eexists _, _, [_]. split_and!; try done.
    by repeat constructor.
  - eexists _, _, []. split_and!; try done. by rewrite app_nil_r.
Qed.

Lemma upsert_outcome time table_name df endpoint c :
  (upsert time table_name df endpoint c).1 = Returns (false, 0) ∧
  (∀ name, name ≠ resolve (temp_name table_name time) →
           tables (upsert time table_name df endpoint c).2 !! name
           = tables c !! name) ∧
  ∃ calls,
    history (upsert time table_name df endpoint c).2 = history c ++ calls ∧
    Forall (λ k, writes_rows k = false) calls.
Proof.
  unfold upsert_data_to_snowflake. set (temp := temp_name table_name time).
  destruct (staging_scope_spec fails temp
              (upsert_body fails unsuccessful temp table_name df endpoint) c)
    as [Hr Hc].
  destruct (create_temp_table_calls temp table_name c)
    as (e & cb & calls & Hcreate & Ht & Hh & Hcalls).
  assert (upsert_body fails unsuccessful temp table_name df endpoint c
          = (Raises e, cb)) as Hbody.
  { unfold upsert_body, bind. by rewrite Hcreate. }
  rewrite Hbody in Hr, Hc. simpl in Hr, Hc. rewrite Hr, Hc.
  destruct (drop_staging_spec fails temp cb) as (_ & Hhd & Htd & _).
  split; [done|]. split.
  - intros name Hname. destruct Htd as [->| ->]; rewrite ?Ht; [done|].
    by apply lookup_delete_ne.
  - exists (calls ++ [Execute (DropTableIfExists temp)]).
    rewrite Hhd, Hh, <- app_assoc. split; [done|].
    apply Forall_app. split; [done|]. by repeat constructor.
Qed.

(** X9: The Upsert never writes a row: for every table, frame and session,
    [upsert_data_to_snowflake] returns [(False, 0)], sends neither a bulk
    load nor a MERGE, and leaves every table but one of the staging name as
    it was. *)
Theorem upsert_never_writes time table_name df endpoint c :
  (upsert time table_name df endpoint c).1 = Returns (false, 0) ∧
  (∀ name, name ≠ resolve (temp_name table_name time) →
           tables (upsert time table_name df endpoint c).2 !! name
           = tables c !! name) ∧
  ∃ calls,
    history (upsert time table_name df endpoint c).2 = history c ++ calls ∧
    Forall (λ k, writes_rows k = false) calls.
Proof. apply upsert_outcome. Qed.

(** In Upsert mode a load returns [(False, 0)] or raises. *)
Lemma upsert_load_outcome time table_name df endpoint c :
  (load true time table_name df endpoint false c).1 = Returns (false, 0) ∨
  ∃ e, (load true time table_name df endpoint false c).1 = Raises e.
Proof.
  unfold load_data_to_snowflake. destruct (is_empty df); [by left|].
  unfold bind, pure_call.
  destruct (transform time df endpoint) as [dft|e]; [|right; by exists e].
  destruct (create_table_if_not_exists fails table_name c) as [[[]|e] c1].
  - left. apply upsert_outcome.
  - right. by exists e.
Qed.

Lemma names_drop_column df col :
  names (drop_column df col) = filter (λ c, c ≠ col) (names df).
Proof.
  unfold names, drop_column; simpl.
  induction (columns df) as [|[k v] l IH]; [done|].
  rewrite filter_cons. csimpl. rewrite filter_cons.
  repeat case_decide; csimpl; by rewrite ?IH.
Qed.

(** What the five tables have in common. *)
Lemma endpoint_table now df endpoint dft :
  endpoint ∈ ENDPOINTS →
  transform now df endpoint = Returns dft →
  ∃ ddl,
    get_table_schema (table_name_of endpoint) = Some ddl ∧
    format_table_name ddl (table_name_of endpoint)
    = CreateTable (table_name_of endpoint) false (ddl_columns ddl) (Some "ID") ∧
    valid_identifier (table_name_of endpoint) = true ∧
    upper (table_name_of endpoint) = table_name_of endpoint ∧
    names dft = col_name <$> ddl_columns ddl ∧
    "LOAD_TIMESTAMP" ∈ col_name <$> ddl_columns ddl ∧
    (∀ r, row_accepted (ddl_columns ddl) r = has_id r).
Proof.
  intros He Hdft.
  assert (∃ ddl mapping,
            get_table_schema (table_name_of endpoint) = Some ddl ∧
            column_mapping endpoint = Some mapping ∧
            add_name (foldl add_name [] mapping.*2) "LOAD_TIMESTAMP"
            = col_name <$> ddl_columns ddl ∧
            format_table_name ddl (table_name_of endpoint)
            = CreateTable (table_name_of endpoint) false (ddl_columns ddl) (Some "ID") ∧
            valid_identifier (table_name_of endpoint) = true ∧
            upper (table_name_of endpoint) = table_name_of endpoint ∧
            "LOAD_TIMESTAMP" ∈ col_name <$> ddl_columns ddl ∧
            (∀ r, row_accepted (ddl_columns ddl) r = has_id r))
    as (ddl & mapping & Hddl & Hmap & Hcols & Hfmt & Hvalid & Hup & Hlt & Hrow).
  { unfold ENDPOINTS in He. set_unfold in He.
    destruct He as [->|[->|[->|[->|[->|[]]]]]]; eexists _, _;
      (split_and!; [reflexivity..| |];
       [by apply (bool_decide_unpack _); vm_compute
       |intros r; unfold row_accepted, has_id; cbn;
        by destruct (is_null_value (dict_get r "ID"))]). }
  exists ddl. split_and!; try done.
  unfold transform_dataframe_for_schema, and_then in Hdft. rewrite Hmap in Hdft.
  destruct (with_special_columns _ _ _ _ _ _ _ _ _) as [d|e]; [|done].
  injection Hdft as <-. by rewrite names_set_scalar, names_foldl_map_column.
Qed.

(** X10: A load that is not an Upsert (an initial load, or a daily load with
    [use_upsert] off) of a non-empty batch that the mapper maps, into the
    table of an endpoint,
    when the two calls go through at the warehouse's end: if every row of the
    batch has an [ID], the load returns [(True, n)] for the [n] rows of the
    batch and the table then holds the rows of the batch and no other,
    whatever it held before and also in the mode that is called append;
    if a row has no [ID], the load raises and the table is left empty. *)
Theorem load_leaves_only_the_batch use_upsert time df endpoint is_initial_load dft c :
  endpoint ∈ ENDPOINTS →
  is_empty df = false →
  transform time df endpoint = Returns dft →
  is_initial_load = true ∨ use_upsert = false →
  fails (length (history c)) = false →
  fails (S (length (history c))) = false →
  unsuccessful (S (length (history c))) = false →
  let batch := drop_column dft "LOAD_TIMESTAMP" in
  let result :=
    load use_upsert time (table_name_of endpoint) df endpoint is_initial_load c in
  ∃ ddl,
    get_table_schema (table_name_of endpoint) = Some ddl ∧
    if forallb has_id (rows batch) then
      result.1 = Returns (true, index batch) ∧
      t_rows <$> tables result.2 !! table_name_of endpoint
      = Some (loaded_row (ddl_columns ddl) (clock c + 2) <$> rows batch)
    else
      result.1 = Raises ProgrammingError ∧
      t_rows <$> tables result.2 !! table_name_of endpoint = Some [].
Proof.
  intros He Hdf Hdft Hmode Hf0 Hf1 Hu1. cbv zeta.
  destruct (endpoint_table time df endpoint dft He Hdft)
    as (ddl & Hddl & Hfmt & Hvalid & Hup & Hnames & Hlt & Hrow).
  exists ddl. split; [done|].
  set (tn := table_name_of endpoint) in *.
  set (c1 := Conn (<[tn := Table (ddl_columns ddl) false (Some "ID") []]> (tables c))
                  (clock c + 1)
                  (history c ++ [Execute (CreateOrReplaceTable
                                            (format_table_name ddl tn))])).
  assert (create_table_if_not_exists fails tn c = (Returns (), c1)) as Hcreate.
  { unfold create_table_if_not_exists. rewrite Hddl.
    unfold bind, Warehouse.execute. rewrite Hf0.
    cbn [statement_names forallb]. rewrite Hfmt.
    cbn [ddl_target ddl_temporary ddl_columns ddl_primary_key].
    rewrite Hvalid. cbn [andb negb].
    unfold resolve. rewrite Hup. unfold ret, record_call, c1.
    cbn [tables clock history]. by rewrite Hfmt. }
  assert (drop_columns dft "LOAD_TIMESTAMP" c1
          = (Returns (drop_column dft "LOAD_TIMESTAMP"), c1)) as Hdrop.
  { unfold drop_columns, has_column. rewrite Hnames.
    by rewrite bool_decide_eq_true_2. }
  set (batch := drop_column dft "LOAD_TIMESTAMP") in *.
  assert (∀ overwrite,
            load use_upsert time tn df endpoint is_initial_load c
            = Warehouse.write_pandas fails unsuccessful batch tn overwrite c1 →
            if forallb has_id (rows batch) then
              (load use_upsert time tn df endpoint is_initial_load c).1
              = Returns (true, index batch) ∧
              t_rows <$> tables (load use_upsert time tn df endpoint is_initial_load c).2
                         !! tn
              = Some (loaded_row (ddl_columns ddl) (clock c + 2) <$> rows batch)
            else
              (load use_upsert time tn df endpoint is_initial_load c).1
              = Raises ProgrammingError ∧
              t_rows <$> tables (load use_upsert time tn df endpoint is_initial_load c).2
                         !! tn = Some []) as Hwrite.
  { intros overwrite ->. unfold Warehouse.write_pandas.
    assert (length (history c1) = S (length (history c))) as ->.
    { unfold c1. cbn [history]. rewrite length_app. simpl. lia. }
    rewrite Hf1, Hu1, Hvalid. cbn [negb]. unfold resolve. rewrite Hup.
    unfold record_call. cbn [tables clock history].
    assert (tables c1 !! tn
            = Some (Table (ddl_columns ddl) false (Some "ID") [])) as ->.
    { unfold c1. cbn [tables]. apply lookup_insert_eq. }
    cbn [t_columns t_rows t_temporary t_primary_key]. unfold loaded_rows.
    rewrite bool_decide_eq_true_2; last first.
    { unfold batch. rewrite names_drop_column, Hnames.
      intros x Hx. apply list_elem_of_filter in Hx. by destruct Hx. }
    cbn [andb].
    assert (forallb (row_accepted (ddl_columns ddl)) (rows batch)
            = forallb has_id (rows batch)) as ->.
    { induction (rows batch) as [|r l IH]; [done|]. simpl. by rewrite Hrow, IH. }
    destruct (forallb has_id (rows batch)); cbn [fst snd tables].
    - split; [done|]. rewrite lookup_insert_eq. csimpl.
      replace (clock c + 1 + 1)%Z with (clock c + 2)%Z by lia.
      by destruct overwrite.
    - split; [done|]. unfold c1. cbn [tables]. by rewrite lookup_insert_eq. }
  destruct Hmode as [->| ->].
  - apply (Hwrite true). unfold load_data_to_snowflake. rewrite Hdf.
    unfold bind, pure_call. fold tn. rewrite Hdft, Hcreate, Hdrop, Hup.
    by destruct (Warehouse.write_pandas _ _ _ _ _ _) as [[] ?].
  - destruct is_initial_load.
    + apply (Hwrite true). unfold load_data_to_snowflake. rewrite Hdf.
      unfold bind, pure_call. fold tn. rewrite Hdft, Hcreate, Hdrop, Hup.
      by destruct (Warehouse.write_pandas _ _ _ _ _ _) as [[] ?].
    + apply (Hwrite false). unfold load_data_to_snowflake. rewrite Hdf.
      unfold bind, pure_call. fold tn. rewrite Hdft, Hcreate, Hdrop, Hup.
      by destruct (Warehouse.write_pandas _ _ _ _ _ _) as [[] ?].
Qed.

Lemma bind_tables {A B} (m : M A) (k : A → M B) name :
  (∀ c, tables (m c).2 !! name = tables c !! name) →
  (∀ a c, tables (k a c).2 !! name = tables c !! name) →
  ∀ c, tables (bind m k c).2 !! name = tables c !! name.
Proof.
  intros Hm Hk c. unfold bind. specialize (Hm c).
  destruct (m c) as [[a|e] c1]; simpl in *; [|done]. by rewrite Hk.
Qed.

Lemma create_tables ddl name c :
  name ≠ resolve (ddl_target ddl) →
  tables (Warehouse.execute fails (CreateOrReplaceTable ddl) c).2 !! name
  = tables c !! name.
Proof.
  intros Hne. unfold Warehouse.execute.
  destruct (fails _); [done|]. destruct (negb _); [done|].
  simpl. by rewrite lookup_insert_ne.
Qed.

Lemma write_pandas_tables df table_name overwrite name c :
  name ≠ resolve table_name →
  tables (Warehouse.write_pandas fails unsuccessful df table_name overwrite c).2 !! name
  = tables c !! name.
Proof.
  intros Hne. unfold Warehouse.write_pandas.
  destruct (fails _); [done|]. destruct (unsuccessful _); [done|].
  destruct (negb _); [done|]. simpl.
  destruct (tables c !! resolve table_name) as [t|]; [|done].
  destruct (loaded_rows _ _ _); [|done]. simpl. by rewrite lookup_insert_ne.
Qed.

Lemma drop_columns_tables df col name c :
  tables (drop_columns df col c).2 !! name = tables c !! name.
Proof. unfold drop_columns. by destruct (has_column df col). Qed.

(** The names under which the statements of a load reach the table. *)
Lemma table_names table_name ddl :
  get_table_schema table_name = Some ddl →
  resolve (ddl_target (format_table_name ddl table_name)) = table_name ∧
  resolve (upper table_name) = table_name.
Proof.
  unfold get_table_schema. repeat case_decide; intros [= <-]; by subst.
Qed.

(** X11: A load keeps to its own table: whatever the mode, the frame and the
    faults of the warehouse, a table under any other name is after the call
    what it was before, the staging name of the call apart. *)
Theorem load_touches_one_table use_upsert time table_name df endpoint is_initial_load
  name c :
  name ≠ table_name →
  name ≠ resolve (temp_name table_name time) →
  tables (load use_upsert time table_name df endpoint is_initial_load c).2 !! name
  = tables c !! name.
Proof.
  intros Hname Htemp. unfold load_data_to_snowflake.
  destruct (is_empty df); [done|].
  unfold create_table_if_not_exists.
  destruct (get_table_schema table_name) as [ddl|] eqn:Hddl; last first.
  { unfold bind, pure_call, raise. by destruct (transform time df endpoint). }
  destruct (table_names _ _ Hddl) as [Htarget Hupper].
  assert (∀ overwrite dft c,
            tables ((let* df_for_load := drop_columns dft "LOAD_TIMESTAMP" in
                     let* w := Warehouse.write_pandas fails unsuccessful df_for_load
                                 (upper table_name) overwrite in
                     ret w) c).2 !! name = tables c !! name) as Hwrite.
  { intros overwrite dft. apply bind_tables; [apply drop_columns_tables|].
    intros batch. apply bind_tables; [|done].
    intros c1. apply write_pandas_tables. by rewrite Hupper. }
  revert c. apply bind_tables; [done|]. intros dft. apply bind_tables.
  - apply bind_tables; [|done]. intros c. apply create_tables. by rewrite Htarget.
  - intros [] c. destruct is_initial_load; [apply Hwrite|].
    destruct use_upsert; [|apply Hwrite].
    by apply upsert_outcome.
Qed.

End facts.

Lemma load_touches_one_table_witness :
  tables (sample_load true 1700086400 batch_u2_u3 false staged_session).2 !! "TEMP_USERS"
  = tables staged_session !! "TEMP_USERS".
Proof.
  apply (load_touches_one_table sample_dumps_dict sample_dumps sample_str
           sample_str_list sample_array_truth ∅ never never true 1700086400 "MOVEWORKS_USERS" batch_u2_u3
           "users" false "TEMP_USERS" staged_session).
  - done.
  - apply (bool_decide_unpack _). vm_compute. exact I.
Defined.

Lemma load_leaves_only_the_batch_witness :
  let mapped :=
    match transform_dataframe_for_schema sample_dumps_dict sample_dumps sample_str
            sample_str_list sample_array_truth ∅ 1700086400 batch_u2_u3 "users" with
    | Returns dft => dft
    | Raises _ => empty_frame
    end in
  let batch := drop_column mapped "LOAD_TIMESTAMP" in
  let result :=
    load_data_to_snowflake sample_dumps_dict sample_dumps sample_str sample_str_list sample_array_truth ∅
      never never false 1700086400 (table_name_of "users") batch_u2_u3 "users" false
      loaded_session in
  keys_of loaded_session "MOVEWORKS_USERS" = Some [Some (VStr "u1"); Some (VStr "u2")] ∧
  forallb has_id (rows batch) = true ∧
  keys_of result.2 "MOVEWORKS_USERS" = Some [Some (VStr "u2"); Some (VStr "u3")] ∧
  ∃ ddl,
    get_table_schema (table_name_of "users") = Some ddl ∧
    if forallb has_id (rows batch) then
      result.1 = Returns (true, index batch) ∧
      t_rows <$> tables result.2 !! table_name_of "users"
      = Some (loaded_row (ddl_columns ddl) (clock loaded_session + 2) <$> rows batch)
    else
      result.1 = Raises ProgrammingError ∧
      t_rows <$> tables result.2 !! table_name_of "users" = Some [].
Proof.
  cbv zeta. split; [vm_compute; reflexivity|]. split; [vm_compute; reflexivity|].
  split; [vm_compute; reflexivity|].
  apply (load_leaves_only_the_batch sample_dumps_dict sample_dumps sample_str
           sample_str_list sample_array_truth ∅ never never false 1700086400
           batch_u2_u3 "users" false
           (match transform_dataframe_for_schema sample_dumps_dict sample_dumps
                    sample_str sample_str_list sample_array_truth ∅ 1700086400
                    batch_u2_u3 "users" with
            | Returns dft => dft
            | Raises _ => empty_frame
            end)
           loaded_session).
  - apply (bool_decide_unpack _). vm_compute. exact I.
  - reflexivity.
  - vm_compute. reflexivity.
  - right. reflexivity.
  - reflexivity.
  - reflexivity.
  - reflexivity.
Defined.

End LoadExtras.

(** ** More on the sync orchestrator *)

Module SyncExtras.
Import Text Schema Fetch Frame Mapper Warehouse Load Sync SyncFacts LoadExtras.

Lemma Forall_alist_set {A} (P : string * A → Prop) (l : list (string * A)) k v :
  Forall P l → P (k, v) → Forall P (alist_set l k v).
Proof.
  intros Hl Hv. induction l as [|[k0 v0] l IH]; csimpl.
  - by constructor.
  - apply Forall_cons in Hl as [H0 Hl]. case_decide; subst.
    + by constructor.
    + constructor; [done|]. by apply IH.
Qed.

Section facts.

Variable json_dumps_dict : heap → dict → string.
Variable json_dumps : heap → val → string.
Variable py_str : heap → val → string.
Variable py_str_list : heap → dtype → list val → string.
Variable array_truth : heap → list val → option bool.
Variable source : nat → reply loc.
Variable fails : nat → bool.
Variable unsuccessful : nat → bool.
Variable time : string → Z.
Variable create_analytics_views : M ().

Abbreviation fetch := (fetch_data py_str source).
Abbreviation sync_one :=
  (sync_endpoint json_dumps_dict json_dumps py_str py_str_list array_truth source fails
     unsuccessful time).
Abbreviation sync_all :=
  (sync_endpoints json_dumps_dict json_dumps py_str py_str_list array_truth source fails
     unsuccessful time).
Abbreviation run :=
  (run_daily_sync json_dumps_dict json_dumps py_str py_str_list array_truth source fails
     unsuccessful time create_analytics_views).

Lemma sync_endpoint_upsert config fuel endpoint w w' entry :
  use_upsert config = true →
  sync_one config fuel endpoint w = Some (w', entry) →
  rows_loaded entry = 0 ∧ sync_mode entry = "UPSERT" ∧
  ∃ w1 df, fetch fuel endpoint w = Some (w1, df) ∧ success entry = is_empty df.
Proof.
  intros Hup. unfold sync_endpoint, mode_name. rewrite Hup.
  destruct (fetch fuel endpoint w) as [[w1 df]|]; [|done].
  destruct (is_empty df) eqn:Hdf; cbn [negb].
  - intros [= <- <-]. split_and!; [done..|]. by exists w1, df.
  - destruct (upsert_load_outcome json_dumps_dict json_dumps py_str py_str_list array_truth
                (w_heap w1) fails unsuccessful (time endpoint)
                (table_name_of endpoint) df endpoint (w_conn w1)) as [Hr|[e Hr]];
      destruct (load_data_to_snowflake _ _ _ _ _ _ _ _ _ _ _ _ _ _) as [r c];
      simpl in Hr; subst r; intros [= <- <-]; (split_and!; [done..|]);
      by exists w1, df.
Qed.

Lemma sync_endpoints_upsert config fuel endpoints : ∀ w p w' p',
  use_upsert config = true →
  sync_all config fuel endpoints w p = Some (w', p') →
  Forall (λ kv, rows_loaded kv.2 = 0) (load_summary p) →
  Forall (λ kv, rows_loaded kv.2 = 0) (load_summary p').
Proof.
  induction endpoints as [|endpoint rest IH]; intros w p w' p' Hup; simpl.
  - by intros [= <- <-].
  - destruct (sync_one config fuel endpoint w) as [[w1 entry]|] eqn:Hone; [|done].
    intros Hrest Hp. eapply IH; [done..|]. cbn [record_entry load_summary].
    apply Forall_alist_set; [done|].
    by destruct (sync_endpoint_upsert _ _ _ _ _ _ Hup Hone).
Qed.

(** X12: With [use_upsert] on, a daily sync loads nothing and says so: every
    entry of its summary has zero rows; and the entry of an endpoint says
    success exactly when the fetch of that endpoint gave an empty frame, so
    that an endpoint with new data is always entered as failed. *)
Theorem upsert_sync_reports_no_rows config :
  use_upsert config = true →
  (∀ conn fuel h outcome load_summary,
     run (Some config) conn fuel h = Some (outcome, load_summary) →
     Forall (λ kv, rows_loaded kv.2 = 0) load_summary) ∧
  (∀ fuel endpoint w w' entry,
     sync_one config fuel endpoint w = Some (w', entry) →
     rows_loaded entry = 0 ∧ sync_mode entry = "UPSERT" ∧
     ∃ w1 df, fetch fuel endpoint w = Some (w1, df) ∧ success entry = is_empty df).
Proof.
  intros Hup. split.
  - intros conn fuel h outcome summary. unfold run_daily_sync.
    destruct (negb _); [by intros [= <- <-]|].
    destruct conn as [conn|]; [|by intros [= <- <-]].
    destruct (sync_all config fuel ENDPOINTS (World h 0 conn) (Progress [] 0 0))
      as [[w p]|] eqn:Hsync; [|done].
    intros [= <- <-]. by eapply sync_endpoints_upsert.
  - intros fuel endpoint w w' entry. by apply sync_endpoint_upsert.
Qed.

End facts.

Lemma upsert_sync_reports_no_rows_witness :
  sample_run one_user =
  Some (false,
        [("interactions", Summary "MOVEWORKS_INTERACTIONS" 0 true "UPSERT");
         ("conversations", Summary "MOVEWORKS_CONVERSATIONS" 0 true "UPSERT");
         ("plugin-calls", Summary "MOVEWORKS_PLUGIN_CALLS" 0 true "UPSERT");
         ("plugin-resources", Summary "MOVEWORKS_PLUGIN_RESOURCES" 0 true "UPSERT");
         ("users", Summary "MOVEWORKS_USERS" 0 false "UPSERT")]) ∧
  Forall (λ kv : string * summary, rows_loaded kv.2 = 0)
    [("interactions", Summary "MOVEWORKS_INTERACTIONS" 0 true "UPSERT");
     ("conversations", Summary "MOVEWORKS_CONVERSATIONS" 0 true "UPSERT");
     ("plugin-calls", Summary "MOVEWORKS_PLUGIN_CALLS" 0 true "UPSERT");
     ("plugin-resources", Summary "MOVEWORKS_PLUGIN_RESOURCES" 0 true "UPSERT");
     ("users", Summary "MOVEWORKS_USERS" 0 false "UPSERT")].
Proof.
  split; [vm_compute; reflexivity|].
  apply (proj1 (upsert_sync_reports_no_rows sample_dumps_dict sample_dumps sample_str
                  sample_str_list sample_array_truth one_user never never (λ _, 1700086400%Z) (ret ())
                  sample_config eq_refl)
           (Some loaded_session) 4 users_heap false).
  vm_compute. reflexivity.
Defined.

End SyncExtras.

(** ** More on the schema mapper *)

Module MapperExtras.
Import Text Schema Fetch Frame Mapper MapperMore Sync.
Import PyFacts MapperFacts SyncFacts CleanExtras SyncExtras.

Lemma well_formed_column df col cells :
  well_formed df → column df col = Some cells → length cells = index df.
Proof.
  intros Hwf Hc. apply alist_get_Some_elem_of in Hc.
  unfold well_formed in Hwf. rewrite Forall_forall in Hwf. apply (Hwf _ Hc).
Qed.

Lemma well_formed_set_scalar df col v :
  well_formed df → well_formed (set_scalar df col v).
Proof.
  intros Hwf. unfold well_formed, set_scalar. cbn [index columns].
  apply Forall_alist_set; [done|]. apply length_replicate.
Qed.

Lemma well_formed_set_series df col series :
  well_formed df → well_formed (set_series df col series).
Proof.
  intros Hwf. unfold well_formed, set_series.
  destruct (_ && _); cbn [index columns].
  - apply Forall_alist_set; [|done]. apply Forall_fmap, Forall_true.
    intros [k cells]. apply length_replicate.
  - apply Forall_alist_set; [done|]. apply length_resize.
Qed.

Lemma set_series_settled df col series :
  index df ≠ 0 →
  set_series df col series
  = Frame (index df) (alist_set (columns df) col (resize (index df) VNaN series)).
Proof.
  intros Hn. unfold set_series. by rewrite (proj2 (Nat.eqb_neq _ _) Hn).
Qed.

Lemma dict_set_not_nil d k v : dict_set d k v ≠ [].
Proof. destruct d as [|[k0 v0] d]; simpl; [done|]. by case_decide. Qed.

Lemma length_convert_column cells : length (convert_column cells) = length cells.
Proof. unfold convert_column. destruct (dtype_of cells); by rewrite ?length_fmap. Qed.

(** A missing cell stays NaN under the dtype of its column. *)
Lemma convert_column_nan cells i :
  cells !! i = Some VNaN → convert_column cells !! i = Some VNaN.
Proof.
  intros Hi. unfold convert_column.
  destruct (dtype_of cells); try done. by rewrite list_lookup_fmap, Hi.
Qed.

Lemma well_formed_of_records data : well_formed (of_records data).
Proof.
  unfold well_formed, of_records. cbn [index columns].
  apply Forall_fmap, Forall_true. intros k. simpl.
  by rewrite length_convert_column, length_fmap.
Qed.

Lemma well_formed_clean df : well_formed df → well_formed (clean_illegal_chars df).
Proof.
  unfold well_formed, clean_illegal_chars. cbn [index columns]. intros Hwf.
  apply Forall_fmap. eapply Forall_impl; [done|].
  intros [k cells]. simpl. intros <-. apply length_fmap.
Qed.

Lemma alist_get_tabulate {A} (f : string → A) (keys : list string) k :
  k ∈ keys → alist_get ((λ k, (k, f k)) <$> keys) k = Some (f k).
Proof.
  induction keys as [|k0 keys IH]; csimpl; intros Hk.
  - by apply elem_of_nil in Hk.
  - case_decide; [by subst|]. apply IH.
    apply elem_of_cons in Hk as [->|Hk]; done.
Qed.

(** The cell of a record that lacks a field some other record has. *)
Lemma missing_field_cell data i record field :
  data !! i = Some record →
  field ∈ names (clean_illegal_chars (of_records data)) →
  dict_get record field = None →
  ∃ cells, column (clean_illegal_chars (of_records data)) field = Some cells ∧
           cells !! i = Some VNaN.
Proof.
  intros Hi Hfield Hnone.
  assert (field ∈ record_keys data) as Hkey.
  { revert Hfield. unfold names, clean_illegal_chars, of_records. cbn [columns].
    rewrite <- !list_fmap_compose.
    intros (k & -> & Hk)%list_elem_of_fmap. done. }
  unfold column, clean_illegal_chars, of_records. cbn [columns].
  rewrite alist_get_fmap_values,
    (alist_get_tabulate
       (λ k, convert_column ((λ d, default VNaN (dict_get d k)) <$> data))) by done.
  eexists. split; [done|]. rewrite list_lookup_fmap.
  rewrite (convert_column_nan _ i); [done|].
  by rewrite list_lookup_fmap, Hi; simpl; rewrite Hnone.
Qed.

Section facts.

Variable json_dumps_dict : heap → dict → string.
Variable json_dumps : heap → val → string.
Variable py_str : heap → val → string.
Variable py_str_list : heap → dtype → list val → string.
Variable array_truth : heap → list val → option bool.
Variable h : heap.

Abbreviation special := (with_special_columns json_dumps_dict json_dumps py_str py_str_list array_truth h).
Abbreviation transform :=
  (transform_dataframe_for_schema json_dumps_dict json_dumps py_str py_str_list array_truth h).
Abbreviation details_json := (create_details_json json_dumps_dict array_truth h).

(** The entity-specific step leaves the plain columns alone. *)
Lemma special_plain endpoint df v d :
  index df ≠ 0 → well_formed df →
  special endpoint df (set_scalar df "LOAD_TIMESTAMP" v) = Returns d →
  index d = index df ∧
  well_formed d ∧
  ∀ api, api ≠ "DETAILS" → api ≠ "EXTERNAL_IDS" → api ≠ "LOAD_TIMESTAMP" →
         column d api = column df api.
Proof.
  intros Hn Hwf.
  set (d0 := set_scalar df "LOAD_TIMESTAMP" v).
  assert (index d0 ≠ 0) as Hn0 by done.
  assert (well_formed d0) as Hwf0 by by apply well_formed_set_scalar.
  assert (∀ api, api ≠ "LOAD_TIMESTAMP" → column d0 api = column df api) as Hc0.
  { intros api Hapi. unfold d0. by rewrite column_set_scalar, decide_False. }
  assert (∀ col series,
            index (set_series d0 col series) = index df ∧
            well_formed (set_series d0 col series) ∧
            ∀ api, api ≠ col → api ≠ "LOAD_TIMESTAMP" →
                   column (set_series d0 col series) api = column df api) as Hser.
  { intros col series. split_and!.
    - by rewrite set_series_settled.
    - by apply well_formed_set_series.
    - intros api Hcol Hlt. rewrite set_series_settled by done.
      unfold column at 1. cbn [columns]. rewrite alist_get_set, decide_False by done.
      by apply Hc0. }
  assert (∀ col x,
            index (set_scalar d0 col x) = index df ∧
            well_formed (set_scalar d0 col x) ∧
            ∀ api, api ≠ col → api ≠ "LOAD_TIMESTAMP" →
                   column (set_scalar d0 col x) api = column df api) as Hsca.
  { intros col x. split_and!.
    - done.
    - by apply well_formed_set_scalar.
    - intros api Hcol Hlt. rewrite column_set_scalar, decide_False by done.
      by apply Hc0. }
  unfold with_special_columns, with_interaction_details, with_resource_details,
    with_external_ids, and_then.
  repeat case_decide; repeat case_match; intros [= <-];
    lazymatch goal with
    | |- context [set_series _ ?col ?series] =>
        destruct (Hser col series) as (Hi & Hw & Hc);
        split_and!; [done|done|intros api ???; by apply Hc]
    | |- context [set_scalar _ ?col ?x] =>
        destruct (Hsca col x) as (Hi & Hw & Hc);
        split_and!; [done|done|intros api ???; by apply Hc]
    | |- _ => split_and!; [done|done|intros api ???; by apply Hc0]
    end.
Qed.

(** The loop over the mapping: once a column has taken the cells of its
    source, the turns for the other columns leave it alone. *)
Lemma map_column_sets dft r api col cells :
  index dft ≠ 0 → well_formed dft → well_formed r →
  (index r = 0 ∨ index r = index dft) →
  column dft api = Some cells →
  index (map_column dft r (api, col)) = index dft ∧
  column (map_column dft r (api, col)) col = Some cells.
Proof.
  intros Hn Hwf Hr Hi Hc. unfold map_column. cbn [fst snd]. rewrite Hc.
  pose proof (well_formed_column _ _ _ Hwf Hc) as Hlen.
  unfold set_series. destruct Hi as [Hi|Hi]; rewrite Hi.
  - rewrite Hlen. rewrite (proj2 (Nat.eqb_neq _ _) Hn). cbn [Nat.eqb andb negb].
    split; [done|]. unfold column. cbn [columns].
    by rewrite alist_get_set, decide_True.
  - rewrite (proj2 (Nat.eqb_neq _ _) Hn). cbn [andb index]. split; [done|].
    unfold column. cbn [columns]. rewrite alist_get_set, decide_True by done.
    by rewrite <- Hlen, resize_all.
Qed.

Lemma map_column_keeps dft r m col cells :
  index r ≠ 0 → m.2 ≠ col →
  column r col = Some cells →
  index (map_column dft r m) = index r ∧
  column (map_column dft r m) col = Some cells.
Proof.
  intros Hn Hne Hc. unfold map_column. destruct (column dft m.1) as [src|].
  - rewrite set_series_settled by done. split; [done|].
    unfold column. cbn [columns]. by rewrite alist_get_set, decide_False.
  - split; [done|]. by rewrite column_set_scalar, decide_False.
Qed.

Lemma map_column_invariant dft r m :
  index dft ≠ 0 → well_formed dft → well_formed r →
  (index r = 0 ∨ index r = index dft) →
  well_formed (map_column dft r m) ∧
  (index (map_column dft r m) = 0 ∨ index (map_column dft r m) = index dft).
Proof.
  intros Hn Hwf Hr Hi. unfold map_column.
  destruct (column dft m.1) as [src|] eqn:Hc.
  - split; [by apply well_formed_set_series|].
    destruct (map_column_sets dft r m.1 m.2 src Hn Hwf Hr Hi Hc) as [Hidx _].
    unfold map_column in Hidx. cbn [fst snd] in Hidx. rewrite Hc in Hidx. by right.
  - split; [by apply well_formed_set_scalar|]. done.
Qed.

Lemma foldl_map_column_keeps dft mapping col cells : ∀ r,
  index r ≠ 0 → col ∉ mapping.*2 → column r col = Some cells →
  index (foldl (map_column dft) r mapping) = index r ∧
  column (foldl (map_column dft) r mapping) col = Some cells.
Proof.
  induction mapping as [|m mapping IH]; intros r Hn Hcol Hc; csimpl in *; [done|].
  apply not_elem_of_cons in Hcol as [Hm Hcol].
  destruct (map_column_keeps dft r m col cells Hn (not_eq_sym Hm) Hc) as [Hi Hc1].
  destruct (IH (map_column dft r m)) as [Hi2 Hc2]; [by rewrite Hi|done|done|].
  split; [by rewrite Hi2|done].
Qed.

Lemma foldl_map_column_carries dft mapping api col cells : ∀ r,
  index dft ≠ 0 → well_formed dft → well_formed r →
  (index r = 0 ∨ index r = index dft) →
  NoDup mapping.*2 → (api, col) ∈ mapping →
  column dft api = Some cells →
  index (foldl (map_column dft) r mapping) = index dft ∧
  column (foldl (map_column dft) r mapping) col = Some cells.
Proof.
  induction mapping as [|m mapping IH]; intros r Hn Hwf Hr Hi Hnd Hin Hc;
    csimpl in *.
  - by apply elem_of_nil in Hin.
  - apply NoDup_cons in Hnd as [Hm Hnd].
    apply elem_of_cons in Hin as [<-|Hin].
    + destruct (map_column_sets dft r api col cells Hn Hwf Hr Hi Hc) as [Hi1 Hc1].
      destruct (foldl_map_column_keeps dft mapping col cells
                  (map_column dft r (api, col))) as [Hi2 Hc2];
        [by rewrite Hi1|done|done|].
      split; [by rewrite Hi2|done].
    + destruct (map_column_invariant dft r m Hn Hwf Hr Hi) as [Hr1 Hi1].
      by apply IH.
Qed.

Lemma foldl_map_column_invariant dft mapping : ∀ r,
  index dft ≠ 0 → well_formed dft → well_formed r →
  (index r = 0 ∨ index r = index dft) →
  well_formed (foldl (map_column dft) r mapping) ∧
  (index (foldl (map_column dft) r mapping) = 0 ∨
   index (foldl (map_column dft) r mapping) = index dft).
Proof.
  induction mapping as [|m mapping IH]; intros r Hn Hwf Hr Hi; csimpl; [done|].
  destruct (map_column_invariant dft r m Hn Hwf Hr Hi) as [Hr1 Hi1]. by apply IH.
Qed.

(** C5, amended: for each of the five endpoints and every frame that the
    mapper maps (it raises on some), the result has exactly the columns of
    the endpoint's table template, in the template's order; a column whose
    source field no record has holds nulls only; no other field of the input
    is a column of the result; and, when the frame has rows and a cell a row
    in every column, the result has a cell a row in every column too, the
    clock reading in every cell of [LOAD_TIMESTAMP], and under the column of
    a plain field (one that is not computed, as [DETAILS] and [EXTERNAL_IDS]
    are) the cells of that field, in the order of the rows, the result then
    having as many rows as the input.  For the frame [fetch_data] builds from
    the records, a record that lacks a plain field some other record has gets
    NaN, which the warehouse reads as null, in the column of that field. *)
Theorem schema_mapping_columns now df endpoint result :
  endpoint ∈ ENDPOINTS →
  transform now df endpoint = Returns result →
  ∃ ddl mapping,
    get_table_schema (table_name_of endpoint) = Some ddl ∧
    column_mapping endpoint = Some mapping ∧
    names result = col_name <$> ddl_columns ddl ∧
    (∀ api_col schema_col,
       (api_col, schema_col) ∈ mapping → source_absent df api_col →
       all_null result schema_col) ∧
    (∀ field, field ∈ names df → field ∉ col_name <$> ddl_columns ddl →
              column result field = None) ∧
    (well_formed df → index df ≠ 0 →
     well_formed result ∧
     column result "LOAD_TIMESTAMP" = Some (replicate (index result) (VTime now)) ∧
     ∀ api_col schema_col cells,
       (api_col, schema_col) ∈ mapping →
       api_col ≠ "DETAILS" → api_col ≠ "EXTERNAL_IDS" →
       column df api_col = Some cells →
       index result = index df ∧ column result schema_col = Some cells) ∧
    (∀ data i record api_col schema_col,
       df = clean_illegal_chars (of_records data) →
       data !! i = Some record →
       (api_col, schema_col) ∈ mapping →
       api_col ≠ "DETAILS" → api_col ≠ "EXTERNAL_IDS" →
       api_col ∈ names df → dict_get record api_col = None →
       cell result schema_col i = VNaN).
Proof.
  intros He Hres.
  assert (∃ ddl mapping,
            get_table_schema (table_name_of endpoint) = Some ddl ∧
            column_mapping endpoint = Some mapping ∧
            add_name (foldl add_name [] mapping.*2) "LOAD_TIMESTAMP"
            = col_name <$> ddl_columns ddl) as (ddl & mapping & Hddl & Hmap & Hcols).
  { unfold ENDPOINTS in He. set_unfold in He.
    destruct He as [->|[->|[->|[->|[->|[]]]]]]; by eexists _, _. }
  destruct (column_mapping_ok _ _ Hmap) as (Hnd & Hlt & Hall).
  rewrite Forall_forall in Hall.
  unfold transform_dataframe_for_schema, and_then in Hres. rewrite Hmap in Hres.
  destruct (special endpoint df (set_scalar df "LOAD_TIMESTAMP" (VTime now)))
    as [dft|e] eqn:Hspecial; [|done].
  injection Hres as <-.
  assert (names (set_scalar (foldl (map_column dft) empty_frame mapping)
                   "LOAD_TIMESTAMP" (VTime now))
          = col_name <$> ddl_columns ddl) as Hnames.
  { by rewrite names_set_scalar, names_foldl_map_column. }
  assert (∀ col, col ∈ mapping.*2 → col ≠ "LOAD_TIMESTAMP") as Hnot.
  { intros col Hcol ->. done. }
  assert (well_formed df → index df ≠ 0 →
          well_formed (set_scalar (foldl (map_column dft) empty_frame mapping)
                         "LOAD_TIMESTAMP" (VTime now)) ∧
          column (set_scalar (foldl (map_column dft) empty_frame mapping)
                    "LOAD_TIMESTAMP" (VTime now)) "LOAD_TIMESTAMP"
          = Some (replicate
                    (index (set_scalar (foldl (map_column dft) empty_frame mapping)
                              "LOAD_TIMESTAMP" (VTime now))) (VTime now)) ∧
          ∀ api_col schema_col cells,
            (api_col, schema_col) ∈ mapping →
            api_col ≠ "DETAILS" → api_col ≠ "EXTERNAL_IDS" →
            column df api_col = Some cells →
            index (set_scalar (foldl (map_column dft) empty_frame mapping)
                     "LOAD_TIMESTAMP" (VTime now)) = index df ∧
            column (set_scalar (foldl (map_column dft) empty_frame mapping)
                      "LOAD_TIMESTAMP" (VTime now)) schema_col = Some cells) as Hrows.
  { intros Hwf Hn.
    destruct (special_plain endpoint df (VTime now) dft Hn Hwf Hspecial)
      as (Hi & Hwf1 & Hplain).
    assert (index dft ≠ 0) as Hn1 by by rewrite Hi.
    split_and!.
    - apply well_formed_set_scalar.
      apply foldl_map_column_invariant; [done..|by constructor|by left].
    - by rewrite column_set_scalar, decide_True.
    - intros api col cells Hin Hdet Hext Hc.
      destruct (Hall _ Hin) as (Hapi & _ & _). cbn [fst] in Hapi.
      destruct (foldl_map_column_carries dft mapping api col cells empty_frame)
        as [Hidx Hcol]; try done.
      + by constructor.
      + by left.
      + by rewrite Hplain.
      + cbn [set_scalar index]. rewrite Hidx, Hi. split; [done|].
        change (Frame _ _) with
          (set_scalar (foldl (map_column dft) empty_frame mapping)
             "LOAD_TIMESTAMP" (VTime now)).
        rewrite column_set_scalar, decide_False; [done|].
        apply not_eq_sym, Hnot. apply list_elem_of_fmap. by exists (api, col). }
  exists ddl, mapping. split_and!; try done.
  - intros api col Hin Habs. apply all_null_set_scalar_ne.
    + apply not_eq_sym, Hnot. apply list_elem_of_fmap. by exists (api, col).
    + apply (all_null_mapping _ _ api); [done..|]. by eapply source_absent_null.
  - intros field _ Hfield. apply column_None. by rewrite Hnames.
  - intros data i record api col -> Hi Hin Hdet Hext Hfield Hnone.
    destruct (missing_field_cell data i record api Hi Hfield Hnone)
      as (cells & Hcells & Hcell).
    destruct Hrows as (_ & _ & Hcarried).
    + apply well_formed_clean, well_formed_of_records.
    + cbn [clean_illegal_chars of_records index]. apply lookup_lt_Some in Hi. lia.
    + destruct (Hcarried api col cells Hin Hdet Hext Hcells) as [_ Hcol].
      unfold cell. by rewrite Hcol; simpl; rewrite Hcell.
Qed.

Lemma details_from_entries r : ∀ (d details : dict) k v,
  details_from array_truth h d r = Returns details →
  dict_get details k = Some v →
  dict_get d k = Some v ∨
  (notna_cell array_truth h v = Returns true ∧
   ∃ col, (col, v) ∈ r ∧ k = str_replace "detail_" "" col).
Proof.
  induction r as [|[col x] r IH]; intros d details k v; simpl.
  - intros [= <-]. by left.
  - unfold and_then. destruct (notna_cell array_truth h x) as [keep|e] eqn:Hx; [|done].
    intros Hrest Hget. destruct (IH _ _ _ _ Hrest Hget) as [Hd|(Hv & col' & Hin & Hk)].
    + destruct keep; [|by left].
      rewrite dict_get_set in Hd. case_decide; [|by left].
      injection Hd as <-. right. split; [done|]. exists col. split; [by left|done].
    + right. split; [done|]. exists col'. split; [by right|done].
Qed.

Lemma details_from_nil r : ∀ (d details : dict),
  details_from array_truth h d r = Returns details →
  (details = [] ↔
   d = [] ∧ Forall (λ kv : string * val,
                      notna_cell array_truth h kv.2 = Returns false) r).
Proof.
  induction r as [|[col x] r IH]; intros d details; simpl.
  - intros [= <-]. split; [done|by intros [-> _]].
  - unfold and_then. destruct (notna_cell array_truth h x) as [keep|e] eqn:Hx; [|done].
    intros Hrest. rewrite (IH _ _ Hrest), Forall_cons. cbn [snd]. rewrite Hx.
    destruct keep.
    + split; [intros [Hd _]; by apply dict_set_not_nil in Hd|by intros [_ [? _]]].
    + naive_solver.
Qed.

Lemma details_from_raises r : ∀ (d : dict) e,
  details_from array_truth h d r = Raises e ↔
  e = ValueError ∧ ∃ kv, kv ∈ r ∧ notna_cell array_truth h kv.2 = Raises ValueError.
Proof.
  assert (∀ v e, notna_cell array_truth h v = Raises e → e = ValueError) as Hexn.
  { intros v e. unfold notna_cell. repeat case_match; congruence. }
  induction r as [|[col x] r IH]; intros d e; simpl.
  - split; [done|]. intros (_ & kv & Hin & _). by apply elem_of_nil in Hin.
  - unfold and_then. destruct (notna_cell array_truth h x) as [keep|e'] eqn:Hx.
    + rewrite IH. split; intros (-> & kv & Hin & Hkv); (split; [done|]).
      * exists kv. split; [by right|done].
      * exists kv. split; [|done].
        apply elem_of_cons in Hin as [->|Hin]; [|done]. simpl in Hkv. congruence.
    + pose proof (Hexn _ _ Hx) as ->. split.
      * intros [= <-]. split; [done|]. exists (col, x). split; [by left|done].
      * by intros (-> & _).
Qed.

(** X14: [create_details_json] on a row, with its two ways of failing.  It
    raises [ValueError] exactly when the test of a cell is refused (a cell
    that is a list).  Otherwise the dictionary it builds has no entry for a
    null cell, every entry of it is a cell of the row under the name of its
    column without [detail_], and it is empty exactly when every cell is
    null; the result is then [None] for the empty dictionary, [TypeError]
    when the row has an integer or boolean dtype (the values are NumPy
    scalars) or holds a datetime, and the JSON text otherwise. *)
Theorem details_json_has_no_null (d : dtype) (r : list (string * val)) :
  (details_json d r = Raises ValueError ↔
   ∃ kv, kv ∈ r ∧ notna_cell array_truth h kv.2 = Raises ValueError) ∧
  ((∀ kv, kv ∈ r → notna_cell array_truth h kv.2 ≠ Raises ValueError) →
   ∃ details,
     details_dict array_truth h r = Returns details ∧
     (∀ k v, dict_get details k = Some v →
             notna_cell array_truth h v = Returns true ∧
             ∃ col, (col, v) ∈ r ∧ k = str_replace "detail_" "" col) ∧
     (details = [] ↔
      Forall (λ kv, notna_cell array_truth h kv.2 = Returns false) r) ∧
     details_json d r =
       if bool_decide (details = []) then Returns VNone
       else if bool_decide (d = DInt64 ∨ d = DUInt64 ∨ d = DBool)
               || existsb is_datetime details.*2
            then Raises TypeError
            else Returns (VStr (json_dumps_dict h details))).
Proof.
  assert (∀ details, dump_details json_dumps_dict h d details ≠ Raises ValueError)
    as Hdump.
  { intros details. unfold dump_details.
    destruct details; [done|]. by destruct (json_serializable _ _). }
  split.
  - unfold create_details_json, details_dict, and_then.
    destruct (details_from array_truth h [] r) as [details|e] eqn:Hd.
    + split; [by intros ?%Hdump|].
      intros Hex. exfalso.
      assert (details_from array_truth h [] r = Raises ValueError) as Hr
        by by apply details_from_raises.
      congruence.
    + apply details_from_raises in Hd as [-> Hex]. done.
  - intros Hok. unfold create_details_json, details_dict, and_then.
    destruct (details_from array_truth h [] r) as [details|e] eqn:Hd; last first.
    { apply details_from_raises in Hd as (_ & kv & Hin & Hkv).
      by destruct (Hok kv Hin). }
    exists details. split_and!; [done| | |].
    + intros k v Hget.
      by destruct (details_from_entries r [] details k v Hd Hget) as [Hnil|Hin].
    + rewrite (details_from_nil r [] details Hd). naive_solver.
    + unfold dump_details, json_serializable.
      destruct details as [|kv details]; [done|].
      rewrite bool_decide_eq_false_2 by done.
      destruct d;
        first [ rewrite (bool_decide_eq_true_2 (_ ∨ _)) by naive_solver; done
              | rewrite (bool_decide_eq_false_2 (_ ∨ _)) by naive_solver;
                cbn [orb negb]; by destruct (existsb _ _) ].
Qed.

End facts.

Lemma schema_mapping_columns_witness :
  let df := clean_illegal_chars (of_records sample_users) in
  let result := mapped_users in
  column result "ID" = Some [VStr "u1"; VStr "u2"] ∧
  column result "EMAIL_ADDR" = Some [VNaN; VStr "bob@example.org"] ∧
  ∃ ddl mapping,
    get_table_schema (table_name_of "users") = Some ddl ∧
    column_mapping "users" = Some mapping ∧
    names result = col_name <$> ddl_columns ddl ∧
    (∀ api_col schema_col,
       (api_col, schema_col) ∈ mapping → source_absent df api_col →
       all_null result schema_col) ∧
    (∀ field, field ∈ names df → field ∉ col_name <$> ddl_columns ddl →
              column result field = None) ∧
    (well_formed df → index df ≠ 0 →
     well_formed result ∧
     column result "LOAD_TIMESTAMP" = Some (replicate (index result) (VTime 42)) ∧
     ∀ api_col schema_col cells,
       (api_col, schema_col) ∈ mapping →
       api_col ≠ "DETAILS" → api_col ≠ "EXTERNAL_IDS" →
       column df api_col = Some cells →
       index result = index df ∧ column result schema_col = Some cells) ∧
    (∀ data i record api_col schema_col,
       df = clean_illegal_chars (of_records data) →
       data !! i = Some record →
       (api_col, schema_col) ∈ mapping →
       api_col ≠ "DETAILS" → api_col ≠ "EXTERNAL_IDS" →
       api_col ∈ names df → dict_get record api_col = None →
       cell result schema_col i = VNaN).
Proof.
  cbv zeta. split; [reflexivity|]. split; [reflexivity|].
  apply (schema_mapping_columns sample_dumps_dict sample_dumps sample_str
           sample_str_list sample_array_truth ∅ 42
           (clean_illegal_chars (of_records sample_users)) "users" mapped_users).
  - apply (bool_decide_unpack _). vm_compute. exact I.
  - vm_compute. reflexivity.
Defined.

(** A column of integers with a missing cell is a column of floats: the
    integers are rounded to the nearest double and the missing cell, like an
    explicit [None], is NaN.  Without a missing cell the integers stay. *)
Example of_records_numeric_column :
  columns (of_records [ [("n", VNum 9007199254740993)];
                        [("n", VNone)];
                        [("m", VStr "x")] ])
  = [("n", [VFloat (float_of_int 9007199254740992); VNaN; VNaN]);
     ("m", [VNaN; VNaN; VStr "x"])] ∧
  columns (of_records [ [("n", VNum 9007199254740993)]; [("n", VNum 1)] ])
  = [("n", [VNum 9007199254740993; VNum 1])].
Proof. split; vm_compute; reflexivity. Qed.

(** Two frames on which the claim fails as it was stated.  The one
    interaction of the first has a [detail_count] that is an integer: the
    column has the dtype int64, the value handed to [json.dumps] is a NumPy
    integer, and the mapper raises: there is no row at all.  In the second,
    one interaction has a [detail] that is a text and the other has none: the
    missing cell is NaN, which is neither [None] nor [{}], and [DETAILS] is
    the text [nan] for it, not null. *)
Lemma mapper_raises_or_leaves_nan :
  transform_dataframe_for_schema sample_dumps_dict sample_dumps sample_python_str
    sample_str_list sample_array_truth ∅ 42
    (clean_illegal_chars
       (of_records [ [("id", VStr "i1"); ("detail_count", VNum 3)] ]))
    "interactions" = Raises TypeError ∧
  ∃ result,
    transform_dataframe_for_schema sample_dumps_dict sample_dumps sample_python_str
      sample_str_list sample_array_truth ∅ 42
      (clean_illegal_chars
         (of_records [ [("id", VStr "i1"); ("detail", VStr "text")];
                       [("id", VStr "i2")] ]))
      "interactions" = Returns result ∧
    column result "ID" = Some [VStr "i1"; VStr "i2"] ∧
    column result "DETAILS" = Some [VStr "text"; VStr "nan"] ∧
    ¬ all_null result "DETAILS".
Proof.
  split; [vm_compute; reflexivity|]. eexists. split; [vm_compute; reflexivity|].
  split; [reflexivity|]. split; [reflexivity|].
  intros (cells & Hc & Hn). injection Hc as <-.
  apply Forall_cons in Hn as [[?|?] _]; done.
Qed.

End MapperExtras.

(** ** The frame of a fetch *)

Module FetchDataExtras.
Import Text Fetch Frame Mapper MapperMore Warehouse Load Sync SyncMore.
Import PyFacts FlattenFacts FetchExtras MapperFacts SyncFacts CleanExtras SyncExtras
  MapperExtras.

Section store.

Context {St Rec Flat : Type}.
Variable flatten_record : St → Rec → option (St * Flat).
Variable source : nat → reply Rec.
Variable endpoint : string.

(** A relation between states of the flattener that every call keeps. *)
Variable R : St → St → Prop.
Hypothesis R_refl : ∀ st, R st st.
Hypothesis R_trans : ∀ st1 st2 st3, R st1 st2 → R st2 st3 → R st1 st3.
Hypothesis R_flatten :
  ∀ st record st' flattened,
    flatten_record st record = Some (st', flattened) → R st st'.

Lemma flatten_page_store page : ∀ st (acc : list Flat) st' acc' ok,
  flatten_page flatten_record st acc page = (st', acc', ok) → R st st'.
Proof.
  induction page as [|record rest IH]; intros st acc st' acc' ok; simpl.
  - by intros [= <- _ _].
  - destruct (flatten_record st record) as [[st1 flattened]|] eqn:Hf.
    + intros Hrest%IH. eapply R_trans; [|done]. by eapply R_flatten.
    + by intros [= <- _ _].
Qed.

Lemma step_store r (s s' : fetch_state St Flat) :
  (fetch_step flatten_record endpoint r s = Next s' ∨
   fetch_step flatten_record endpoint r s = Break s') →
  R (store s) (store s').
Proof.
  unfold fetch_step, sleep. destruct r as [code body|].
  - case_bool_decide.
    + destruct body as [json_resp|]; [|by intros [[=]|[= <-]]].
      destruct (value json_resp) as [|record rest] eqn:Hv;
        [by intros [[=]|[= <-]]|].
      rewrite <- Hv. cbn [store data].
      destruct (flatten_page flatten_record (store s) (data s) (value json_resp))
        as [[st data'] ok] eqn:Hp.
      apply flatten_page_store in Hp.
      by destruct ok; intros [[= <-]|[= <-]].
    + case_bool_decide.
      * by intros [[= <-]|[=]].
      * destruct (is_transient code); [|by intros [[=]|[= <-]]].
        by case_bool_decide; intros [[= <-]|[= <-]].
  - by intros [[=]|[= <-]].
Qed.

Lemma loop_store fuel : ∀ (s s' : fetch_state St Flat),
  fetch_loop flatten_record source endpoint fuel s = Some s' →
  R (store s) (store s') ∧ requests s ≤ requests s'.
Proof.
  induction fuel as [|fuel IH]; intros s s'; cbn [fetch_loop];
    destruct (truthy (url s)); try done; try by intros [= <-].
  destruct (fetch_step flatten_record endpoint (source (requests s)) s)
    as [s1|s1] eqn:Hstep.
  - intros [HR Hr]%IH.
    pose proof (step_store _ s s1 (or_introl Hstep)) as HR1.
    destruct (step_grows flatten_record endpoint _ s s1 (or_introl Hstep))
      as (_ & Hr1 & _).
    split; [by eapply R_trans|lia].
  - intros [= <-].
    pose proof (step_store _ s s1 (or_intror Hstep)) as HR1.
    destruct (step_grows flatten_record endpoint _ s s1 (or_intror Hstep))
      as (_ & Hr1 & _).
    split; [done|lia].
Qed.

End store.

Lemma legal_remove_illegal_chars v : legal (remove_illegal_chars v).
Proof.
  intros s Hs. destruct v; try done. injection Hs as <-.
  rewrite strip_illegal_filter. apply Forall_forall.
  intros c Hc. by apply list_elem_of_filter in Hc as [? _].
Qed.

Section facts.

Variable py_str : heap → val → string.
Variable source : nat → reply loc.

Abbreviation fetch := (fetch_data py_str source).

Lemma flatten_record_preserved h record h' flat :
  Flatten.flatten_record py_str h record = Some (h', flat) → heap_preserved h h'.
Proof.
  intros Hf. destruct (h !! record) as [[d|xs]|] eqn:Hr.
  - destruct (flatten_record_writes py_str h record d Hr) as (h2 & Hf2 & Hw).
    rewrite Hf in Hf2. injection Hf2 as -> ->.
    eapply writes_only_preserved; [|done]. apply is_fresh.
  - unfold Flatten.flatten_record in Hf. by rewrite Hr in Hf.
  - unfold Flatten.flatten_record in Hf. by rewrite Hr in Hf.
Qed.

(** X15: What [fetch_data] hands to the load: a frame each column of which
    has a cell a row, one row for each record collected, and no string cell
    of which has a character of the illegal set.  The fetch changes no
    object the heap had before (the records of the source stay as they
    came) and does not touch the warehouse session. *)
Theorem fetched_frame_is_clean fuel endpoint w w1 df :
  fetch fuel endpoint w = Some (w1, df) →
  well_formed df ∧
  (∀ col cells, column df col = Some cells → Forall legal cells) ∧
  (∃ s, fetch_loop (Flatten.flatten_record py_str) source endpoint fuel
          (initial endpoint (w_heap w) (w_sent w)) = Some s ∧
        index df = length (data s)) ∧
  heap_preserved (w_heap w) (w_heap w1) ∧
  w_conn w1 = w_conn w ∧
  w_sent w ≤ w_sent w1.
Proof.
  unfold fetch_data.
  destruct (fetch_loop _ _ _ _ _) as [s|] eqn:Hloop; [|done].
  intros [= <- <-]. cbn [w_heap w_conn w_sent].
  destruct (loop_store (Flatten.flatten_record py_str) source endpoint heap_preserved
              heap_preserved_refl heap_preserved_trans flatten_record_preserved
              fuel _ _ Hloop) as [Hheap Hsent].
  split_and!; try done.
  - destruct (data s); [by constructor|].
    apply well_formed_clean, well_formed_of_records.
  - intros col cells. destruct (data s) as [|flat rest]; [done|].
    unfold column, clean_illegal_chars. cbn [columns].
    rewrite alist_get_fmap_values.
    destruct (alist_get _ col) as [cells0|]; [|done]. intros [= <-].
    apply Forall_fmap, Forall_true. intros v. apply legal_remove_illegal_chars.
  - exists s. split; [done|]. destruct (data s); [done|].
    cbn [clean_illegal_chars of_records index length]. f_equal. apply length_fmap.
Qed.

End facts.

Lemma fetched_frame_is_clean_witness :
  ∃ w1 df,
    fetch_data sample_str one_user 4 "users" (World users_heap 4 empty_session)
    = Some (w1, df) ∧
    index df = 1 ∧
    well_formed df ∧
    (∀ col cells, column df col = Some cells → Forall legal cells) ∧
    (∃ s, fetch_loop (Flatten.flatten_record sample_str) one_user "users" 4
            (initial "users" users_heap 4) = Some s ∧
          index df = length (data s)) ∧
    heap_preserved users_heap (w_heap w1) ∧
    w_conn w1 = empty_session ∧
    4 ≤ w_sent w1.
Proof.
  eexists _, _. split; [vm_compute; reflexivity|]. split; [reflexivity|].
  apply (fetched_frame_is_clean sample_str one_user 4 "users"
           (World users_heap 4 empty_session)).
  vm_compute. reflexivity.
Defined.

End FetchDataExtras.

(** ** The MERGE of the Upsert *)

Module MergeExtras.
Import Text Schema Frame Warehouse Load LoadMore PyFacts LoadFacts.

Lemma filter_none {A} (P : A → Prop) `{∀ x, Decision (P x)} (l : list A) :
  (∀ x, x ∈ l → ¬ P x) → filter P l = [].
Proof.
  induction l as [|x l IH]; intros Hl; [done|].
  rewrite filter_cons_False by (apply Hl; by left).
  apply IH. intros y Hy. apply Hl. by right.
Qed.

Lemma key_matches_keys tr sr :
  key_matches "ID" tr sr
  = negb (is_null_value (row_key tr)) && bool_decide (row_key tr = row_key sr).
Proof. done. Qed.

(** A source row with a key goes unmatched exactly when no target row has
    its key. *)
Lemma unmatched_iff target sr :
  has_id sr = true →
  Forall (λ tr, key_matches "ID" tr sr = false) target ↔
  row_key sr ∉ row_key <$> target.
Proof.
  intros Hid. unfold has_id in Hid. fold (row_key sr) in Hid.
  apply negb_true_iff in Hid.
  rewrite Forall_forall, list_elem_of_fmap. split.
  - intros Hall (tr & Hk & Hin). specialize (Hall tr Hin).
    rewrite key_matches_keys, <- Hk, Hid in Hall.
    by rewrite bool_decide_eq_true_2 in Hall.
  - intros Hno tr Hin. rewrite key_matches_keys.
    destruct (decide (row_key tr = row_key sr)) as [Heq|Hne].
    + destruct Hno. by exists tr.
    + rewrite (bool_decide_eq_false_2 _ Hne). apply andb_false_r.
Qed.

(** Source rows with distinct keys: a target row is matched by one of
    them at most. *)
Lemma matching_at_most_one tr source :
  NoDup (row_key <$> source) →
  length (filter (λ sr, key_matches "ID" tr sr = true) source) ≤ 1.
Proof.
  induction source as [|sr source IH]; csimpl; intros Hnd; [lia|].
  apply NoDup_cons in Hnd as [Hsr Hnd]. rewrite filter_cons.
  case_decide as Hm; [|by apply IH].
  rewrite filter_none; [simpl; lia|].
  intros sr' Hin Hm'. apply Hsr.
  rewrite key_matches_keys in Hm, Hm'.
  apply andb_true_iff in Hm as [_ Hm]. apply andb_true_iff in Hm' as [_ Hm'].
  apply bool_decide_eq_true in Hm, Hm'.
  apply list_elem_of_fmap. exists sr'. split; [congruence|done].
Qed.

Lemma merge_update_key all_columns now tr sr :
  row_key (merge_update "ID" all_columns now tr sr) = row_key tr.
Proof.
  unfold merge_update, row_key. rewrite dict_get_set_ne by done.
  revert tr. induction all_columns as [|col cols IH]; intros tr; csimpl; [done|].
  rewrite IH. case_decide; [done|]. by rewrite dict_get_set_ne.
Qed.

Lemma merge_insert_key cols all_columns now sr :
  "ID" ∈ col_name <$> cols → "ID" ∈ all_columns → has_id sr = true →
  row_key (merge_insert cols all_columns now sr) = row_key sr.
Proof.
  intros Hcols Hall Hid. unfold merge_insert, row_key.
  induction cols as [|col cols IH]; csimpl in *.
  - by apply elem_of_nil in Hcols.
  - case_decide as Hname.
    + rewrite Hname. rewrite decide_False by done.
      rewrite bool_decide_eq_true_2 by done.
      unfold has_id in Hid. by destruct (dict_get sr "ID") as [[]|].
    + apply IH. apply elem_of_cons in Hcols as [Heq|Hin]; [by destruct Hname|done].
Qed.

(** What the MERGE of the pipeline makes of the keys. *)
Lemma merge_rows_keys cols all_columns now target source :
  "ID" ∈ col_name <$> cols → "ID" ∈ all_columns →
  NoDup (row_key <$> source) →
  Forall (λ r, has_id r = true) source →
  ∃ rows' new_rows updated,
    merge_rows cols "ID" all_columns now target source
    = Some (rows', length new_rows, updated) ∧
    row_key <$> rows' = (row_key <$> target) ++ (row_key <$> new_rows) ∧
    length rows' = length target + length new_rows ∧
    new_rows = filter (λ sr, row_key sr ∉ row_key <$> target) source ∧
    (∀ sr, sr ∈ source → row_key sr ∈ row_key <$> rows').
Proof.
  intros Hcols Hall Hnd Hids. unfold merge_rows.
  rewrite bool_decide_eq_true_2; last first.
  { apply Forall_forall. intros tr _. by apply matching_at_most_one. }
  set (unmatched := filter (λ sr, Forall (λ tr, key_matches "ID" tr sr = false) target)
                      source).
  assert (unmatched = filter (λ sr, row_key sr ∉ row_key <$> target) source) as Hun.
  { unfold unmatched. clear -Hids.
    induction source as [|sr source IH]; [done|].
    apply Forall_cons in Hids as [Hid Hids]. rewrite !filter_cons.
    rewrite (IH Hids).
    destruct (decide (Forall _ target)) as [Hf|Hf];
      destruct (decide (row_key sr ∉ _)) as [Hk|Hk]; try done.
    - by apply unmatched_iff in Hf.
    - by apply (unmatched_iff _ _ Hid) in Hk. }
  eexists _, unmatched, _. split; [reflexivity|].
  assert (row_key <$>
            ((λ tr, match filter (λ sr, key_matches "ID" tr sr = true) source with
                    | sr :: _ => merge_update "ID" all_columns now tr sr
                    | [] => tr
                    end) <$> target) = row_key <$> target) as Hupd.
  { rewrite <- list_fmap_compose. apply list_fmap_ext. intros i tr _. simpl.
    case_match; [done|]. apply merge_update_key. }
  assert (row_key <$> (merge_insert cols all_columns now <$> unmatched)
          = row_key <$> unmatched) as Hins.
  { rewrite <- list_fmap_compose. apply list_fmap_ext. intros i sr Hsr. simpl.
    apply merge_insert_key; [done..|].
    apply list_elem_of_lookup_2 in Hsr. unfold unmatched in Hsr.
    apply list_elem_of_filter in Hsr as [_ Hsr].
    rewrite Forall_forall in Hids. by apply Hids. }
  split_and!.
  - by rewrite fmap_app, Hupd, Hins.
  - by rewrite length_app, !length_fmap.
  - done.
  - intros sr Hsr. rewrite fmap_app, Hupd, Hins, elem_of_app.
    destruct (decide (row_key sr ∈ row_key <$> target)) as [Hin|Hout]; [by left|].
    right. apply list_elem_of_fmap. exists sr. split; [done|].
    rewrite Hun. by apply list_elem_of_filter.
Qed.

(** The source rows that go unmatched, by their keys. *)
Lemma unmatched_rows target source :
  Forall (λ r, has_id r = true) source →
  filter (λ sr, Forall (λ tr, key_matches "ID" tr sr = false) target) source
  = filter (λ sr, row_key sr ∉ row_key <$> target) source.
Proof.
  intros Hids. induction source as [|sr source IH]; [done|].
  apply Forall_cons in Hids as [Hid Hids]. rewrite !filter_cons.
  rewrite (IH Hids).
  destruct (decide (Forall _ target)) as [Hf|Hf];
    destruct (decide (row_key sr ∉ _)) as [Hk|Hk]; try done.
  - by apply unmatched_iff in Hf.
  - by apply (unmatched_iff _ _ Hid) in Hk.
Qed.

Lemma NoDup_fmap_eq {A B} (f : A → B) (l : list A) x y :
  NoDup (f <$> l) → x ∈ l → y ∈ l → f x = f y → x = y.
Proof.
  induction l as [|z l IH]; csimpl; intros Hnd Hx Hy Hf.
  { by apply elem_of_nil in Hx. }
  apply NoDup_cons in Hnd as [Hz Hnd].
  apply elem_of_cons in Hx as [->|Hx]; apply elem_of_cons in Hy as [->|Hy].
  - done.
  - destruct Hz. rewrite Hf. apply list_elem_of_fmap. by exists y.
  - destruct Hz. rewrite <- Hf. apply list_elem_of_fmap. by exists x.
  - by apply IH.
Qed.

(** The source rows that match a target row: none when its key is not a
    key of the source, and otherwise the one source row with its key. *)
Lemma matching_row tr source :
  Forall (λ r, has_id r = true) source →
  match filter (λ sr, key_matches "ID" tr sr = true) source with
  | [] => row_key tr ∉ row_key <$> source
  | sr :: _ => sr ∈ source ∧ row_key tr = row_key sr
  end.
Proof.
  intros Hids. destruct (filter _ source) as [|sr rest] eqn:Hfilter.
  - intros (sr & Hk & Hin)%list_elem_of_fmap.
    assert (sr ∈ filter (λ sr, key_matches "ID" tr sr = true) source) as Hsr.
    { apply list_elem_of_filter. split; [|done].
      rewrite Forall_forall in Hids. specialize (Hids sr Hin).
      unfold has_id in Hids. fold (row_key sr) in Hids.
      rewrite key_matches_keys, Hk, Hids. by rewrite bool_decide_eq_true_2. }
    rewrite Hfilter in Hsr. by apply elem_of_nil in Hsr.
  - assert (sr ∈ filter (λ sr, key_matches "ID" tr sr = true) source) as Hsr.
    { rewrite Hfilter. by left. }
    apply list_elem_of_filter in Hsr as [Hm Hin]. split; [done|].
    rewrite key_matches_keys in Hm. apply andb_true_iff in Hm as [_ Hm].
    by apply bool_decide_eq_true in Hm.
Qed.

Lemma filter_all {A} (P : A → Prop) `{∀ x, Decision (P x)} (l : list A) :
  (∀ x, x ∈ l → P x) → filter P l = l.
Proof.
  induction l as [|x l IH]; intros Hl; [done|].
  rewrite filter_cons_True by (apply Hl; by left).
  f_equal. apply IH. intros y Hy. apply Hl. by right.
Qed.

Lemma length_filter_keys (K : list (option val)) (rows : list dict) :
  length (filter (λ r, row_key r ∈ K) rows)
  = length (filter (λ k, k ∈ K) (row_key <$> rows)).
Proof.
  induction rows as [|r rows IH]; [done|]. csimpl. rewrite !filter_cons.
  destruct (decide (row_key r ∈ K)); simpl; by rewrite IH.
Qed.

Lemma dict_set_same d k v : dict_get d k = Some v → dict_set d k v = d.
Proof.
  induction d as [|[k0 v0] d IH]; simpl; [done|].
  case_decide as Hk; [by intros [= ->]; subst|]. intros Hd. by rewrite IH.
Qed.

(** The columns of a row that a MERGE has updated. *)
Lemma merge_update_get all_columns now tr sr col :
  dict_get (merge_update "ID" all_columns now tr sr) col
  = if decide (col = "LOAD_TIMESTAMP") then Some (VTime now)
    else if decide (col ∈ all_columns ∧ col ≠ "ID")
         then Some (default VNone (dict_get sr col))
         else dict_get tr col.
Proof.
  unfold merge_update. rewrite dict_get_set.
  destruct (decide ("LOAD_TIMESTAMP" = col)) as [<-|Hlt]; [done|].
  rewrite decide_False by done.
  revert tr. induction all_columns as [|c0 cols IH]; intros tr; cbn [foldl].
  - rewrite decide_False; [done|]. intros [Hin _]. by apply elem_of_nil in Hin.
  - rewrite IH. destruct (decide (c0 = "ID")) as [->|Hc0].
    + destruct (decide (col ∈ cols ∧ col ≠ "ID")) as [[Hin Hne]|Hno].
      * rewrite decide_True; [done|]. split; [by right|done].
      * rewrite decide_False; [done|].
        intros [[->|Hin]%elem_of_cons Hne]; [done|]. by apply Hno.
    + rewrite dict_get_set. destruct (decide (c0 = col)) as [->|Hne0].
      * rewrite (decide_True (P := col ∈ col :: cols ∧ col ≠ "ID"));
          [by case_decide|]. split; [by left|done].
      * destruct (decide (col ∈ cols ∧ col ≠ "ID")) as [[Hin Hne]|Hno].
        -- rewrite decide_True; [done|]. split; [by right|done].
        -- rewrite decide_False; [done|].
           intros [[->|Hin]%elem_of_cons Hne]; [done|]. by apply Hno.
Qed.

(** A row that already holds what the source row has is left as it was,
    but for its load timestamp. *)
Lemma merge_update_same all_columns now r sr :
  (∀ col, col ∈ all_columns → col ≠ "ID" →
          dict_get r col = Some (default VNone (dict_get sr col))) →
  merge_update "ID" all_columns now r sr = dict_set r "LOAD_TIMESTAMP" (VTime now).
Proof.
  intros Hsame. unfold merge_update. f_equal.
  induction all_columns as [|c0 cols IH]; csimpl; [done|].
  case_decide as Hc0.
  - apply IH. intros col Hin. apply Hsame. by right.
  - rewrite dict_set_same by (apply Hsame; [by left|done]).
    apply IH. intros col Hin. apply Hsame. by right.
Qed.

(** The columns of a row that a MERGE has inserted. *)
Lemma merge_insert_names cols all_columns now sr :
  (merge_insert cols all_columns now sr).*1 = col_name <$> cols.
Proof.
  unfold merge_insert. rewrite <- list_fmap_compose. by apply list_fmap_ext.
Qed.

Lemma merge_insert_get cols all_columns now sr col :
  col ∈ col_name <$> cols →
  dict_get (merge_insert cols all_columns now sr) col
  = Some (if decide (col = "LOAD_TIMESTAMP") then VTime now
          else if bool_decide (col ∈ all_columns)
               then default VNone (dict_get sr col)
               else VNone).
Proof.
  unfold merge_insert. induction cols as [|c0 cols IH]; csimpl; intros Hin.
  - by apply elem_of_nil in Hin.
  - destruct (decide (col_name c0 = col)) as [<-|Hne]; [done|].
    apply IH. apply elem_of_cons in Hin as [->|Hin]; [done|done].
Qed.

(** What the MERGE of the pipeline makes of the rows. *)
Lemma merge_rows_rows cols all_columns now target source :
  "ID" ∈ col_name <$> cols → "ID" ∈ all_columns →
  NoDup (row_key <$> source) →
  Forall (λ r, has_id r = true) source →
  ∃ rows',
    merge_rows cols "ID" all_columns now target source
    = Some (rows',
            length (filter (λ sr, row_key sr ∉ row_key <$> target) source),
            length (filter (λ tr, row_key tr ∈ row_key <$> source) target)) ∧
    row_key <$> rows'
    = (row_key <$> target)
        ++ (row_key <$> filter (λ sr, row_key sr ∉ row_key <$> target) source) ∧
    (∀ sr, sr ∈ source → row_key sr ∈ row_key <$> rows') ∧
    (∀ i tr, target !! i = Some tr → row_key tr ∉ row_key <$> source →
             rows' !! i = Some tr) ∧
    (∀ i tr sr, target !! i = Some tr → sr ∈ source → row_key tr = row_key sr →
                rows' !! i = Some (merge_update "ID" all_columns now tr sr)) ∧
    (∀ j sr,
       filter (λ sr, row_key sr ∉ row_key <$> target) source !! j = Some sr →
       rows' !! (length target + j)
       = Some (merge_insert cols all_columns now sr)).
Proof.
  intros Hcols Hall Hnd Hids.
  destruct (merge_rows_keys cols all_columns now target source Hcols Hall Hnd Hids)
    as (rows' & new_rows & updated & Hm & Hk & Hl & -> & Hin).
  exists rows'. pose proof Hm as Hmerge. unfold merge_rows in Hm.
  rewrite bool_decide_eq_true_2 in Hm; last first.
  { apply Forall_forall. intros tr _. by apply matching_at_most_one. }
  rewrite (unmatched_rows _ _ Hids) in Hm.
  injection Hm as Hrows Hupd.
  set (update := λ tr, match filter (λ sr, key_matches "ID" tr sr = true) source with
                       | sr :: _ => merge_update "ID" all_columns now tr sr
                       | [] => tr
                       end) in Hrows.
  assert (filter (λ tr, filter (λ sr, key_matches "ID" tr sr = true) source ≠ [])
            target
          = filter (λ tr, row_key tr ∈ row_key <$> source) target) as Hcount.
  { apply list_filter_iff. intros tr.
    pose proof (matching_row tr source Hids) as Hrow.
    destruct (filter (λ sr, key_matches "ID" tr sr = true) source) as [|sr rest]; [split; [intros Hne; by destruct Hne|intros Hkey; by destruct Hrow]|].
    destruct Hrow as [Hsr Hkey]. split; [|done]. intros _.
    apply list_elem_of_fmap. by exists sr. }
  rewrite Hcount in Hupd. subst updated rows'.
  split_and!; [done..| | |].
  - intros i tr Hi Hout. rewrite lookup_app_l by
      (rewrite length_fmap; by eapply lookup_lt_Some).
    rewrite list_lookup_fmap, Hi. csimpl. f_equal. unfold update.
    pose proof (matching_row tr source Hids) as Hrow.
    destruct (filter (λ sr, key_matches "ID" tr sr = true) source) as [|sr rest]; [done|].
    destruct Hrow as [Hsr Hkey]. destruct Hout.
    apply list_elem_of_fmap. by exists sr.
  - intros i tr sr Hi Hsr Hkey. rewrite lookup_app_l by
      (rewrite length_fmap; by eapply lookup_lt_Some).
    rewrite list_lookup_fmap, Hi. csimpl. f_equal. unfold update.
    pose proof (matching_row tr source Hids) as Hrow.
    destruct (filter (λ sr, key_matches "ID" tr sr = true) source) as [|sr' rest].
    + destruct Hrow. apply list_elem_of_fmap. by exists sr.
    + destruct Hrow as [Hsr' Hkey'].
      by rewrite (NoDup_fmap_eq row_key source sr' sr Hnd Hsr' Hsr) by congruence.
  - intros j sr Hj. rewrite lookup_app_r by (rewrite length_fmap; lia).
    rewrite length_fmap.
    replace (length target + j - length target) with j by lia.
    by rewrite list_lookup_fmap, Hj.
Qed.

Section facts.

Variable fails : nat → bool.

Abbreviation upsert := (perform_upsert fails).

(** The two statements of [perform_upsert], when both go through. *)
Lemma perform_upsert_run table_name temp_table_name endpoint c t s rows' ins upd :
  fails (length (history c)) = false →
  fails (S (length (history c))) = false →
  valid_identifier table_name = true →
  valid_identifier temp_table_name = true →
  tables c !! resolve table_name = Some t →
  tables c !! resolve temp_table_name = Some s →
  merge_rows (t_columns t) "ID" (merge_columns s) (clock c + 1 + 1)
    (t_rows t) (t_rows s) = Some (rows', ins, upd) →
  upsert table_name temp_table_name endpoint c
  = (Returns (true, ins + upd, ins, upd),
     Conn (<[resolve table_name :=
               Table (t_columns t) (t_temporary t) (t_primary_key t) rows']> (tables c))
          (clock c + 1 + 1)
          (history c ++ [Execute (DescribeTable temp_table_name)]
             ++ [Execute (Merge table_name temp_table_name "ID" (merge_columns s))])).
Proof.
  intros Hf0 Hf1 Hv Hvt Ht Hs Hmerge.
  unfold perform_upsert, bind, get_primary_key_column.
  unfold Warehouse.execute at 1. rewrite Hf0.
  cbn [statement_names forallb]. rewrite Hvt. cbn [andb negb].
  unfold record_call at 1 2. cbn [tables clock history]. rewrite Hs.
  fold (merge_columns s).
  unfold Warehouse.execute. cbn [history]. rewrite length_app. cbn [length].
  rewrite Nat.add_1_r, Hf1.
  cbn [statement_names forallb]. rewrite Hv, Hvt. cbn [andb negb].
  unfold record_call. cbn [tables clock history]. rewrite Ht, Hs, Hmerge.
  unfold ret. by rewrite <- app_assoc.
Qed.

(** X16: Under the warehouse's MERGE (matched rows are updated, source rows
    without a match are inserted), the statement that [perform_upsert] sends
    is an upsert on [ID].  For a staging table with the columns of the
    target whose rows have keys, all different: a target row whose key is not
    staged stays as it is; a target row whose key is staged keeps its place
    and its key, takes the staged value of every other staged column and the
    time of the MERGE as load timestamp; a row is appended for each staged
    key the target did not have, with the staged values and that time; the
    call returns the number of rows appended and the number of target rows
    with a staged key.  Sent a second time with the same staging table, the
    statement inserts nothing, reports every row with a staged key as
    updated, and changes nothing but the load timestamp of those rows. *)
Theorem perform_upsert_is_idempotent table_name temp_table_name endpoint c t s :
  (∀ i, i < 4 → fails (length (history c) + i) = false) →
  valid_identifier table_name = true →
  valid_identifier temp_table_name = true →
  resolve table_name ≠ resolve temp_table_name →
  tables c !! resolve table_name = Some t →
  tables c !! resolve temp_table_name = Some s →
  "ID" ∈ col_name <$> t_columns t →
  col_name <$> t_columns s = col_name <$> t_columns t →
  NoDup (row_key <$> t_rows s) →
  Forall (λ r, has_id r = true) (t_rows s) →
  ∃ new_rows updated rows1 rows2 c1 c2,
    new_rows = filter (λ sr, row_key sr ∉ row_key <$> t_rows t) (t_rows s) ∧
    updated = length (filter (λ tr, row_key tr ∈ row_key <$> t_rows s) (t_rows t)) ∧
    upsert table_name temp_table_name endpoint c
    = (Returns (true, length new_rows + updated, length new_rows, updated), c1) ∧
    tables c1 !! resolve table_name
    = Some (Table (t_columns t) (t_temporary t) (t_primary_key t) rows1) ∧
    length rows1 = length (t_rows t) + length new_rows ∧
    (∀ i tr, t_rows t !! i = Some tr → row_key tr ∉ row_key <$> t_rows s →
             rows1 !! i = Some tr) ∧
    (∀ i tr sr,
       t_rows t !! i = Some tr → sr ∈ t_rows s → row_key tr = row_key sr →
       ∃ r, rows1 !! i = Some r ∧
            ∀ col, dict_get r col
                   = if decide (col = "LOAD_TIMESTAMP")
                     then Some (VTime (clock c + 2))
                     else if decide (col ∈ merge_columns s ∧ col ≠ "ID")
                          then Some (default VNone (dict_get sr col))
                          else dict_get tr col) ∧
    (∀ j sr,
       new_rows !! j = Some sr →
       ∃ r, rows1 !! (length (t_rows t) + j) = Some r ∧
            r.*1 = col_name <$> t_columns t ∧
            ∀ col, col ∈ col_name <$> t_columns t →
                   dict_get r col
                   = Some (if decide (col = "LOAD_TIMESTAMP")
                           then VTime (clock c + 2)
                           else default VNone (dict_get sr col))) ∧
    keys_of c1 (resolve table_name)
    = Some ((row_key <$> t_rows t) ++ (row_key <$> new_rows)) ∧
    (∀ sr keys, sr ∈ t_rows s → keys_of c1 (resolve table_name) = Some keys →
                row_key sr ∈ keys) ∧
    upsert table_name temp_table_name endpoint c1
    = (Returns (true, 0 + (updated + length new_rows), 0,
                updated + length new_rows), c2) ∧
    tables c2 !! resolve table_name
    = Some (Table (t_columns t) (t_temporary t) (t_primary_key t) rows2) ∧
    length rows2 = length rows1 ∧
    (∀ i r, rows1 !! i = Some r →
            rows2 !! i
            = Some (if decide (row_key r ∈ row_key <$> t_rows s)
                    then dict_set r "LOAD_TIMESTAMP" (VTime (clock c + 4))
                    else r)) ∧
    keys_of c2 (resolve table_name) = keys_of c1 (resolve table_name).
Proof.
  intros Hf Hv Hvt Hne Ht Hs Hidt Hcols Hnd Hkeys.
  assert ("ID" ∈ merge_columns s) as Hmc.
  { unfold merge_columns. apply list_elem_of_filter. by rewrite Hcols. }
  assert (∀ col, col ∈ col_name <$> t_columns t → col ≠ "LOAD_TIMESTAMP" →
                 col ∈ merge_columns s) as Hstaged.
  { intros col Hin Hlt. unfold merge_columns. apply list_elem_of_filter.
    by rewrite Hcols. }
  assert (∀ col, col ∈ merge_columns s →
                 col ∈ col_name <$> t_columns t ∧ col ≠ "LOAD_TIMESTAMP") as Hlisted.
  { intros col Hin. unfold merge_columns in Hin.
    apply list_elem_of_filter in Hin as [Hlt Hin]. by rewrite <- Hcols. }
  replace (clock c + 2)%Z with (clock c + 1 + 1)%Z by lia.
  replace (clock c + 4)%Z with (clock c + 1 + 1 + 1 + 1)%Z by lia.
  set (new_rows := filter (λ sr, row_key sr ∉ row_key <$> t_rows t) (t_rows s)).
  set (updated := length (filter (λ tr, row_key tr ∈ row_key <$> t_rows s) (t_rows t))).
  destruct (merge_rows_rows (t_columns t) (merge_columns s) (clock c + 1 + 1)
              (t_rows t) (t_rows s) Hidt Hmc Hnd Hkeys)
    as (rows1 & Hm1 & Hk1 & Hall1 & Hkept1 & Hupd1 & Hins1).
  fold new_rows in Hm1, Hk1, Hins1. fold updated in Hm1.
  assert (length rows1 = length (t_rows t) + length new_rows) as Hl1.
  { by rewrite <- (length_fmap row_key rows1), Hk1, length_app, !length_fmap. }
  pose proof (perform_upsert_run table_name temp_table_name endpoint c t s
                rows1 (length new_rows) updated) as Hrun1.
  rewrite <- (Nat.add_0_r (length (history c))) in Hrun1 at 1.
  rewrite <- (Nat.add_1_r (length (history c))) in Hrun1.
  specialize (Hrun1 (Hf 0 ltac:(lia)) (Hf 1 ltac:(lia)) Hv Hvt Ht Hs Hm1).
  set (t1 := Table (t_columns t) (t_temporary t) (t_primary_key t) rows1) in *.
  set (c1 := Conn _ _ _) in Hrun1.
  assert (tables c1 !! resolve table_name = Some t1) as Ht1.
  { unfold c1. cbn [tables]. apply lookup_insert_eq. }
  assert (tables c1 !! resolve temp_table_name = Some s) as Hs1.
  { unfold c1. cbn [tables]. by rewrite lookup_insert_ne. }
  destruct (merge_rows_rows (t_columns t1) (merge_columns s) (clock c1 + 1 + 1)
              (t_rows t1) (t_rows s) Hidt Hmc Hnd Hkeys)
    as (rows2 & Hm2 & Hk2 & Hall2 & Hkept2 & Hupd2 & Hins2).
  cbn [t1 t_rows t_columns] in Hm2, Hk2, Hkept2, Hupd2, Hins2.
  assert (filter (λ sr, row_key sr ∉ row_key <$> rows1) (t_rows s) = []) as Hnone.
  { apply filter_none. intros sr Hsr Hout. apply Hout. by apply Hall1. }
  rewrite Hnone in Hm2, Hk2. clear Hins2.
  assert (length (filter (λ tr, row_key tr ∈ row_key <$> t_rows s) rows1)
          = updated + length new_rows) as Hcount.
  { rewrite length_filter_keys, Hk1, filter_app, length_app.
    rewrite <- length_filter_keys. fold updated. f_equal.
    rewrite filter_all; [by rewrite length_fmap|].
    intros k (sr & -> & Hsr)%list_elem_of_fmap.
    apply list_elem_of_filter in Hsr as [_ Hsr].
    apply list_elem_of_fmap. by exists sr. }
  rewrite Hcount in Hm2. cbn [length] in Hm2.
  pose proof (perform_upsert_run table_name temp_table_name endpoint c1 t1 s
                rows2 0 (updated + length new_rows)) as Hrun2.
  assert (length (history c1) = length (history c) + 2) as Hlen.
  { unfold c1. cbn [history]. rewrite !length_app. simpl. lia. }
  rewrite Hlen in Hrun2.
  replace (S (length (history c) + 2)) with (length (history c) + 3) in Hrun2 by lia.
  specialize (Hrun2 (Hf 2 ltac:(lia)) (Hf 3 ltac:(lia)) Hv Hvt Ht1 Hs1 Hm2).
  cbn [t1 t_columns t_temporary t_primary_key] in Hrun2.
  set (c2 := Conn _ _ _) in Hrun2.
  assert (clock c1 = (clock c + 1 + 1)%Z) as Hclock by done.
  rewrite Hclock in Hupd2.
  exists new_rows, updated, rows1, rows2, c1, c2.
  assert (keys_of c1 (resolve table_name)
          = Some ((row_key <$> t_rows t) ++ (row_key <$> new_rows))) as Hkeys1.
  { unfold keys_of. rewrite Ht1. cbn [fmap option_fmap option_map t1 t_rows].
    f_equal. exact Hk1. }
  assert (∀ i tr sr,
            t_rows t !! i = Some tr → sr ∈ t_rows s → row_key tr = row_key sr →
            ∀ col, col ∈ merge_columns s → col ≠ "ID" →
                   dict_get (merge_update "ID" (merge_columns s) (clock c + 1 + 1) tr sr)
                            col
                   = Some (default VNone (dict_get sr col))) as Hupdated.
  { intros i tr sr _ _ _ col Hcol Hid. rewrite merge_update_get.
    rewrite decide_False by (by apply Hlisted). by rewrite decide_True. }
  assert (∀ sr col, col ∈ merge_columns s →
            dict_get (merge_insert (t_columns t) (merge_columns s) (clock c + 1 + 1) sr)
                     col
            = Some (default VNone (dict_get sr col))) as Hinserted.
  { intros sr col Hcol. destruct (Hlisted col Hcol) as [Hin Hlt].
    rewrite merge_insert_get by done. rewrite decide_False by done.
    by rewrite bool_decide_eq_true_2. }
  split_and!; try done.
  - intros i tr sr Hi Hsr Hkey. eexists. split; [by eapply Hupd1|].
    intros col. apply merge_update_get.
  - intros j sr Hj. eexists. split; [by apply Hins1|].
    split; [apply merge_insert_names|]. intros col Hcol.
    rewrite merge_insert_get by done. f_equal. case_decide as Hlt; [done|].
    by rewrite bool_decide_eq_true_2 by (by apply Hstaged).
  - intros sr keys Hsr. rewrite Hkeys1. intros [= <-]. rewrite <- Hk1. by apply Hall1.
  - unfold c2. cbn [tables]. apply lookup_insert_eq.
  - rewrite <- (length_fmap row_key rows2), Hk2. csimpl.
    by rewrite app_nil_r, length_fmap.
  - intros i r Hi. case_decide as Hin; [|by apply Hkept2].
    apply list_elem_of_fmap in Hin as (sr & Hkey & Hsr).
    rewrite (Hupd2 i r sr Hi Hsr Hkey). f_equal. apply merge_update_same.
    intros col Hcol Hid.
    destruct (decide (i < length (t_rows t))) as [Hlt|Hge].
    + destruct (lookup_lt_is_Some_2 (t_rows t) i Hlt) as [tr Htr].
      destruct (decide (row_key tr ∈ row_key <$> t_rows s)) as [Hst|Hst].
      * apply list_elem_of_fmap in Hst as (sr' & Hkey' & Hsr').
        pose proof (Hupd1 i tr sr' Htr Hsr' Hkey') as Hr.
        rewrite Hi in Hr. injection Hr as ->.
        assert (sr' = sr) as ->.
        { apply (NoDup_fmap_eq row_key (t_rows s)); [done..|].
          rewrite <- Hkey, merge_update_key. by symmetry. }
        by eapply Hupdated.
      * rewrite (Hkept1 i tr Htr Hst) in Hi. injection Hi as ->.
        destruct Hst. apply list_elem_of_fmap. by exists sr.
    + destruct (lookup_lt_is_Some_2 new_rows (i - length (t_rows t))) as [sr' Hsr'].
      { apply lookup_lt_Some in Hi. lia. }
      pose proof (Hins1 _ _ Hsr') as Hr.
      replace (length (t_rows t) + (i - length (t_rows t))) with i in Hr by lia.
      rewrite Hi in Hr. injection Hr as ->.
      assert (sr' ∈ t_rows s ∧ has_id sr' = true) as [Hin' Hid'].
      { apply list_elem_of_lookup_2 in Hsr'.
        apply list_elem_of_filter in Hsr' as [_ Hsr']. split; [done|].
        rewrite Forall_forall in Hkeys. by apply Hkeys. }
      assert (sr' = sr) as ->.
      { apply (NoDup_fmap_eq row_key (t_rows s)); [done..|].
        rewrite <- Hkey. by rewrite merge_insert_key. }
      by apply Hinserted.
  - unfold keys_of at 1. unfold c2. cbn [tables]. rewrite lookup_insert_eq.
    rewrite Hkeys1. cbn [fmap option_fmap option_map t_rows]. f_equal.
    change (row_key <$> rows2 = (row_key <$> t_rows t) ++ (row_key <$> new_rows)).
    rewrite Hk2, Hk1. csimpl. by rewrite app_nil_r.
Qed.

End facts.

Lemma perform_upsert_is_idempotent_witness :
  let c := staged_session in
  let t := table_at c "MOVEWORKS_USERS" in
  let s := table_at c "TEMP_USERS" in
  keys_of c "MOVEWORKS_USERS" = Some [Some (VStr "u1"); Some (VStr "u2")] ∧
  keys_of c "TEMP_USERS" = Some [Some (VStr "u2"); Some (VStr "u3")] ∧
  keys_of (perform_upsert never "MOVEWORKS_USERS" "TEMP_USERS" "users" c).2
    "MOVEWORKS_USERS"
  = Some [Some (VStr "u1"); Some (VStr "u2"); Some (VStr "u3")] ∧
  (perform_upsert never "MOVEWORKS_USERS" "TEMP_USERS" "users" c).1
  = Returns (true, 2, 1, 1) ∧
  ((λ r, dict_get r "FIRST_NAME")
     <$> t_rows (table_at
                   (perform_upsert never "MOVEWORKS_USERS" "TEMP_USERS" "users" c).2
                   "MOVEWORKS_USERS"))
  = [Some (VStr "Ada"); Some (VStr "Rob"); Some (VStr "Cy")] ∧
  ∃ new_rows updated rows1 rows2 c1 c2,
    new_rows = filter (λ sr, row_key sr ∉ row_key <$> t_rows t) (t_rows s) ∧
    updated = length (filter (λ tr, row_key tr ∈ row_key <$> t_rows s) (t_rows t)) ∧
    perform_upsert never "MOVEWORKS_USERS" "TEMP_USERS" "users" c
    = (Returns (true, length new_rows + updated, length new_rows, updated), c1) ∧
    tables c1 !! resolve "MOVEWORKS_USERS"
    = Some (Table (t_columns t) (t_temporary t) (t_primary_key t) rows1) ∧
    length rows1 = length (t_rows t) + length new_rows ∧
    (∀ i tr, t_rows t !! i = Some tr → row_key tr ∉ row_key <$> t_rows s →
             rows1 !! i = Some tr) ∧
    (∀ i tr sr,
       t_rows t !! i = Some tr → sr ∈ t_rows s → row_key tr = row_key sr →
       ∃ r, rows1 !! i = Some r ∧
            ∀ col, dict_get r col
                   = if decide (col = "LOAD_TIMESTAMP")
                     then Some (VTime (clock c + 2))
                     else if decide (col ∈ merge_columns s ∧ col ≠ "ID")
                          then Some (default VNone (dict_get sr col))
                          else dict_get tr col) ∧
    (∀ j sr,
       new_rows !! j = Some sr →
       ∃ r, rows1 !! (length (t_rows t) + j) = Some r ∧
            r.*1 = col_name <$> t_columns t ∧
            ∀ col, col ∈ col_name <$> t_columns t →
                   dict_get r col
                   = Some (if decide (col = "LOAD_TIMESTAMP")
                           then VTime (clock c + 2)
                           else default VNone (dict_get sr col))) ∧
    keys_of c1 (resolve "MOVEWORKS_USERS")
    = Some ((row_key <$> t_rows t) ++ (row_key <$> new_rows)) ∧
    (∀ sr keys, sr ∈ t_rows s → keys_of c1 (resolve "MOVEWORKS_USERS") = Some keys →
                row_key sr ∈ keys) ∧
    perform_upsert never "MOVEWORKS_USERS" "TEMP_USERS" "users" c1
    = (Returns (true, 0 + (updated + length new_rows), 0,
                updated + length new_rows), c2) ∧
    tables c2 !! resolve "MOVEWORKS_USERS"
    = Some (Table (t_columns t) (t_temporary t) (t_primary_key t) rows2) ∧
    length rows2 = length rows1 ∧
    (∀ i r, rows1 !! i = Some r →
            rows2 !! i
            = Some (if decide (row_key r ∈ row_key <$> t_rows s)
                    then dict_set r "LOAD_TIMESTAMP" (VTime (clock c + 4))
                    else r)) ∧
    keys_of c2 (resolve "MOVEWORKS_USERS") = keys_of c1 (resolve "MOVEWORKS_USERS").
Proof.
  cbv zeta. split; [vm_compute; reflexivity|]. split; [vm_compute; reflexivity|].
  split; [vm_compute; reflexivity|]. split; [vm_compute; reflexivity|].
  split; [vm_compute; reflexivity|].
  apply (perform_upsert_is_idempotent never "MOVEWORKS_USERS" "TEMP_USERS" "users"
           staged_session (table_at staged_session "MOVEWORKS_USERS")
           (table_at staged_session "TEMP_USERS")).
  - intros i _. reflexivity.
  - reflexivity.
  - reflexivity.
  - apply (bool_decide_unpack _). vm_compute. exact I.
  - vm_compute. reflexivity.
  - vm_compute. reflexivity.
  - apply (bool_decide_unpack _). vm_compute. exact I.
  - vm_compute. reflexivity.
  - apply (bool_decide_unpack _). vm_compute. exact I.
  - apply (bool_decide_unpack _). vm_compute. exact I.
Defined.

End MergeExtras.

(** ** The initial load *)

Module InitialExtras.
Import Text Schema Fetch Frame Mapper Warehouse Load Sync Initial SyncFacts.

Lemma confirmed_answers confirm :
  confirmed confirm = true ↔ lower confirm = "y" ∨ lower confirm = "yes".
Proof.
  unfold confirmed. rewrite bool_decide_eq_true. set_unfold. naive_solver.
Qed.

Section facts.

Variable json_dumps_dict : heap → dict → string.
Variable json_dumps : heap → val → string.
Variable py_str : heap → val → string.
Variable py_str_list : heap → dtype → list val → string.
Variable array_truth : heap → list val → option bool.
Variable source : nat → reply loc.
Variable fails : nat → bool.
Variable unsuccessful : nat → bool.
Variable time : string → Z.
Variable create_analytics_views : M ().

Abbreviation load_all :=
  (load_endpoints json_dumps_dict json_dumps py_str py_str_list array_truth source fails
     unsuccessful time).
Abbreviation run_load :=
  (run_initial_load json_dumps_dict json_dumps py_str py_str_list array_truth source fails
     unsuccessful time create_analytics_views).

Lemma record_entry_counts endpoint e p :
  endpoint ∉ (load_summary p).*1 →
  successful_loads p
  = length (filter (λ kv : string * entry, success kv.2 = true) (load_summary p)) →
  successful_loads (record_entry endpoint e p)
  = length (filter (λ kv : string * entry, success kv.2 = true)
              (load_summary (record_entry endpoint e p))) ∧
  (load_summary (record_entry endpoint e p)).*1 = (load_summary p).*1 ++ [endpoint].
Proof.
  intros Hfresh Hc. unfold record_entry. cbn [load_summary successful_loads].
  rewrite alist_set_fresh by done. rewrite filter_app, length_app, fmap_app.
  split; [|done]. rewrite filter_cons, filter_nil. cbn [snd].
  destruct (success e); simpl; lia.
Qed.

Lemma load_endpoints_counts config fuel endpoints : ∀ w p w' p',
  load_all config fuel endpoints w p = Some (w', p') →
  NoDup ((load_summary p).*1 ++ endpoints) →
  successful_loads p
  = length (filter (λ kv : string * entry, success kv.2 = true) (load_summary p)) →
  successful_loads p'
  = length (filter (λ kv : string * entry, success kv.2 = true) (load_summary p')) ∧
  (load_summary p').*1 = (load_summary p).*1 ++ endpoints.
Proof.
  induction endpoints as [|endpoint rest IH]; intros w p w' p'; simpl.
  - intros [= <- <-] _ Hc. by rewrite app_nil_r.
  - destruct (load_endpoint _ _ _ _ _ _ _ _ _ _ _ _) as [[w1 e]|]; [|done].
    intros Hrest Hnd Hc.
    assert (endpoint ∉ (load_summary p).*1) as Hfresh.
    { apply NoDup_app in Hnd as (_ & Hdisj & _). intros Hin.
      apply (Hdisj _ Hin). by left. }
    destruct (record_entry_counts endpoint e p Hfresh Hc) as [Hc1 Hk1].
    apply IH in Hrest as [Hc' Hk']; [| |done].
    + split; [done|]. by rewrite Hk', Hk1, <- app_assoc.
    + by rewrite Hk1, <- app_assoc.
Qed.

(** X17: The flag [initial_load_completed] is written by a fully successful
    initial load and by no other: the call returns [True] exactly when it
    has saved a configuration, and the configuration it saves has the flag
    set, is the one in memory, and comes with a summary that has an entry for
    each of the five endpoints, every one a success. *)
Theorem initial_load_sets_the_flag config confirm dates_given connect save_succeeds
  fuel h r :
  run_load config confirm dates_given connect save_succeeds fuel h = Some r →
  (returned r = true ↔ is_Some (config_written r)) ∧
  (∀ saved, config_written r = Some saved →
     initial_load_completed saved = true ∧
     config_in_memory r = Some saved ∧
     (summary r).*1 = ENDPOINTS ∧
     Forall (λ kv, success kv.2 = true) (summary r)).
Proof.
  unfold run_initial_load.
  assert (∀ cfg, returned (Run false [] cfg None None) = true ↔
                 is_Some (config_written (Run false [] cfg None None))) as Hno.
  { intros cfg. simpl. split; [done|]. by intros [? ?]. }
  destruct config as [config|]; [|by intros [= <-]].
  destruct (_ && _); [by intros [= <-]|].
  destruct (negb dates_given); [by intros [= <-]|].
  destruct connect as [conn|]; [|by intros [= <-]].
  destruct (load_all config fuel ENDPOINTS (World h 0 conn) (Progress [] 0 0))
    as [[w p]|] eqn:Hloop; [|done].
  apply load_endpoints_counts in Hloop as [Hc Hk]; [| |done]; last first.
  { by apply (bool_decide_unpack _); vm_compute. }
  case_bool_decide as Hall.
  - destruct save_succeeds; intros [= <-]; cbn.
    + split; [split; [by eexists|done]|]. intros saved [= <-].
      split_and!; [done..|].
      apply (length_filter_all (λ kv : string * entry, success kv.2 = true)).
      rewrite <- Hc, Hall. by rewrite <- (length_fmap fst), Hk.
    + split; [split; [done|by intros [? ?]]|]. done.
  - intros [= <-]; cbn. split; [split; [done|by intros [? ?]]|]. done.
Qed.

(** X18: A session is opened on a warehouse whose initial load was completed
    only after an answer that is [y] or [yes], whatever the case of its
    letters: without it, no table can be replaced. *)
Theorem rerun_needs_confirmation config confirm dates_given connect save_succeeds
  fuel h r :
  initial_load_completed config = true →
  run_load (Some config) confirm dates_given connect save_succeeds fuel h = Some r →
  is_Some (world_after r) →
  ∃ answer, confirm = Some answer ∧ (lower answer = "y" ∨ lower answer = "yes").
Proof.
  intros Hdone. unfold run_initial_load. rewrite Hdone. cbn [andb].
  destruct confirm as [answer|]; cbn [negb].
  - destruct (confirmed answer) eqn:Hyes; cbn [negb].
    + intros _ _. exists answer. split; [done|]. by apply confirmed_answers.
    + intros [= <-] [? ?]. done.
  - intros [= <-] [? ?]. done.
Qed.

End facts.

Lemma initial_load_sets_the_flag_witness :
  ∃ r,
    sample_initial (PipelineConfig false false true) None = Some r ∧
    returned r = true ∧
    (returned r = true ↔ is_Some (config_written r)) ∧
    (∀ saved, config_written r = Some saved →
       initial_load_completed saved = true ∧
       config_in_memory r = Some saved ∧
       (summary r).*1 = ENDPOINTS ∧
       Forall (λ kv, success kv.2 = true) (summary r)).
Proof.
  eexists. split; [vm_compute; reflexivity|]. split; [reflexivity|].
  apply (initial_load_sets_the_flag sample_dumps_dict sample_dumps sample_str
           sample_str_list sample_array_truth one_user never never (λ _, 1700000000%Z) (ret ())
           (Some (PipelineConfig false false true)) None true (Some empty_session)
           true 4 users_heap).
  vm_compute. reflexivity.
Defined.

Lemma rerun_needs_confirmation_witness :
  ∃ r,
    sample_initial (PipelineConfig true false true) (Some "Yes") = Some r ∧
    is_Some (world_after r) ∧
    ∃ answer, Some "Yes" = Some answer ∧ (lower answer = "y" ∨ lower answer = "yes").
Proof.
  eexists. split; [vm_compute; reflexivity|]. split; [by eexists|].
  eapply (rerun_needs_confirmation sample_dumps_dict sample_dumps sample_str
            sample_str_list sample_array_truth one_user never never (λ _, 1700000000%Z) (ret ())
            (PipelineConfig true false true) (Some "Yes") true (Some empty_session)
            true 4 users_heap).
  - reflexivity.
  - vm_compute. reflexivity.
  - by eexists.
Defined.

End InitialExtras.
